(** * nanoGPT training loop on Modal ([modal_train.py]): a shallow embedding

    The development follows the body of [train] in [src/modal_train.py]:
    the resolved [TrainingConfig], the adjustment of [out_dir], the
    distributed set-up, the choice of the initial [iter_num] and
    [best_val_loss], the learning-rate schedule [get_lr] and the
    [while True] loop with its evaluation / checkpoint block, the
    micro-step loop, the gradient clip and the logging block.

    Conventions.
    - Python [int] is [Z]; [%] and [//] on [int] are [Z.modulo] and [Z.div]
      (both round towards minus infinity and take the sign of the divisor,
      as Python does) and raise [ZeroDivisionError] on a zero divisor.
    - Python [float] (and the zero-dimensional tensors holding losses) are
      idealised as real numbers [R]: rounding is not modelled.
    - Python [str] is [string].
    - The model, the optimizer, the data loader and the grad scaler are
      opaque collaborators.  What the loop does to them is recorded as a
      trace of [event]s; the losses they return are supplied by oracles. *)

From Stdlib Require Import ZArith Reals Lra Lia List String Ascii Bool.
Import ListNotations.

Local Open Scope Z_scope.

(** ** Exceptions and fallible results *)

Inductive exn : Type :=
| ZeroDivisionError
| AssertionError
| UnboundLocalError
| KeyError
| FileNotFoundError.

Inductive result (A : Type) : Type :=
| Ok (a : A)
| Raise (e : exn).

Arguments Ok {A} a.
Arguments Raise {A} e.

(** ** The configuration (the fields the orchestration reads) *)

Record TrainingConfig : Type := mkConfig {
  out_dir : string;
  eval_interval : Z;
  log_interval : Z;
  eval_only : bool;
  always_save_checkpoint : bool;
  init_from : string;
  gradient_accumulation_steps : Z;
  batch_size : Z;
  block_size : Z;
  learning_rate : R;
  max_iters : Z;
  grad_clip : R;
  decay_lr : bool;
  warmup_iters : Z;
  lr_decay_iters : Z;
  min_lr : R
}.

(** The defaults of the dataclass. *)
Definition default_config : TrainingConfig := {|
  out_dir := "/checkpoints/out";
  eval_interval := 2000;
  log_interval := 1;
  eval_only := false;
  always_save_checkpoint := true;
  init_from := "scratch";
  gradient_accumulation_steps := 5 * 8;
  batch_size := 12;
  block_size := 1024;
  learning_rate := 6e-4%R;
  max_iters := 600000;
  grad_clip := 1%R;
  decay_lr := true;
  warmup_iters := 2000;
  lr_decay_iters := 600000;
  min_lr := 6e-5%R
|}.

(** Attribute assignment on the dataclass instance. *)
Definition set_out_dir (c : TrainingConfig) (v : string) : TrainingConfig :=
  {| out_dir := v;
     eval_interval := eval_interval c;
     log_interval := log_interval c;
     eval_only := eval_only c;
     always_save_checkpoint := always_save_checkpoint c;
     init_from := init_from c;
     gradient_accumulation_steps := gradient_accumulation_steps c;
     batch_size := batch_size c;
     block_size := block_size c;
     learning_rate := learning_rate c;
     max_iters := max_iters c;
     grad_clip := grad_clip c;
     decay_lr := decay_lr c;
     warmup_iters := warmup_iters c;
     lr_decay_iters := lr_decay_iters c;
     min_lr := min_lr c |}.

(** Configurations a config file can produce from the defaults. *)
Module Configs.

(** [always_save_checkpoint = False] *)
Definition best_only : TrainingConfig := {|
  out_dir := "/checkpoints/out"; eval_interval := 2000; log_interval := 1;
  eval_only := false; always_save_checkpoint := false; init_from := "scratch";
  gradient_accumulation_steps := 5 * 8; batch_size := 12; block_size := 1024;
  learning_rate := 6e-4%R; max_iters := 600000; grad_clip := 1%R;
  decay_lr := true; warmup_iters := 2000; lr_decay_iters := 600000;
  min_lr := 6e-5%R |}.

(** [init_from = 'resume'] *)
Definition resume : TrainingConfig := {|
  out_dir := "/checkpoints/out"; eval_interval := 2000; log_interval := 1;
  eval_only := false; always_save_checkpoint := true; init_from := "resume";
  gradient_accumulation_steps := 5 * 8; batch_size := 12; block_size := 1024;
  learning_rate := 6e-4%R; max_iters := 600000; grad_clip := 1%R;
  decay_lr := true; warmup_iters := 2000; lr_decay_iters := 600000;
  min_lr := 6e-5%R |}.

(** [eval_only = True] *)
Definition evaluate_only : TrainingConfig := {|
  out_dir := "/checkpoints/out"; eval_interval := 2000; log_interval := 1;
  eval_only := true; always_save_checkpoint := true; init_from := "scratch";
  gradient_accumulation_steps := 5 * 8; batch_size := 12; block_size := 1024;
  learning_rate := 6e-4%R; max_iters := 600000; grad_clip := 1%R;
  decay_lr := true; warmup_iters := 2000; lr_decay_iters := 600000;
  min_lr := 6e-5%R |}.

(** [grad_clip = -1.0] *)
Definition negative_clip : TrainingConfig := {|
  out_dir := "/checkpoints/out"; eval_interval := 2000; log_interval := 1;
  eval_only := false; always_save_checkpoint := true; init_from := "scratch";
  gradient_accumulation_steps := 5 * 8; batch_size := 12; block_size := 1024;
  learning_rate := 6e-4%R; max_iters := 600000; grad_clip := (-1)%R;
  decay_lr := true; warmup_iters := 2000; lr_decay_iters := 600000;
  min_lr := 6e-5%R |}.

(** [out_dir = 'out-shakespeare-char/'] *)
Definition relative_out_dir : TrainingConfig := {|
  out_dir := "out-shakespeare-char/"; eval_interval := 2000; log_interval := 1;
  eval_only := false; always_save_checkpoint := true; init_from := "resume";
  gradient_accumulation_steps := 5 * 8; batch_size := 12; block_size := 1024;
  learning_rate := 6e-4%R; max_iters := 600000; grad_clip := 1%R;
  decay_lr := true; warmup_iters := 2000; lr_decay_iters := 600000;
  min_lr := 6e-5%R |}.

End Configs.

(** ** The learning-rate schedule *)

Module LR.

(** [get_lr(it)], lines 324-335.  Both divisions can raise
    [ZeroDivisionError]; the [assert] can raise [AssertionError]. *)
Definition get_lr (c : TrainingConfig) (it : Z) : result R :=
  if it <? warmup_iters c then
    if warmup_iters c + 1 =? 0 then Raise ZeroDivisionError
    else Ok (learning_rate c * IZR (it + 1) / IZR (warmup_iters c + 1))%R
  else if it >? lr_decay_iters c then
    Ok (min_lr c)
  else if lr_decay_iters c - warmup_iters c =? 0 then Raise ZeroDivisionError
  else
    let decay_ratio :=
      (IZR (it - warmup_iters c) / IZR (lr_decay_iters c - warmup_iters c))%R in
    if Rle_dec 0 decay_ratio then
      if Rle_dec decay_ratio 1 then
        let coeff := (0.5 * (1.0 + cos (PI * decay_ratio)))%R in
        Ok (min_lr c + coeff * (learning_rate c - min_lr c))%R
      else Raise AssertionError
    else Raise AssertionError.

(** Line 368: [lr = get_lr(iter_num) if decay_lr else learning_rate]. *)
Definition lr_for_iteration (c : TrainingConfig) (iter_num : Z) : result R :=
  if decay_lr c then get_lr c iter_num else Ok (learning_rate c).

(** The ratio of the cosine segment, as the source computes it. *)
Definition decay_ratio (c : TrainingConfig) (it : Z) : R :=
  (IZR (it - warmup_iters c) / IZR (lr_decay_iters c - warmup_iters c))%R.

End LR.

(** ** Paths ([str.startswith], [str.rstrip], [posixpath]) *)

Module Path.

Local Open Scope string_scope.

Definition CHECKPOINT_DIR : string := "/checkpoints".

Definition sep : ascii := "/"%char.

(** [s.startswith(p)] *)
Definition startswith (s p : string) : bool := String.prefix p s.

(** [s.endswith('/')] *)
Fixpoint endswith_sep (s : string) : bool :=
  match s with
  | EmptyString => false
  | String a EmptyString => Ascii.eqb a sep
  | String _ s' => endswith_sep s'
  end.

(** [s.rstrip('/')]: drop every trailing separator. *)
Fixpoint rstrip_sep (s : string) : string :=
  match s with
  | EmptyString => EmptyString
  | String a s' =>
      match rstrip_sep s' with
      | EmptyString => if Ascii.eqb a sep then EmptyString else String a EmptyString
      | r => String a r
      end
  end.

(** [s.rfind('/')], scanning left to right: [pos] is the index of the head
    of [s], [last] the index of the last separator seen (or [-1]). *)
Fixpoint rfind_from (s : string) (pos last : Z) : Z :=
  match s with
  | EmptyString => last
  | String a s' => rfind_from s' (pos + 1) (if Ascii.eqb a sep then pos else last)
  end.

Definition rfind_sep (s : string) : Z := rfind_from s 0 (-1).

(** [s[i:]] for [i >= 0] *)
Fixpoint drop (i : nat) (s : string) : string :=
  match i, s with
  | O, _ => s
  | S _, EmptyString => EmptyString
  | S i', String _ s' => drop i' s'
  end.

(** [posixpath.basename]: [i = p.rfind('/') + 1; return p[i:]] *)
Definition basename (p : string) : string :=
  let i := rfind_sep p + 1 in
  drop (Z.to_nat i) p.

(** [posixpath.join(a, b)] with one component. *)
Definition join (a b : string) : string :=
  if startswith b "/" then b
  else if (String.eqb a "" || endswith_sep a)%bool then a ++ b
  else a ++ "/" ++ b.

(** The string made of [k] separators. *)
Fixpoint seps (k : nat) : string :=
  match k with
  | O => EmptyString
  | S k' => String sep (seps k')
  end.

(** [true] when no character of [s] is a separator. *)
Fixpoint no_sep (s : string) : bool :=
  match s with
  | EmptyString => true
  | String a s' => (negb (Ascii.eqb a sep) && no_sep s')%bool
  end.

(** Lines 127-130: keep [out_dir] inside the checkpoint volume. *)
Definition adjust_out_dir (c : TrainingConfig) : TrainingConfig :=
  if negb (startswith (out_dir c) CHECKPOINT_DIR) then
    let out_dir_name := basename (rstrip_sep (out_dir c)) in
    set_out_dir c (join CHECKPOINT_DIR out_dir_name)
  else c.

End Path.

(** ** Distributed set-up (lines 173-192) *)

Module DDP.

(** The three environment variables, already parsed by [int(...)];
    [None] when the variable is not set. *)
Record Environ : Type := mkEnviron {
  RANK : option Z;
  LOCAL_RANK : option Z;
  WORLD_SIZE : option Z
}.

Record Topology : Type := mkTopology {
  ddp : bool;
  master_process : bool;
  seed_offset : Z;
  ddp_world_size : Z;
  (** [gradient_accumulation_steps] after the per-process down-scaling *)
  accumulation_steps : Z;
  tokens_per_iter : Z
}.

Definition single_process : Environ :=
  {| RANK := None; LOCAL_RANK := None; WORLD_SIZE := None |}.

(** Rank 1 of an eight-process run. *)
Definition eight_gpus_rank1 : Environ :=
  {| RANK := Some 1; LOCAL_RANK := Some 1; WORLD_SIZE := Some 8 |}.

Definition setup (c : TrainingConfig) (env : Environ) : result Topology :=
  let gas := gradient_accumulation_steps c in
  let is_ddp :=
    negb (match RANK env with Some r => r | None => -1 end =? -1) in
  if is_ddp then
    match RANK env with
    | None => Raise KeyError
    | Some ddp_rank =>
      match LOCAL_RANK env with
      | None => Raise KeyError
      | Some _ =>
        match WORLD_SIZE env with
        | None => Raise KeyError
        | Some world =>
          if world =? 0 then Raise ZeroDivisionError
          else if negb (gas mod world =? 0) then Raise AssertionError
          else
            let gas' := gas / world in
            Ok {| ddp := true;
                  master_process := (ddp_rank =? 0);
                  seed_offset := ddp_rank;
                  ddp_world_size := world;
                  accumulation_steps := gas';
                  tokens_per_iter := gas' * world * batch_size c * block_size c |}
        end
      end
    end
  else
    Ok {| ddp := false;
          master_process := true;
          seed_offset := 0;
          ddp_world_size := 1;
          accumulation_steps := gas;
          tokens_per_iter := gas * 1 * batch_size c * block_size c |}.

End DDP.

(** ** The training loop *)

Module Train.

(** The part of a checkpoint the orchestration reads back (lines 272-273);
    parameters and optimizer state are opaque. *)
Record Checkpoint : Type := mkCheckpoint {
  ck_iter_num : Z;
  ck_best_val_loss : R
}.

(** What the loop does to its collaborators. *)
Inductive event : Type :=
| EvMakedirs (dir : string)                       (* os.makedirs(out_dir) *)
| EvLoad (path : string)                          (* torch.load(ckpt_path) *)
| EvSetLR (iter_num : Z) (lr : R)                 (* param_group['lr'] = lr *)
| EvEstimateLoss (iter_num : Z)                   (* estimate_loss() *)
| EvSave (path : string) (ck : Checkpoint)        (* torch.save(checkpoint, path) *)
| EvCommit                                        (* checkpoints.commit() *)
| EvBackward (iter_num micro_step : Z) (loss : R) (* scaler.scale(loss).backward() *)
| EvUnscale                                       (* scaler.unscale_(optimizer) *)
| EvClipGradNorm (max_norm : R)                   (* clip_grad_norm_(..., grad_clip) *)
| EvOptimizerStep (iter_num : Z)                  (* scaler.step(optimizer) *)
| EvScalerUpdate                                  (* scaler.update() *)
| EvZeroGrad                                      (* optimizer.zero_grad(...) *)
| EvLog (iter_num : Z) (lossf : R).               (* print(f"iter ...: loss ...") *)

(** A computation emits a trace and either returns or raises; the trace
    emitted before an exception is kept. *)
Definition M (A : Type) : Type := (list event * result A)%type.

Definition ret {A} (a : A) : M A := ([], Ok a).

Definition raise {A} (e : exn) : M A := ([], Raise e).

Definition emit (ev : event) : M unit := ([ev], Ok tt).

Definition lift {A} (r : result A) : M A := ([], r).

Definition bind {A B} (m : M A) (k : A -> M B) : M B :=
  match m with
  | (t1, Ok a) => let (t2, r) := k a in (t1 ++ t2, r)
  | (t1, Raise e) => (t1, Raise e)
  end.

Notation "x <- m ;; k" := (bind m (fun x => k))
  (at level 61, m at next level, right associativity).
Notation "m ;;; k" := (bind m (fun _ => k))
  (at level 61, right associativity).

Definition trace {A} (m : M A) : list event := fst m.
Definition outcome {A} (m : M A) : result A := snd m.

(** The variables of the loop that survive an iteration.  [loss] is the
    Python local of that name: unbound until the first micro-step. *)
Record LoopState : Type := mkState {
  iter_num : Z;
  local_iter_num : Z;
  best_val_loss : R;
  loss : option R
}.

(** The loop variables on entering iteration [i] of a fresh process. *)
Definition at_iteration (i : Z) (best : R) : LoopState :=
  {| iter_num := i; local_iter_num := 0; best_val_loss := best; loss := None |}.

(** Collaborators for concrete runs: an evaluator that reports the same
    loss on both splits at every call, and a model whose loss at
    micro-step [k] is [k + 1]. *)
Definition constant_estimate (v : R) : Z -> R * R := fun _ => (v, v).

Definition ramp_forward : Z -> Z -> R := fun _ k => IZR (k + 1).

(** Checkpoint volumes for concrete runs: an empty one, and one holding a
    single checkpoint file. *)
Definition empty_volume : string -> option Checkpoint := fun _ => None.

Definition volume_with (path : string) (ck : Checkpoint)
  : string -> option Checkpoint :=
  fun p => if String.eqb p path then Some ck else None.

(** The checkpoint of the resume scenario:
    [iter_num = 5000], [best_val_loss = 1.23]. *)
Definition ckpt_5000 : Checkpoint :=
  {| ck_iter_num := 5000; ck_best_val_loss := 1.23%R |}.

(** How a run of the loop ends when it does not raise. *)
Inductive loop_end : Type :=
| Finished     (* one of the two [break]s *)
| OutOfFuel.   (* the model stopped unfolding [while True] *)

Definition Rltb (a b : R) : bool := if Rlt_dec a b then true else false.

Definition Rneqb (a b : R) : bool := if Req_dec_T a b then false else true.

Definition ckpt_file (dir : string) : string := Path.join dir "ckpt.pt".

(** The guard of line 373, for a non-zero cadence. *)
Definition evaluates (c : TrainingConfig) (master : bool) (i : Z) : bool :=
  (i mod eval_interval c =? 0) && master.

Section Loop.

(** The loss [model(X, Y)] returns at micro-step [k] of iteration [i]. *)
Variable forward_loss : Z -> Z -> R.

(** The pair [(losses['train'], losses['val'])] that [estimate_loss()]
    returns when called at iteration [i]. *)
Variable estimate_loss : Z -> R * R.

(** The checkpoint volume: the checkpoint stored at a path, if any. *)
Variable volume : string -> option Checkpoint.

(** Lines 226-228 and 242-285: where the counters start. *)
Definition init_state (c : TrainingConfig) : M LoopState :=
  let fresh := {| iter_num := 0; local_iter_num := 0;
                  best_val_loss := 1e9%R; loss := None |} in
  if String.eqb (init_from c) "scratch" then ret fresh
  else if String.eqb (init_from c) "resume" then
    let ckpt_path := ckpt_file (out_dir c) in
    emit (EvLoad ckpt_path) ;;;
    match volume ckpt_path with
    | None => raise FileNotFoundError
    | Some checkpoint =>
        ret {| iter_num := ck_iter_num checkpoint; local_iter_num := 0;
               best_val_loss := ck_best_val_loss checkpoint; loss := None |}
    end
  else if Path.startswith (init_from c) "gpt2" then ret fresh
  else raise UnboundLocalError (* [model] is never bound *).

(** Lines 373-397: evaluation and checkpoint. *)
Definition eval_block (c : TrainingConfig) (master : bool) (st : LoopState)
  : M LoopState :=
  if eval_interval c =? 0 then raise ZeroDivisionError
  else if (iter_num st mod eval_interval c =? 0) && master then
    emit (EvEstimateLoss (iter_num st)) ;;;
    let losses := estimate_loss (iter_num st) in
    if Rltb (snd losses) (best_val_loss st) || always_save_checkpoint c then
      let st' := {| iter_num := iter_num st; local_iter_num := local_iter_num st;
                    best_val_loss := snd losses; loss := loss st |} in
      (if iter_num st >? 0 then
         emit (EvSave (ckpt_file (out_dir c))
                 {| ck_iter_num := iter_num st';
                    ck_best_val_loss := best_val_loss st' |}) ;;;
         emit EvCommit
       else ret tt) ;;;
      ret st'
    else ret st
  else ret st.

(** Lines 403-416: [for micro_step in range(gradient_accumulation_steps)].
    [steps] is the list of the remaining values of [micro_step]. *)
Fixpoint micro_steps (gas : Z) (i : Z) (steps : list Z) (cur : option R)
  : M (option R) :=
  match steps with
  | [] => ret cur
  | micro_step :: rest =>
      let l := (forward_loss i micro_step / IZR gas)%R in
      emit (EvBackward i micro_step l) ;;;
      micro_steps gas i rest (Some l)
  end.

(** [range(n)] *)
Definition range (n : Z) : list Z := map Z.of_nat (seq 0 (Z.to_nat n)).

(** Lines 417-425: clip, step, update, flush. *)
Definition optimizer_update (c : TrainingConfig) (i : Z) : M unit :=
  (if Rneqb (grad_clip c) 0.0 then
     emit EvUnscale ;;; emit (EvClipGradNorm (grad_clip c))
   else ret tt) ;;;
  emit (EvOptimizerStep i) ;;;
  emit EvScalerUpdate ;;;
  emit EvZeroGrad.

(** Lines 431-438: the logged loss (the utilisation estimate is telemetry
    of an opaque collaborator and is left out). *)
Definition log_block (c : TrainingConfig) (master : bool) (gas : Z)
  (st : LoopState) : M unit :=
  if log_interval c =? 0 then raise ZeroDivisionError
  else if (iter_num st mod log_interval c =? 0) && master then
    match loss st with
    | None => raise UnboundLocalError
    | Some l => emit (EvLog (iter_num st) (l * IZR gas)%R)
    end
  else ret tt.

(** Lines 401-425: one accumulation window and its optimizer step. *)
Definition accumulate_and_step (c : TrainingConfig) (gas : Z) (st : LoopState)
  : M LoopState :=
  l <- micro_steps gas (iter_num st) (range gas) (loss st) ;;
  optimizer_update c (iter_num st) ;;;
  ret {| iter_num := iter_num st; local_iter_num := local_iter_num st;
         best_val_loss := best_val_loss st; loss := l |}.

(** The state an accumulation window leaves: [loss] holds the divided loss
    of the last micro-step, or its old value when the window is empty. *)
Definition after_window (gas : Z) (st : LoopState) : LoopState :=
  {| iter_num := iter_num st; local_iter_num := local_iter_num st;
     best_val_loss := best_val_loss st;
     loss := last (map (fun k => Some (forward_loss (iter_num st) k
                                       / IZR gas)%R) (range gas))
                  (loss st) |}.

(** Lines 365-445: one pass through the body of [while True].  [None] is
    the [break] of evaluate-only mode; [Some st] carries the advanced
    counters to the termination test. *)
Definition iteration (c : TrainingConfig) (master : bool) (gas : Z)
  (st : LoopState) : M (option LoopState) :=
  lr <- lift (LR.lr_for_iteration c (iter_num st)) ;;
  emit (EvSetLR (iter_num st) lr) ;;;
  st1 <- eval_block c master st ;;
  if (iter_num st1 =? 0) && eval_only c then ret None
  else
    st2 <- accumulate_and_step c gas st1 ;;
    log_block c master gas st2 ;;;
    ret (Some {| iter_num := iter_num st2 + 1;
                 local_iter_num := local_iter_num st2 + 1;
                 best_val_loss := best_val_loss st2;
                 loss := loss st2 |}).

(** Lines 365-449: [while True], unfolded at most [fuel] times. *)
Fixpoint train_loop (fuel : nat) (c : TrainingConfig) (master : bool)
  (gas : Z) (st : LoopState) : M loop_end :=
  match fuel with
  | O => ret OutOfFuel
  | S fuel' =>
      next <- iteration c master gas st ;;
      match next with
      | None => ret Finished
      | Some st' =>
          if iter_num st' >? max_iters c then ret Finished
          else train_loop fuel' c master gas st'
      end
  end.

(** The state the loop is entered with. *)
Definition setup (c0 : TrainingConfig) (env : DDP.Environ)
  : M (TrainingConfig * DDP.Topology * LoopState) :=
  let c := Path.adjust_out_dir c0 in
  topo <- lift (DDP.setup c env) ;;
  (if DDP.master_process topo then emit (EvMakedirs (out_dir c)) else ret tt) ;;;
  st <- init_state c ;;
  ret (c, topo, st).

(** The body of [train], console output apart. *)
Definition train (fuel : nat) (c0 : TrainingConfig) (env : DDP.Environ)
  : M loop_end :=
  s <- setup c0 env ;;
  let '(c, topo, st) := s in
  train_loop fuel c (DDP.master_process topo) (DDP.accumulation_steps topo) st.

End Loop.

(** ** Reading a trace *)

(** The indices of the optimizer steps of a trace, in order. *)
Fixpoint optimizer_steps (t : list event) : list Z :=
  match t with
  | [] => []
  | EvOptimizerStep i :: t' => i :: optimizer_steps t'
  | _ :: t' => optimizer_steps t'
  end.

(** The index of the first training iteration of a trace. *)
Definition first_training_iteration (t : list event) : option Z :=
  hd_error (optimizer_steps t).

Definition is_estimate (ev : event) : bool :=
  match ev with EvEstimateLoss _ => true | _ => false end.

Definition is_save (ev : event) : bool :=
  match ev with EvSave _ _ => true | _ => false end.

Definition is_backward (ev : event) : bool :=
  match ev with EvBackward _ _ _ => true | _ => false end.

Definition is_clip (ev : event) : bool :=
  match ev with EvUnscale | EvClipGradNorm _ => true | _ => false end.

Definition count (p : event -> bool) (t : list event) : nat :=
  List.length (filter p t).

(** The losses handed to [backward], in order. *)
Fixpoint backward_losses (t : list event) : list R :=
  match t with
  | [] => []
  | EvBackward _ _ l :: t' => l :: backward_losses t'
  | _ :: t' => backward_losses t'
  end.


End Train.


(** ** More ways to read a trace *)

Module Observe.

Import Train.

(** What only the master process is meant to do: create the output
    directory, evaluate, write and commit checkpoints, log. *)
Definition is_master_only (ev : event) : bool :=
  match ev with
  | EvMakedirs _ | EvEstimateLoss _ | EvSave _ _ | EvCommit | EvLog _ _ => true
  | _ => false
  end.

(** The checkpoint files a trace writes, with their contents, in order. *)
Fixpoint saved_checkpoints (t : list event) : list (string * Checkpoint) :=
  match t with
  | [] => []
  | EvSave p ck :: t' => (p, ck) :: saved_checkpoints t'
  | _ :: t' => saved_checkpoints t'
  end.

(** [s, s + 1, ..., s + n - 1] *)
Definition steps_from (s : Z) (n : nat) : list Z :=
  map (fun k => s + Z.of_nat k) (seq 0 n).

(** How many passes the loop makes when entered at iteration [s]: the body
    runs once before the first test of [iter_num > max_iters]. *)
Definition iterations_left (c : TrainingConfig) (s : Z) : nat :=
  Z.to_nat (Z.max 1 (max_iters c - s + 1)).

End Observe.

(** Configurations with a degenerate cadence. *)
Module EdgeConfigs.

(** [eval_interval = 0] *)
Definition no_eval_cadence : TrainingConfig := {|
  out_dir := "/checkpoints/out"; eval_interval := 0; log_interval := 1;
  eval_only := false; always_save_checkpoint := true; init_from := "scratch";
  gradient_accumulation_steps := 5 * 8; batch_size := 12; block_size := 1024;
  learning_rate := 6e-4%R; max_iters := 600000; grad_clip := 1%R;
  decay_lr := true; warmup_iters := 2000; lr_decay_iters := 600000;
  min_lr := 6e-5%R |}.

(** [log_interval = 0] *)
Definition no_log_cadence : TrainingConfig := {|
  out_dir := "/checkpoints/out"; eval_interval := 2000; log_interval := 0;
  eval_only := false; always_save_checkpoint := true; init_from := "scratch";
  gradient_accumulation_steps := 5 * 8; batch_size := 12; block_size := 1024;
  learning_rate := 6e-4%R; max_iters := 600000; grad_clip := 1%R;
  decay_lr := true; warmup_iters := 2000; lr_decay_iters := 600000;
  min_lr := 6e-5%R |}.

End EdgeConfigs.

(** ** The parameter dictionary of a checkpoint (lines 264-271) *)

Module StateDict.

Section Dict.

(** The tensors; their contents play no part in the renaming. *)
Variable V : Type.

(** A Python [dict] with [str] keys: the items in insertion order, every
    key occurring once. *)
Definition dict : Type := list (string * V).

Definition keys (d : dict) : list string := map fst d.

(** [d.get(k)] *)
Fixpoint get (d : dict) (k : string) : option V :=
  match d with
  | [] => None
  | (k', v) :: d' => if String.eqb k' k then Some v else get d' k
  end.

(** [d.pop(k)]: the value and the dictionary without the key; [None]
    stands for the [KeyError] of a missing key. *)
Fixpoint pop (d : dict) (k : string) : option (V * dict) :=
  match d with
  | [] => None
  | (k', v) :: d' =>
      if String.eqb k' k then Some (v, d')
      else match pop d' k with
           | Some (x, r) => Some (x, (k', v) :: r)
           | None => None
           end
  end.

(** [d[k] = v]: replaces the value of a present key in place, appends a
    new key at the end. *)
Fixpoint set (d : dict) (k : string) (v : V) : dict :=
  match d with
  | [] => [(k, v)]
  | (k', v') :: d' =>
      if String.eqb k' k then (k', v) :: d' else (k', v') :: set d' k v
  end.

Definition unwanted_prefix : string := "_orig_mod.".

(** [k[len(unwanted_prefix):]] *)
Definition strip (k : string) : string :=
  Path.drop (String.length unwanted_prefix) k.

(** Lines 268-270, over the snapshot [list(state_dict.items())]:
    [state_dict[k[len(unwanted_prefix):]] = state_dict.pop(k)] for every
    key of the snapshot that starts with the prefix.  The right-hand side
    is evaluated first. *)
Fixpoint fix_keys (items : list (string * V)) (state_dict : dict)
  : result dict :=
  match items with
  | [] => Ok state_dict
  | (k, _) :: rest =>
      if Path.startswith k unwanted_prefix then
        match pop state_dict k with
        | None => Raise KeyError
        | Some (x, d') => fix_keys rest (set d' (strip k) x)
        end
      else fix_keys rest state_dict
  end.

Definition strip_unwanted_prefix (state_dict : dict) : result dict :=
  fix_keys state_dict state_dict.

End Dict.

Arguments get {V} d k.
Arguments pop {V} d k.
Arguments set {V} d k v.
Arguments keys {V} d.
Arguments fix_keys {V} items state_dict.
Arguments strip_unwanted_prefix {V} state_dict.

(** A checkpoint saved from a compiled model: every key carries the
    prefix. *)
Definition compiled_checkpoint : dict nat :=
  [("_orig_mod.transformer.wte.weight"%string, 0%nat);
   ("_orig_mod.transformer.wpe.weight"%string, 1%nat);
   ("_orig_mod.lm_head.weight"%string, 2%nat)].

End StateDict.

(** ** Errors of the collaborating libraries *)

(** Beside the built-in exceptions above, the data loader and the
    configuration loader can fail with these. *)
Inductive pyerror : Type :=
| Builtin (e : exn)
| RuntimeError    (* raised by torch *)
| ValueError      (* raised by numpy *)
| TypeError.      (* raised by a call with an unexpected keyword *)

Inductive attempt (A : Type) : Type :=
| Done (a : A)
| Failed (e : pyerror).

Arguments Done {A} a.
Arguments Failed {A} e.

(** ** The data loader (lines 209-224) *)

Module Data.

(** [l[start:stop]] on a sequence, with Python's treatment of negative and
    out-of-range bounds. *)
Definition clamp_index (n i : Z) : Z :=
  if i <? 0 then Z.max (i + n) 0 else Z.min i n.

Definition py_slice {A} (l : list A) (start stop : Z) : list A :=
  let n := Z.of_nat (List.length l) in
  let a := clamp_index n start in
  let b := clamp_index n stop in
  firstn (Z.to_nat (b - a)) (skipn (Z.to_nat a) l).

(** The two token files of the dataset; [None] when a file is missing. *)
Record Corpus : Type := mkCorpus {
  train_bin : option (list Z);
  val_bin : option (list Z)
}.

(** [np.memmap(path, dtype=np.uint16, mode='r')] *)
Definition memmap (file : option (list Z)) : attempt (list Z) :=
  match file with
  | None => Failed (Builtin FileNotFoundError)
  | Some [] => Failed ValueError   (* an empty file cannot be mapped *)
  | Some data => Done data
  end.

(** [torch.stack(rows)]: the rows must be there and of one length. *)
Definition stack (rows : list (list Z)) : attempt (list (list Z)) :=
  match rows with
  | [] => Failed RuntimeError
  | r :: rest =>
      if forallb (fun r' => Nat.eqb (List.length r') (List.length r)) rest
      then Done rows
      else Failed RuntimeError
  end.

Section Sampler.

(** The state of torch's random generator and its [randint]: [randint g
    high n] draws [n] integers from [[0, high)]. *)
Variable rng : Type.
Variable randint : rng -> Z -> Z -> list Z * rng.

(** [torch.randint(high, (n,))] with its argument checks. *)
Definition torch_randint (g : rng) (high n : Z) : attempt (list Z * rng) :=
  if n <? 0 then Failed RuntimeError
  else if high <=? 0 then Failed RuntimeError
  else Done (randint g high n).

(** [get_batch(split)]; moving the batch to the device changes nothing
    here. *)
Definition get_batch (corpus : Corpus) (batch_size block_size : Z)
  (g : rng) (split : string)
  : attempt ((list (list Z) * list (list Z)) * rng) :=
  match memmap (if String.eqb split "train" then train_bin corpus
                else val_bin corpus) with
  | Failed e => Failed e
  | Done data =>
      match torch_randint g (Z.of_nat (List.length data) - block_size)
              batch_size with
      | Failed e => Failed e
      | Done (ix, g') =>
          match stack (map (fun i => py_slice data i (i + block_size)) ix) with
          | Failed e => Failed e
          | Done x =>
              match stack (map (fun i => py_slice data (i + 1)
                                           (i + 1 + block_size)) ix) with
              | Failed e => Failed e
              | Done y => Done ((x, y), g')
              end
          end
      end
  end.

(** What [torch.randint] promises: as many draws as asked for, each in
    [[0, high)]. *)
Definition randint_in_range : Prop :=
  forall g high n, 0 < high -> 0 <= n ->
    List.length (fst (randint g high n)) = Z.to_nat n
    /\ Forall (fun i => 0 <= i < high) (fst (randint g high n)).

End Sampler.

(** The file [get_batch] opens for a split. *)
Definition split_file (corpus : Corpus) (split : string) : option (list Z) :=
  if String.eqb split "train" then train_bin corpus else val_bin corpus.

(** A generator for concrete runs: the state is a counter, and every draw
    returns the largest admissible offset. *)
Definition last_offset_randint (g : Z) (high n : Z) : list Z * Z :=
  (repeat (high - 1) (Z.to_nat n), g + 1).

(** A corpus of ten tokens per split. *)
Definition ten_tokens : Corpus :=
  {| train_bin := Some [10; 11; 12; 13; 14; 15; 16; 17; 18; 19];
     val_bin := Some [20; 21; 22; 23; 24; 25; 26; 27; 28; 29] |}.

End Data.

(** ** The loss estimate (lines 308-321) *)

Module Evaluator.

(** A zero-dimensional tensor: a number, or [nan] (the mean of no value). *)
Inductive scalar : Type :=
| Num (r : R)
| NaN.

(** What [estimate_loss] does to the model. *)
Inductive eval_event : Type :=
| ModelEval                          (* model.eval() *)
| Forward (split : string) (k : Z)   (* model(X, Y) on batch [k] of a split *)
| ModelTrain.                        (* model.train() *)

Definition sum (l : list R) : R := fold_right Rplus 0%R l.

(** [losses.mean()] *)
Definition mean (l : list R) : scalar :=
  match l with
  | [] => NaN
  | _ => Num (sum l / INR (List.length l))
  end.

Section Estimate.

Variable rng : Type.
Variable randint : rng -> Z -> Z -> list Z * rng.

(** The loss [model(X, Y)] returns on a batch, in evaluation mode and
    without gradient tracking. *)
Variable model_loss : list (list Z) -> list (list Z) -> R.

Variable corpus : Data.Corpus.
Variables batch_size block_size : Z.

(** Lines 314-318: [for k in range(eval_iters)], over the remaining
    values [ks] of [k]. *)
Fixpoint sample_losses (split : string) (ks : list Z) (g : rng)
  : list eval_event * attempt (list R * rng) :=
  match ks with
  | [] => ([], Done ([], g))
  | k :: rest =>
      match Data.get_batch rng randint corpus batch_size block_size g split with
      | Failed e => ([], Failed e)
      | Done ((X, Y), g1) =>
          let l := model_loss X Y in
          match sample_losses split rest g1 with
          | (t, Done (ls, g2)) => (Forward split k :: t, Done (l :: ls, g2))
          | (t, Failed e) => (Forward split k :: t, Failed e)
          end
      end
  end.

(** One turn of [for split in ['train', 'val']]; [torch.zeros(eval_iters)]
    rejects a negative size. *)
Definition estimate_split (eval_iters : Z) (split : string) (g : rng)
  : list eval_event * attempt (scalar * rng) :=
  if eval_iters <? 0 then ([], Failed RuntimeError)
  else
    match sample_losses split (Train.range eval_iters) g with
    | (t, Done (ls, g')) => (t, Done (mean ls, g'))
    | (t, Failed e) => (t, Failed e)
    end.

(** [estimate_loss()]: the pair is [(out['train'], out['val'])]. *)
Definition estimate_loss (eval_iters : Z) (g : rng)
  : list eval_event * attempt ((scalar * scalar) * rng) :=
  match estimate_split eval_iters "train" g with
  | (t1, Failed e) => (ModelEval :: t1, Failed e)
  | (t1, Done (train_loss, g1)) =>
      match estimate_split eval_iters "val" g1 with
      | (t2, Failed e) => (ModelEval :: t1 ++ t2, Failed e)
      | (t2, Done (val_loss, g2)) =>
          (ModelEval :: t1 ++ t2 ++ [ModelTrain],
           Done ((train_loss, val_loss), g2))
      end
  end.

End Estimate.

Definition is_model_train (ev : eval_event) : bool :=
  match ev with ModelTrain => true | _ => false end.

(** A model whose loss on a batch is the first token of the first
    target row, kept within the range of a token. *)
Definition first_target (X Y : list (list Z)) : R :=
  IZR (Z.max 0 (Z.min 65535 (hd 0 (hd [] Y)))).

End Evaluator.

(** ** The utilisation estimate of the log block (lines 435-437) *)

Module Telemetry.



End Telemetry.

(** ** Loading the configuration from a file (lines 100-115) *)

Module ConfigFile.

(** The values a configuration script can leave in its namespace. *)
Inductive pyval : Type :=
| VInt (z : Z)
| VFloat (r : R)
| VStr (s : string)
| VBool (b : bool)
| VNone
| VCallable     (* a function, a class, a built-in *)
| VModule.      (* what an [import] binds *)

Definition callable (v : pyval) : bool :=
  match v with VCallable => true | _ => false end.

(** The fields of the dataclass with their defaults, in declaration order;
    the default of [dtype] depends on the machine. *)
Definition defaults (dtype : string) : list (string * pyval) :=
  [("out_dir", VStr "/checkpoints/out");
   ("eval_interval", VInt 2000);
   ("log_interval", VInt 1);
   ("eval_iters", VInt 200);
   ("eval_only", VBool false);
   ("always_save_checkpoint", VBool true);
   ("init_from", VStr "scratch");
   ("wandb_log", VBool false);
   ("wandb_project", VStr "owt");
   ("wandb_run_name", VStr "gpt2");
   ("dataset", VStr "openwebtext");
   ("gradient_accumulation_steps", VInt (5 * 8));
   ("batch_size", VInt 12);
   ("block_size", VInt 1024);
   ("n_layer", VInt 12);
   ("n_head", VInt 12);
   ("n_embd", VInt 768);
   ("dropout", VFloat 0.0);
   ("bias", VBool false);
   ("learning_rate", VFloat 6e-4);
   ("max_iters", VInt 600000);
   ("weight_decay", VFloat 1e-1);
   ("beta1", VFloat 0.9);
   ("beta2", VFloat 0.95);
   ("grad_clip", VFloat 1.0);
   ("decay_lr", VBool true);
   ("warmup_iters", VInt 2000);
   ("lr_decay_iters", VInt 600000);
   ("min_lr", VFloat 6e-5);
   ("backend", VStr "nccl");
   ("device", VStr "cuda");
   ("dtype", VStr dtype);
   ("compile", VBool true)]%string.

Definition field_names : list string := map fst (defaults "").

Definition mem (k : string) (l : list string) : bool :=
  existsb (String.eqb k) l.

(** Lines 111-112: drop the private names and the callables. *)
Definition config_values (config_namespace : list (string * pyval))
  : list (string * pyval) :=
  filter (fun kv => negb (Path.startswith (fst kv) "_")
                    && negb (callable (snd kv)))
         config_namespace.

(** The call of [cls] with the values as keyword arguments: the
    generated [__init__] rejects a keyword that is not a field and stores
    the others as they come, unchecked. *)
Definition init (dtype : string) (kwargs : list (string * pyval))
  : attempt (list (string * pyval)) :=
  if forallb (fun kv => mem (fst kv) field_names) kwargs then
    Done (map (fun fd => (fst fd,
                          match StateDict.get kwargs (fst fd) with
                          | Some v => v
                          | None => snd fd
                          end))
              (defaults dtype))
  else Failed TypeError.

(** [from_file], from the namespace [exec] leaves behind. *)
Definition from_file (dtype : string)
  (config_namespace : list (string * pyval))
  : attempt (list (string * pyval)) :=
  init dtype (config_values config_namespace).

(** A configuration script in the style of [config/train_shakespeare_char.py]. *)
Definition shakespeare_char : list (string * pyval) :=
  [("out_dir", VStr "out-shakespeare-char");
   ("eval_interval", VInt 250);
   ("always_save_checkpoint", VBool false);
   ("dataset", VStr "shakespeare_char");
   ("gradient_accumulation_steps", VInt 1);
   ("batch_size", VInt 64);
   ("block_size", VInt 256);
   ("learning_rate", VFloat 1e-3);
   ("_scratch", VInt 7)]%string.

End ConfigFile.

(** ** The architecture arguments on resume (lines 240-241, 259-260) *)

Module ModelArgs.

Import ConfigFile.

(** The keys a resumed run takes from the checkpoint. *)
Definition forced : list string :=
  ["n_layer"; "n_head"; "n_embd"; "block_size"; "bias"; "vocab_size"]%string.

(** Lines 259-260: [for k in [...]: model_args[k] = checkpoint_model_args[k]],
    over the remaining keys [ks]. *)
Fixpoint force (ks : list string)
  (model_args checkpoint_model_args : list (string * pyval))
  : result (list (string * pyval)) :=
  match ks with
  | [] => Ok model_args
  | k :: rest =>
      match StateDict.get checkpoint_model_args k with
      | None => Raise KeyError
      | Some v => force rest (StateDict.set model_args k v) checkpoint_model_args
      end
  end.

(** Lines 240-241: the arguments as the configuration gives them. *)
Definition from_config (n_layer n_head n_embd block_size : Z) (bias : bool)
  (dropout : R) : list (string * pyval) :=
  [("n_layer", VInt n_layer); ("n_head", VInt n_head);
   ("n_embd", VInt n_embd); ("block_size", VInt block_size);
   ("bias", VBool bias); ("vocab_size", VNone);
   ("dropout", VFloat dropout)]%string.

(** The arguments a checkpoint of the small Shakespeare model carries. *)
Definition shakespeare_checkpoint_args : list (string * pyval) :=
  [("n_layer", VInt 6); ("n_head", VInt 6); ("n_embd", VInt 384);
   ("block_size", VInt 256); ("bias", VBool false);
   ("vocab_size", VInt 65); ("dropout", VFloat 0.2)]%string.

End ModelArgs.
(** * Properties *)

(** ** The learning-rate schedule *)

Module LRFacts.

Import LR.

Local Open Scope R_scope.

Lemma decay_ratio_unit (c : TrainingConfig) (it : Z) :
  (warmup_iters c <= it <= lr_decay_iters c)%Z ->
  warmup_iters c <> lr_decay_iters c ->
  0 <= decay_ratio c it <= 1.
Proof.
  intros Hit Hne. unfold decay_ratio.
  assert (Hd : 0 < IZR (lr_decay_iters c - warmup_iters c)).
  { apply IZR_lt. lia. }
  assert (Hn : 0 <= IZR (it - warmup_iters c)).
  { apply IZR_le. lia. }
  assert (Hle : IZR (it - warmup_iters c) <= IZR (lr_decay_iters c - warmup_iters c)).
  { apply IZR_le. lia. }
  split.
  - apply Rmult_le_pos; [exact Hn | left; apply Rinv_0_lt_compat; exact Hd].
  - apply (Rmult_le_reg_r (IZR (lr_decay_iters c - warmup_iters c))); [exact Hd |].
    unfold Rdiv. rewrite Rmult_assoc, Rinv_l by lra. lra.
Qed.

Lemma get_lr_warmup (c : TrainingConfig) (it : Z) :
  (0 <= it < warmup_iters c)%Z ->
  get_lr c it = Ok (learning_rate c * IZR (it + 1) / IZR (warmup_iters c + 1)).
Proof.
  intros H. unfold get_lr.
  destruct (Z.ltb_spec it (warmup_iters c)); [| lia].
  destruct (Z.eqb_spec (warmup_iters c + 1) 0); [lia | reflexivity].
Qed.

Lemma get_lr_floor (c : TrainingConfig) (it : Z) :
  (warmup_iters c <= it)%Z -> (lr_decay_iters c < it)%Z ->
  get_lr c it = Ok (min_lr c).
Proof.
  intros Hw Hd. unfold get_lr.
  destruct (Z.ltb_spec it (warmup_iters c)); [lia |].
  rewrite (proj2 (Z.gtb_lt _ _)) by lia. reflexivity.
Qed.

Lemma get_lr_cosine (c : TrainingConfig) (it : Z) :
  (warmup_iters c <= it <= lr_decay_iters c)%Z ->
  warmup_iters c <> lr_decay_iters c ->
  get_lr c it =
  Ok (min_lr c
      + 0.5 * (1 + cos (PI * decay_ratio c it)) * (learning_rate c - min_lr c)).
Proof.
  intros Hit Hne. pose proof (decay_ratio_unit c it Hit Hne) as [H0 H1].
  unfold get_lr.
  destruct (Z.ltb_spec it (warmup_iters c)); [lia |].
  destruct (Z.gtb_spec it (lr_decay_iters c)); [lia |].
  destruct (Z.eqb_spec (lr_decay_iters c - warmup_iters c) 0); [lia |].
  fold (decay_ratio c it).
  destruct (Rle_dec 0 (decay_ratio c it)); [| contradiction].
  destruct (Rle_dec (decay_ratio c it) 1); [| contradiction].
  f_equal. lra.
Qed.

(** The window that makes the cosine segment's ratio undefined: the call
    raises instead of returning a rate. *)
Lemma get_lr_empty_window (c : TrainingConfig) (it : Z) :
  it = warmup_iters c -> it = lr_decay_iters c ->
  get_lr c it = Raise ZeroDivisionError.
Proof.
  intros Hw Hd. unfold get_lr.
  destruct (Z.ltb_spec it (warmup_iters c)); [lia |].
  destruct (Z.gtb_spec it (lr_decay_iters c)); [lia |].
  destruct (Z.eqb_spec (lr_decay_iters c - warmup_iters c) 0); [reflexivity | lia].
Qed.

(** The [assert] on the ratio never fires: whenever the ratio is computed
    it lies in [0, 1]. *)
Lemma get_lr_never_asserts (c : TrainingConfig) (it : Z) :
  get_lr c it <> Raise AssertionError.
Proof.
  unfold get_lr.
  destruct (Z.ltb_spec it (warmup_iters c)).
  { destruct (warmup_iters c + 1 =? 0)%Z; discriminate. }
  destruct (Z.gtb_spec it (lr_decay_iters c)); [discriminate |].
  destruct (Z.eqb_spec (lr_decay_iters c - warmup_iters c) 0); [discriminate |].
  assert (Hu : 0 <= decay_ratio c it <= 1) by (apply decay_ratio_unit; lia).
  fold (decay_ratio c it).
  destruct (Rle_dec 0 (decay_ratio c it)); [| lra].
  destruct (Rle_dec (decay_ratio c it) 1); [discriminate | lra].
Qed.





End LRFacts.

(** ** Distributed set-up *)

Module DDPFacts.

Import DDP.

Local Open Scope Z_scope.

Lemma is_ddp_run (env : Environ) (rank : Z) :
  RANK env = Some rank -> rank <> -1 ->
  negb (match RANK env with Some r => r | None => -1 end =? -1) = true.
Proof.
  intros -> Hr. destruct (Z.eqb_spec rank (-1)); [contradiction | reflexivity].
Qed.

(** A world size of zero also aborts the start-up, on the modulo. *)
Lemma setup_world_zero (c : TrainingConfig) (env : Environ) (rank lrank : Z) :
  RANK env = Some rank -> rank <> -1 -> LOCAL_RANK env = Some lrank ->
  WORLD_SIZE env = Some 0 ->
  setup c env = Raise ZeroDivisionError.
Proof.
  intros Hr Hne Hl Hw. unfold setup.
  rewrite (is_ddp_run env rank Hr Hne), Hr, Hl, Hw. reflexivity.
Qed.

(** C6.  In a distributed run of world size [W]: the set-up aborts on the
    assertion unless [W] divides the configured accumulation-step count;
    otherwise each process uses the configured count divided by [W], and
    (per-process steps) * W * batch_size * block_size is the configured
    count * batch_size * block_size, whatever [W] is. *)
Theorem ddp_accumulation_scaling (c : TrainingConfig) (env : Environ)
  (rank lrank W : Z) :
  RANK env = Some rank -> rank <> -1 ->
  LOCAL_RANK env = Some lrank ->
  WORLD_SIZE env = Some W -> W <> 0 ->
  (gradient_accumulation_steps c mod W <> 0 ->
   setup c env = Raise AssertionError)
  /\
  (gradient_accumulation_steps c mod W = 0 ->
   exists topo,
     setup c env = Ok topo
     /\ ddp topo = true
     /\ ddp_world_size topo = W
     /\ accumulation_steps topo = gradient_accumulation_steps c / W
     /\ accumulation_steps topo * W * batch_size c * block_size c
        = gradient_accumulation_steps c * batch_size c * block_size c
     /\ tokens_per_iter topo
        = gradient_accumulation_steps c * batch_size c * block_size c).
Proof.
  intros Hr Hne Hl Hw HW. unfold setup.
  rewrite (is_ddp_run env rank Hr Hne), Hr, Hl, Hw.
  destruct (Z.eqb_spec W 0) as [| _]; [contradiction |].
  split; intros Hmod.
  - destruct (Z.eqb_spec (gradient_accumulation_steps c mod W) 0);
      [contradiction | reflexivity].
  - rewrite Hmod. simpl.
    assert (Hdiv : gradient_accumulation_steps c / W * W
                   = gradient_accumulation_steps c).
    { pose proof (Z.div_mod (gradient_accumulation_steps c) W HW). lia. }
    eexists. split; [reflexivity |]. simpl.
    rewrite Hdiv. repeat split; reflexivity.
Qed.

Lemma ddp_accumulation_scaling_witness :
  (RANK eight_gpus_rank1 = Some 1 /\ 1 <> -1
   /\ LOCAL_RANK eight_gpus_rank1 = Some 1
   /\ WORLD_SIZE eight_gpus_rank1 = Some 8 /\ 8 <> 0
   /\ gradient_accumulation_steps default_config mod 8 = 0)
  /\
  exists topo,
    setup default_config eight_gpus_rank1 = Ok topo
    /\ ddp topo = true
    /\ ddp_world_size topo = 8
    /\ accumulation_steps topo = gradient_accumulation_steps default_config / 8
    /\ accumulation_steps topo * 8 * batch_size default_config
       * block_size default_config
       = gradient_accumulation_steps default_config * batch_size default_config
         * block_size default_config
    /\ tokens_per_iter topo
       = gradient_accumulation_steps default_config * batch_size default_config
         * block_size default_config.
Proof.
  assert (H1 : RANK eight_gpus_rank1 = Some 1) by reflexivity.
  assert (H2 : 1 <> -1) by lia.
  assert (H3 : LOCAL_RANK eight_gpus_rank1 = Some 1) by reflexivity.
  assert (H4 : WORLD_SIZE eight_gpus_rank1 = Some 8) by reflexivity.
  assert (H5 : 8 <> 0) by lia.
  assert (H6 : gradient_accumulation_steps default_config mod 8 = 0)
    by reflexivity.
  split; [repeat split; assumption |].
  exact (proj2 (ddp_accumulation_scaling default_config eight_gpus_rank1
                  1 1 8 H1 H2 H3 H4 H5) H6).
Defined.

End DDPFacts.

(** ** The training loop *)

Module TrainFacts.

Import Train.

Local Open Scope Z_scope.

(** *** The trace monad *)

Lemma trace_bind {A B} (m : M A) (k : A -> M B) :
  trace (bind m k)
  = trace m ++ match outcome m with
               | Ok a => trace (k a)
               | Raise _ => []
               end.
Proof.
  destruct m as [t [a | e]]; simpl.
  - destruct (k a); reflexivity.
  - symmetry; apply app_nil_r.
Qed.

Lemma outcome_bind {A B} (m : M A) (k : A -> M B) :
  outcome (bind m k)
  = match outcome m with
    | Ok a => outcome (k a)
    | Raise e => Raise e
    end.
Proof.
  destruct m as [t [a | e]]; simpl; [destruct (k a) |]; reflexivity.
Qed.

Lemma optimizer_steps_app (t1 t2 : list event) :
  optimizer_steps (t1 ++ t2) = optimizer_steps t1 ++ optimizer_steps t2.
Proof.
  induction t1 as [| ev t1 IH]; [reflexivity |].
  destruct ev; simpl; rewrite IH; reflexivity.
Qed.

Lemma backward_losses_app (t1 t2 : list event) :
  backward_losses (t1 ++ t2) = backward_losses t1 ++ backward_losses t2.
Proof.
  induction t1 as [| ev t1 IH]; [reflexivity |].
  destruct ev; simpl; rewrite IH; reflexivity.
Qed.


Lemma existsb_filter_self (p : event -> bool) (t : list event) :
  existsb p (filter p t) = existsb p t.
Proof.
  induction t as [| ev t IH]; [reflexivity |].
  cbn. destruct (p ev) eqn:E; cbn; rewrite ?E, IH; reflexivity.
Qed.

Lemma Rltb_true (a b : R) : Rltb a b = true <-> (a < b)%R.
Proof. unfold Rltb. destruct (Rlt_dec a b); split; intros; congruence || assumption. Qed.

Lemma Rltb_false (a b : R) : Rltb a b = false <-> (b <= a)%R.
Proof.
  unfold Rltb. destruct (Rlt_dec a b); split; intros; try congruence; lra.
Qed.

Lemma Rneqb_true (a b : R) : Rneqb a b = true <-> a <> b.
Proof.
  unfold Rneqb. destruct (Req_dec_T a b); split; intros; congruence.
Qed.

(** *** The blocks of an iteration *)

Section Blocks.

Variable forward_loss : Z -> Z -> R.
Variable estimate_loss : Z -> R * R.

(** The validation loss an evaluation at iteration [i] observes. *)
Abbreviation val_loss i := (snd (estimate_loss i)).

(** The checkpoint block never raises on a non-zero cadence; its trace and
    the state it leaves are those of the nested conditions of the source. *)
Lemma eval_block_run (c : TrainingConfig) (master : bool) (st : LoopState) :
  eval_interval c <> 0 ->
  eval_block estimate_loss c master st
  = if evaluates c master (iter_num st) then
      if Rltb (val_loss (iter_num st)) (best_val_loss st)
         || always_save_checkpoint c
      then
        (EvEstimateLoss (iter_num st)
         :: (if iter_num st >? 0 then
               [EvSave (ckpt_file (out_dir c))
                  {| ck_iter_num := iter_num st;
                     ck_best_val_loss := val_loss (iter_num st) |};
                EvCommit]
             else []),
         Ok {| iter_num := iter_num st; local_iter_num := local_iter_num st;
               best_val_loss := val_loss (iter_num st); loss := loss st |})
      else ([EvEstimateLoss (iter_num st)], Ok st)
    else ([], Ok st).
Proof.
  intros Hne. unfold eval_block, evaluates.
  destruct (Z.eqb_spec (eval_interval c) 0) as [| _]; [contradiction |].
  destruct ((iter_num st mod eval_interval c =? 0) && master); [| reflexivity].
  destruct (Rltb (val_loss (iter_num st)) (best_val_loss st)
            || always_save_checkpoint c); [| reflexivity].
  destruct (iter_num st >? 0); reflexivity.
Qed.

Lemma eval_block_zero_cadence (c : TrainingConfig) (master : bool)
  (st : LoopState) :
  eval_interval c = 0 ->
  eval_block estimate_loss c master st = ([], Raise ZeroDivisionError).
Proof.
  intros H0. unfold eval_block. rewrite H0. reflexivity.
Qed.

Lemma eval_block_iter_num (c : TrainingConfig) (master : bool)
  (st st' : LoopState) :
  outcome (eval_block estimate_loss c master st) = Ok st' ->
  iter_num st' = iter_num st /\ loss st' = loss st.
Proof.
  destruct (Z.eq_dec (eval_interval c) 0) as [H0 | Hne].
  - rewrite eval_block_zero_cadence by assumption. discriminate.
  - rewrite eval_block_run by assumption.
    destruct (evaluates c master (iter_num st)).
    + destruct (Rltb _ _ || always_save_checkpoint c); simpl;
        intros [= <-]; split; reflexivity.
    + simpl. intros [= <-]. split; reflexivity.
Qed.

(** The block writes a checkpoint exactly under the four conditions. *)
Lemma eval_block_saves_iff (c : TrainingConfig) (master : bool)
  (st : LoopState) :
  existsb is_save (trace (eval_block estimate_loss c master st)) = true
  <->
  master = true
  /\ (eval_interval c | iter_num st)
  /\ iter_num st > 0
  /\ ((val_loss (iter_num st) < best_val_loss st)%R
      \/ always_save_checkpoint c = true).
Proof.
  destruct (Z.eq_dec (eval_interval c) 0) as [H0 | Hne].
  - rewrite eval_block_zero_cadence by assumption. simpl. split; [discriminate |].
    intros (_ & Hdiv & Hpos & _). rewrite H0 in Hdiv.
    apply Z.divide_0_l in Hdiv. lia.
  - rewrite eval_block_run by assumption. unfold evaluates.
    rewrite <- (Z.mod_divide _ _ Hne).
    destruct (Z.eqb_spec (iter_num st mod eval_interval c) 0) as [Hm | Hm];
      [| simpl; split; [discriminate | tauto]].
    destruct master; simpl; [| split; [discriminate | intros [? _]; discriminate]].
    destruct (Rltb (val_loss (iter_num st)) (best_val_loss st)) eqn:Hlt; simpl.
    + apply Rltb_true in Hlt.
      destruct (Z.gtb_spec (iter_num st) 0); simpl.
      * split; [intros _ | reflexivity]. repeat split; auto; lia.
      * split; [discriminate | intros (_ & _ & Hpos & _); lia].
    + apply Rltb_false in Hlt.
      destruct (always_save_checkpoint c); simpl.
      * destruct (Z.gtb_spec (iter_num st) 0); simpl.
        -- split; [intros _ | reflexivity]. repeat split; auto; lia.
        -- split; [discriminate | intros (_ & _ & Hpos & _); lia].
      * split; [discriminate |].
        intros (_ & _ & _ & [Hlt' | Habs]); [lra | discriminate].
Qed.

Lemma last_cons_default {A} (a : A) (l : list A) (d d' : A) :
  last (a :: l) d = last (a :: l) d'.
Proof.
  revert a. induction l as [| b l IH]; intros a; [reflexivity |].
  change (last (b :: l) d = last (b :: l) d'). apply IH.
Qed.

(** The micro-step loop hands one divided loss per step to [backward] and
    leaves the last one in [loss]. *)
Lemma micro_steps_run (gas i : Z) (steps : list Z) (cur : option R) :
  micro_steps forward_loss gas i steps cur
  = (map (fun k => EvBackward i k (forward_loss i k / IZR gas)%R) steps,
     Ok (last (map (fun k => Some (forward_loss i k / IZR gas)%R) steps) cur)).
Proof.
  revert cur. induction steps as [| k rest IH]; intros cur; [reflexivity |].
  cbn [micro_steps]. unfold bind, emit. rewrite IH. cbn [map app].
  f_equal. f_equal.
  destruct rest as [| k' rest']; [reflexivity |].
  cbn [map].
  rewrite (last_cons_default _ _ (Some (forward_loss i k / IZR gas)%R) cur).
  reflexivity.
Qed.

Lemma optimizer_update_run (c : TrainingConfig) (i : Z) :
  optimizer_update c i
  = ((if Rneqb (grad_clip c) 0 then [EvUnscale; EvClipGradNorm (grad_clip c)]
      else [])
     ++ [EvOptimizerStep i; EvScalerUpdate; EvZeroGrad],
     Ok tt).
Proof.
  unfold optimizer_update.
  replace (Rneqb (grad_clip c) 0.0) with (Rneqb (grad_clip c) 0)
    by (f_equal; lra).
  destruct (Rneqb (grad_clip c) 0); reflexivity.
Qed.

Lemma accumulate_and_step_run (c : TrainingConfig) (gas : Z) (st : LoopState) :
  accumulate_and_step forward_loss c gas st
  = (map (fun k => EvBackward (iter_num st) k
                     (forward_loss (iter_num st) k / IZR gas)%R) (range gas)
     ++ (if Rneqb (grad_clip c) 0
         then [EvUnscale; EvClipGradNorm (grad_clip c)] else [])
     ++ [EvOptimizerStep (iter_num st); EvScalerUpdate; EvZeroGrad],
     Ok {| iter_num := iter_num st; local_iter_num := local_iter_num st;
           best_val_loss := best_val_loss st;
           loss := last (map (fun k => Some (forward_loss (iter_num st) k
                                             / IZR gas)%R) (range gas))
                        (loss st) |}).
Proof.
  unfold accumulate_and_step.
  rewrite micro_steps_run, optimizer_update_run. unfold bind, ret.
  rewrite app_nil_r. reflexivity.
Qed.

Lemma log_block_run (c : TrainingConfig) (master : bool) (gas : Z)
  (st : LoopState) (l : R) :
  log_interval c <> 0 -> loss st = Some l ->
  log_block c master gas st
  = (if (iter_num st mod log_interval c =? 0) && master
     then [EvLog (iter_num st) (l * IZR gas)%R] else [],
     Ok tt).
Proof.
  intros Hne Hl. unfold log_block. rewrite Hl.
  destruct (Z.eqb_spec (log_interval c) 0) as [| _]; [contradiction |].
  destruct ((iter_num st mod log_interval c =? 0) && master); reflexivity.
Qed.

(** The log block emits nothing but, at most, one [EvLog]. *)
Lemma log_block_trace (c : TrainingConfig) (master : bool) (gas : Z)
  (st : LoopState) :
  trace (log_block c master gas st) = []
  \/ exists l, trace (log_block c master gas st) = [EvLog (iter_num st) l].
Proof.
  unfold log_block.
  destruct (log_interval c =? 0); [left; reflexivity |].
  destruct ((iter_num st mod log_interval c =? 0) && master);
    [| left; reflexivity].
  destruct (loss st) as [l |]; [right; eexists; reflexivity | left; reflexivity].
Qed.

(** One pass through the loop body, once the rate is computed. *)
Lemma iteration_run (c : TrainingConfig) (master : bool) (gas : Z)
  (st : LoopState) (lr : R) :
  LR.lr_for_iteration c (iter_num st) = Ok lr ->
  iteration forward_loss estimate_loss c master gas st
  = let ev := eval_block estimate_loss c master st in
    match outcome ev with
    | Raise e => (EvSetLR (iter_num st) lr :: trace ev, Raise e)
    | Ok st1 =>
        if (iter_num st1 =? 0) && eval_only c
        then (EvSetLR (iter_num st) lr :: trace ev, Ok None)
        else
          let st2 := after_window forward_loss gas st1 in
          let lg := log_block c master gas st2 in
          (EvSetLR (iter_num st) lr
           :: trace ev
              ++ trace (accumulate_and_step forward_loss c gas st1)
              ++ trace lg,
           match outcome lg with
           | Ok _ => Ok (Some {| iter_num := iter_num st2 + 1;
                                 local_iter_num := local_iter_num st2 + 1;
                                 best_val_loss := best_val_loss st2;
                                 loss := loss st2 |})
           | Raise e => Raise e
           end)
    end.
Proof.
  intros Hlr. unfold iteration. rewrite Hlr. unfold lift.
  cbn [bind emit app].
  destruct (eval_block estimate_loss c master st) as [t [st1 | e]];
    cbn [bind outcome trace fst snd]; [| reflexivity].
  destruct ((iter_num st1 =? 0) && eval_only c).
  - cbn. rewrite ?app_nil_r. reflexivity.
  - rewrite accumulate_and_step_run. fold (after_window forward_loss gas st1).
    cbn [bind trace fst].
    destruct (log_block c master gas (after_window forward_loss gas st1)) as [t' [[] | e]];
      cbn; rewrite ?app_nil_r, <- ?app_assoc; reflexivity.
Qed.

(** *** What the blocks leave out of a trace *)

Lemma existsb_backward_map (p : event -> bool) (i : Z) (f : Z -> R)
  (l : list Z) :
  (forall k x, p (EvBackward i k x) = false) ->
  existsb p (map (fun k => EvBackward i k (f k)) l) = false.
Proof.
  intros Hp. induction l as [| k l IH]; [reflexivity |].
  simpl. rewrite Hp, IH. reflexivity.
Qed.

Lemma accumulate_and_step_no_save (c : TrainingConfig) (gas : Z)
  (st : LoopState) :
  existsb is_save (trace (accumulate_and_step forward_loss c gas st)) = false.
Proof.
  rewrite accumulate_and_step_run. cbn [trace fst].
  rewrite !existsb_app, existsb_backward_map by reflexivity.
  destruct (Rneqb (grad_clip c) 0); reflexivity.
Qed.

Lemma log_block_no_save (c : TrainingConfig) (master : bool) (gas : Z)
  (st : LoopState) :
  existsb is_save (trace (log_block c master gas st)) = false.
Proof.
  destruct (log_block_trace c master gas st) as [-> | [l ->]]; reflexivity.
Qed.

(** C2.  An iteration writes a checkpoint file if and only if the process
    is the master, the iteration number is a multiple of the evaluation
    cadence and strictly positive, and the new validation loss is strictly
    below [best_val_loss] or [always_save_checkpoint] is set. *)
Theorem checkpoint_written_iff (c : TrainingConfig) (master : bool) (gas : Z)
  (st : LoopState) (lr : R) :
  LR.lr_for_iteration c (iter_num st) = Ok lr ->
  existsb is_save
    (trace (iteration forward_loss estimate_loss c master gas st)) = true
  <->
  master = true
  /\ (eval_interval c | iter_num st)
  /\ iter_num st > 0
  /\ ((val_loss (iter_num st) < best_val_loss st)%R
      \/ always_save_checkpoint c = true).
Proof.
  intros Hlr. rewrite <- eval_block_saves_iff.
  rewrite (iteration_run c master gas st lr Hlr). cbv zeta.
  destruct (outcome (eval_block estimate_loss c master st)) as [st1 | e];
    [| reflexivity].
  destruct ((iter_num st1 =? 0) && eval_only c); [reflexivity |].
  cbn [trace fst existsb is_save orb].
  rewrite !existsb_app, accumulate_and_step_no_save, log_block_no_save.
  rewrite !orb_false_r. reflexivity.
Qed.

(** C3, as the code has it.  A fresh run starts [best_val_loss] at the
    sentinel [1e9].  An evaluation leaves it at the new validation loss
    when [always_save_checkpoint] is set, and at the minimum of its old
    value and the new validation loss when the flag is not set. *)
Theorem best_val_loss_after_evaluation (volume : string -> option Checkpoint)
  (c : TrainingConfig) (master : bool) (st : LoopState) :
  eval_interval c <> 0 ->
  evaluates c master (iter_num st) = true ->
  (init_from c = "scratch"%string ->
   exists st0, outcome (init_state volume c) = Ok st0
               /\ best_val_loss st0 = 1e9%R)
  /\
  exists st',
    outcome (eval_block estimate_loss c master st) = Ok st'
    /\ best_val_loss st'
       = if always_save_checkpoint c then val_loss (iter_num st)
         else Rmin (best_val_loss st) (val_loss (iter_num st)).
Proof.
  intros Hne Hev. split.
  - intros Hs. unfold init_state. rewrite Hs. simpl. eexists. split; reflexivity.
  - rewrite eval_block_run by assumption. rewrite Hev.
    destruct (Rltb (val_loss (iter_num st)) (best_val_loss st)) eqn:Hlt.
    + apply Rltb_true in Hlt. simpl. eexists. split; [reflexivity |]. simpl.
      destruct (always_save_checkpoint c); [reflexivity |].
      unfold Rmin. destruct (Rle_dec _ _); lra.
    + apply Rltb_false in Hlt. simpl.
      destruct (always_save_checkpoint c); simpl.
      * eexists. split; reflexivity.
      * eexists. split; [reflexivity |].
        unfold Rmin. destruct (Rle_dec _ _); lra.
Qed.

Lemma range_last {A} (f : Z -> A) (gas : Z) (d : A) :
  gas > 0 -> last (map f (range gas)) d = f (gas - 1).
Proof.
  intros Hpos. unfold range.
  destruct (Z.to_nat gas) as [| n] eqn:Hn; [lia |].
  rewrite seq_S, !map_app. cbn [map]. rewrite last_last. f_equal. lia.
Qed.

Lemma backward_losses_map (i : Z) (f : Z -> R) (l : list Z) :
  backward_losses (map (fun k => EvBackward i k (f k)) l) = map f l.
Proof.
  induction l as [| k l IH]; [reflexivity |]. simpl. rewrite IH. reflexivity.
Qed.

(** C7.  With a positive accumulation-step count, every micro-step hands
    its loss divided by that count to [backward]; the window leaves the
    last divided loss in [loss]; and the loss logged for the iteration is
    that value multiplied by the same count, which is the loss the model
    returned at the last micro-step, not a sum or mean over the window. *)
Theorem logged_loss_is_last_micro_step (c : TrainingConfig) (master : bool)
  (gas : Z) (st : LoopState) :
  gas > 0 ->
  log_interval c <> 0 ->
  iter_num st mod log_interval c = 0 ->
  master = true ->
  backward_losses (trace (accumulate_and_step forward_loss c gas st))
  = map (fun k => forward_loss (iter_num st) k / IZR gas)%R (range gas)
  /\ outcome (accumulate_and_step forward_loss c gas st)
     = Ok (after_window forward_loss gas st)
  /\ loss (after_window forward_loss gas st)
     = Some (forward_loss (iter_num st) (gas - 1) / IZR gas)%R
  /\ trace (log_block c master gas (after_window forward_loss gas st))
     = [EvLog (iter_num st)
          (forward_loss (iter_num st) (gas - 1) / IZR gas * IZR gas)%R]
  /\ (forward_loss (iter_num st) (gas - 1) / IZR gas * IZR gas
      = forward_loss (iter_num st) (gas - 1))%R.
Proof.
  intros Hpos Hlog Hmod Hm.
  assert (Hloss : loss (after_window forward_loss gas st)
                  = Some (forward_loss (iter_num st) (gas - 1) / IZR gas)%R).
  { unfold after_window. cbn [loss]. apply range_last. exact Hpos. }
  rewrite accumulate_and_step_run. cbn [trace outcome fst snd].
  split; [| split; [reflexivity | split; [exact Hloss | split]]].
  - rewrite backward_losses_app, backward_losses_map.
    destruct (Rneqb (grad_clip c) 0); simpl; apply app_nil_r.
  - rewrite (log_block_run _ _ _ _ _ Hlog Hloss).
    unfold after_window. cbn [iter_num trace fst].
    rewrite Hmod, Hm. reflexivity.
  - assert (0 < IZR gas)%R by (apply IZR_lt; lia).
    unfold Rdiv. rewrite Rmult_assoc, Rinv_l by lra. ring.
Qed.

End Blocks.

(** *** Runs of the loop *)

Ltac case_ifs :=
  repeat match goal with
         | |- context [if ?b then _ else _] => destruct b
         end.

Section Run.

Variable forward_loss : Z -> Z -> R.
Variable estimate_loss : Z -> R * R.

Lemma train_loop_unfold (fuel : nat) (c : TrainingConfig) (master : bool)
  (gas : Z) (st : LoopState) :
  train_loop forward_loss estimate_loss (S fuel) c master gas st
  = bind (iteration forward_loss estimate_loss c master gas st)
      (fun next =>
         match next with
         | None => ret Finished
         | Some st' =>
             if iter_num st' >? max_iters c then ret Finished
             else train_loop forward_loss estimate_loss fuel c master gas st'
         end).
Proof. reflexivity. Qed.

(** An iteration whose rate cannot be computed does nothing else. *)
Lemma iteration_lr_raises (c : TrainingConfig) (master : bool) (gas : Z)
  (st : LoopState) (e : exn) :
  LR.lr_for_iteration c (iter_num st) = Raise e ->
  iteration forward_loss estimate_loss c master gas st = ([], Raise e).
Proof. intros H. unfold iteration. rewrite H. reflexivity. Qed.

Lemma eval_block_filter (p : event -> bool) (c : TrainingConfig)
  (master : bool) (st : LoopState) :
  (forall i, p (EvEstimateLoss i) = false) ->
  (forall q ck, p (EvSave q ck) = false) ->
  p EvCommit = false ->
  filter p (trace (eval_block estimate_loss c master st)) = [].
Proof.
  intros H1 H2 H3.
  destruct (Z.eq_dec (eval_interval c) 0) as [H0 | Hne].
  - rewrite eval_block_zero_cadence by assumption. reflexivity.
  - rewrite eval_block_run by assumption.
    case_ifs; cbn; rewrite ?H1, ?H2, ?H3; reflexivity.
Qed.

Lemma eval_block_optimizer_steps (c : TrainingConfig) (master : bool)
  (st : LoopState) :
  optimizer_steps (trace (eval_block estimate_loss c master st)) = [].
Proof.
  destruct (Z.eq_dec (eval_interval c) 0) as [H0 | Hne].
  - rewrite eval_block_zero_cadence by assumption. reflexivity.
  - rewrite eval_block_run by assumption. case_ifs; reflexivity.
Qed.

Lemma optimizer_steps_backward_map (i : Z) (f : Z -> R) (l : list Z) :
  optimizer_steps (map (fun k => EvBackward i k (f k)) l) = [].
Proof. induction l as [| k l IH]; [reflexivity | exact IH]. Qed.

Lemma filter_backward_map (p : event -> bool) (i : Z) (f : Z -> R)
  (l : list Z) :
  (forall k x, p (EvBackward i k x) = false) ->
  filter p (map (fun k => EvBackward i k (f k)) l) = [].
Proof.
  intros Hp. induction l as [| k l IH]; [reflexivity |].
  cbn. rewrite Hp. exact IH.
Qed.

Lemma accumulate_and_step_optimizer_steps (c : TrainingConfig) (gas : Z)
  (st : LoopState) :
  optimizer_steps (trace (accumulate_and_step forward_loss c gas st))
  = [iter_num st].
Proof.
  rewrite accumulate_and_step_run. cbn [trace fst].
  rewrite !optimizer_steps_app, optimizer_steps_backward_map.
  case_ifs; reflexivity.
Qed.

(** The clip events of an accumulation window. *)
Lemma accumulate_and_step_clip (c : TrainingConfig) (gas : Z) (st : LoopState) :
  filter is_clip (trace (accumulate_and_step forward_loss c gas st))
  = if Rneqb (grad_clip c) 0 then [EvUnscale; EvClipGradNorm (grad_clip c)]
    else [].
Proof.
  rewrite accumulate_and_step_run. cbn [trace fst].
  rewrite !filter_app, filter_backward_map by reflexivity.
  case_ifs; reflexivity.
Qed.

Lemma log_block_filter (p : event -> bool) (c : TrainingConfig)
  (master : bool) (gas : Z) (st : LoopState) :
  (forall i l, p (EvLog i l) = false) ->
  filter p (trace (log_block c master gas st)) = [].
Proof.
  intros Hp.
  destruct (log_block_trace c master gas st) as [-> | [l ->]];
    [reflexivity | cbn; rewrite Hp; reflexivity].
Qed.

Lemma log_block_optimizer_steps (c : TrainingConfig) (master : bool)
  (gas : Z) (st : LoopState) :
  optimizer_steps (trace (log_block c master gas st)) = [].
Proof.
  destruct (log_block_trace c master gas st) as [-> | [l ->]]; reflexivity.
Qed.

(** An iteration that gets past the evaluate-only test performs exactly
    one optimizer step, carrying its own index. *)
Lemma iteration_optimizer_steps (c : TrainingConfig) (master : bool)
  (gas : Z) (st : LoopState) (lr : R) :
  LR.lr_for_iteration c (iter_num st) = Ok lr ->
  eval_interval c <> 0 ->
  (iter_num st =? 0) && eval_only c = false ->
  optimizer_steps (trace (iteration forward_loss estimate_loss c master gas st))
  = [iter_num st].
Proof.
  intros Hlr Hne Hgo. rewrite (iteration_run _ _ c master gas st lr Hlr).
  cbv zeta.
  destruct (outcome (eval_block estimate_loss c master st)) as [st1 | e] eqn:Hev.
  - destruct (eval_block_iter_num _ _ _ _ _ Hev) as [Hi _]. rewrite Hi, Hgo.
    cbn [trace fst optimizer_steps].
    rewrite !optimizer_steps_app, eval_block_optimizer_steps,
      accumulate_and_step_optimizer_steps, log_block_optimizer_steps, Hi.
    reflexivity.
  - rewrite eval_block_run in Hev by assumption.
    revert Hev. case_ifs; discriminate.
Qed.

(** The clip events of one pass through the loop body. *)
Lemma iteration_clip (c : TrainingConfig) (master : bool) (gas : Z)
  (st : LoopState) :
  grad_clip c = 0%R ->
  filter is_clip (trace (iteration forward_loss estimate_loss c master gas st))
  = [].
Proof.
  intros H0.
  destruct (LR.lr_for_iteration c (iter_num st)) as [lr | e] eqn:Hlr.
  - rewrite (iteration_run _ _ c master gas st lr Hlr). cbv zeta.
    assert (Hev : filter is_clip (trace (eval_block estimate_loss c master st))
                  = []) by (apply eval_block_filter; reflexivity).
    destruct (outcome (eval_block estimate_loss c master st)) as [st1 | e'];
      [| cbn; exact Hev].
    destruct ((iter_num st1 =? 0) && eval_only c); [cbn; exact Hev |].
    cbn [trace fst filter is_clip].
    rewrite !filter_app, Hev, accumulate_and_step_clip, log_block_filter
      by reflexivity.
    rewrite H0. replace (Rneqb 0 0) with false; [reflexivity |].
    symmetry. destruct (Rneqb 0 0) eqn:E; [| reflexivity].
    apply Rneqb_true in E. contradiction.
  - rewrite (iteration_lr_raises c master gas st e Hlr). reflexivity.
Qed.

Lemma train_loop_clip (fuel : nat) (c : TrainingConfig) (master : bool)
  (gas : Z) (st : LoopState) :
  grad_clip c = 0%R ->
  filter is_clip
    (trace (train_loop forward_loss estimate_loss fuel c master gas st)) = [].
Proof.
  intros H0. revert st. induction fuel as [| fuel IH]; intros st;
    [reflexivity |].
  rewrite train_loop_unfold, trace_bind, filter_app, iteration_clip
    by assumption.
  destruct (outcome (iteration forward_loss estimate_loss c master gas st))
    as [[st' |] | e]; try reflexivity.
  destruct (iter_num st' >? max_iters c); [reflexivity | apply IH].
Qed.

(** C8, as the code has it.  An accumulation window unscales and clips
    the gradients if and only if the configured threshold is different
    from zero (a negative threshold clips too); with a threshold of
    exactly 0 no iteration of a run performs the clip step. *)
Theorem clip_iff_threshold_nonzero (c : TrainingConfig) (gas : Z)
  (st : LoopState) :
  (existsb is_clip (trace (accumulate_and_step forward_loss c gas st)) = true
   <-> grad_clip c <> 0%R)
  /\
  (grad_clip c <> 0%R ->
   filter is_clip (trace (accumulate_and_step forward_loss c gas st))
   = [EvUnscale; EvClipGradNorm (grad_clip c)])
  /\
  (grad_clip c = 0%R ->
   forall fuel master st0,
     filter is_clip
       (trace (train_loop forward_loss estimate_loss fuel c master gas st0))
     = []).
Proof.
  split; [| split].
  - rewrite <- Rneqb_true, <- existsb_filter_self, accumulate_and_step_clip.
    destruct (Rneqb (grad_clip c) 0); cbn; split; congruence.
  - intros Hne. rewrite accumulate_and_step_clip.
    apply Rneqb_true in Hne. rewrite Hne. reflexivity.
  - intros H0 fuel master st0. apply train_loop_clip. exact H0.
Qed.

(** The run of evaluate-only mode from iteration 0. *)
Lemma evaluate_only_run (fuel : nat) (c : TrainingConfig) (master : bool)
  (gas : Z) (st : LoopState) (lr : R) :
  eval_only c = true ->
  iter_num st = 0 ->
  eval_interval c <> 0 ->
  LR.lr_for_iteration c 0 = Ok lr ->
  trace (train_loop forward_loss estimate_loss (S fuel) c master gas st)
  = EvSetLR 0 lr :: (if master then [EvEstimateLoss 0] else [])
  /\ outcome (train_loop forward_loss estimate_loss (S fuel) c master gas st)
     = Ok Finished.
Proof.
  intros Heo Hi Hne Hlr. rewrite train_loop_unfold.
  rewrite <- Hi in Hlr.
  rewrite (iteration_run _ _ c master gas st lr Hlr). cbv zeta.
  rewrite eval_block_run by assumption.
  unfold evaluates. rewrite Hi, Z.mod_0_l by assumption.
  rewrite Heo. cbn [Z.eqb andb Z.gtb Z.compare].
  destruct master; cbn [andb].
  - destruct (Rltb _ _ || always_save_checkpoint c);
      cbn [outcome snd iter_num]; rewrite ?Hi; split; reflexivity.
  - cbn [outcome snd]. rewrite Hi. split; reflexivity.
Qed.

End Run.

(** *** Concrete evaluations *)

Lemma lr_at_2000_best_only :
  LR.lr_for_iteration Configs.best_only 2000
  = Ok (min_lr Configs.best_only
        + 0.5 * (1 + cos (PI * LR.decay_ratio Configs.best_only 2000))
          * (learning_rate Configs.best_only - min_lr Configs.best_only))%R.
Proof.
  unfold LR.lr_for_iteration. cbn [decay_lr Configs.best_only].
  apply LRFacts.get_lr_cosine; cbn; lia.
Defined.

Lemma lr_at_0_best_only :
  LR.lr_for_iteration Configs.best_only 0
  = Ok (learning_rate Configs.best_only * IZR (0 + 1)
        / IZR (warmup_iters Configs.best_only + 1))%R.
Proof.
  unfold LR.lr_for_iteration. cbn [decay_lr Configs.best_only].
  apply LRFacts.get_lr_warmup; cbn; lia.
Defined.

(** The two scenarios of the specification: at iteration 2000 a validation
    loss of 2.4 against a best of 2.5 writes the file; at iteration 0 a
    validation loss of 2.5 against the sentinel writes nothing. *)
Lemma checkpoint_written_iff_witness :
  existsb is_save
    (trace (iteration ramp_forward (constant_estimate 2.4) Configs.best_only
              true 40 (at_iteration 2000 2.5))) = true
  /\
  existsb is_save
    (trace (iteration ramp_forward (constant_estimate 2.5) Configs.best_only
              true 40 (at_iteration 0 1e9))) = false.
Proof.
  split.
  - apply (proj2 (checkpoint_written_iff ramp_forward (constant_estimate 2.4)
                    Configs.best_only true 40 (at_iteration 2000 2.5) _
                    lr_at_2000_best_only)).
    split; [reflexivity |]. split; [exists 1; reflexivity |].
    split; [cbn; lia |]. left. cbn. lra.
  - destruct (existsb is_save _) eqn:E; [| reflexivity].
    apply (proj1 (checkpoint_written_iff ramp_forward (constant_estimate 2.5)
                    Configs.best_only true 40 (at_iteration 0 1e9) _
                    lr_at_0_best_only)) in E.
    destruct E as (_ & _ & Hpos & _). cbn in Hpos. lia.
Defined.

Lemma best_val_loss_after_evaluation_witness :
  (eval_interval Configs.best_only <> 0
   /\ evaluates Configs.best_only true (iter_num (at_iteration 2000 2.5)) = true)
  /\
  exists st',
    outcome (eval_block (constant_estimate 2.4) Configs.best_only true
               (at_iteration 2000 2.5)) = Ok st'
    /\ best_val_loss st' = Rmin 2.5 2.4.
Proof.
  assert (H1 : eval_interval Configs.best_only <> 0) by (cbn; lia).
  assert (H2 : evaluates Configs.best_only true
                 (iter_num (at_iteration 2000 2.5)) = true) by reflexivity.
  split; [split; assumption |].
  exact (proj2 (best_val_loss_after_evaluation (constant_estimate 2.4)
                  empty_volume Configs.best_only true
                  (at_iteration 2000 2.5) H1 H2)).
Defined.

(** With the default [always_save_checkpoint = True], an evaluation that
    observes 2.0 against a best of 1.0 raises [best_val_loss] to 2.0. *)
Lemma best_val_loss_can_increase :
  exists st',
    outcome (eval_block (constant_estimate 2) default_config true
               (at_iteration 2000 1)) = Ok st'
    /\ best_val_loss st' = 2%R
    /\ best_val_loss st'
       <> Rmin (best_val_loss (at_iteration 2000 1))
               (snd (constant_estimate 2 2000))
    /\ (best_val_loss (at_iteration 2000 1) < best_val_loss st')%R.
Proof.
  rewrite eval_block_run by (cbn; lia).
  replace (evaluates default_config true (iter_num (at_iteration 2000 1)))
    with true by reflexivity.
  cbn [always_save_checkpoint default_config]. rewrite orb_true_r.
  eexists. split; [reflexivity |]. cbn.
  split; [reflexivity |]. split; [| lra].
  unfold Rmin. destruct (Rle_dec 1 2); lra.
Qed.

(** A threshold of [-1.0] is not greater than zero, and the window unscales
    and clips all the same. *)
Lemma negative_threshold_still_clips :
  existsb is_clip
    (trace (accumulate_and_step ramp_forward Configs.negative_clip 40
              (at_iteration 0 1e9))) = true
  /\ ~ (grad_clip Configs.negative_clip > 0)%R.
Proof.
  split.
  - rewrite <- existsb_filter_self, accumulate_and_step_clip.
    replace (Rneqb (grad_clip Configs.negative_clip) 0) with true;
      [reflexivity |].
    symmetry. apply Rneqb_true. cbn. lra.
  - cbn. lra.
Qed.

Lemma clip_iff_threshold_nonzero_witness :
  grad_clip default_config <> 0%R
  /\ filter is_clip
       (trace (accumulate_and_step ramp_forward default_config 40
                 (at_iteration 0 1e9)))
     = [EvUnscale; EvClipGradNorm (grad_clip default_config)].
Proof.
  assert (H : grad_clip default_config <> 0%R) by (cbn; lra).
  split; [exact H |].
  exact (proj1 (proj2 (clip_iff_threshold_nonzero ramp_forward
                         (constant_estimate 2.5) default_config 40
                         (at_iteration 0 1e9))) H).
Defined.

Lemma logged_loss_is_last_micro_step_witness :
  (40 > 0 /\ log_interval default_config <> 0
   /\ iter_num (at_iteration 0 1e9) mod log_interval default_config = 0)
  /\
  trace (log_block default_config true 40
           (after_window ramp_forward 40 (at_iteration 0 1e9)))
  = [EvLog 0 (ramp_forward 0 (40 - 1) / IZR 40 * IZR 40)%R]
  /\ (ramp_forward 0 (40 - 1) / IZR 40 * IZR 40 = ramp_forward 0 (40 - 1))%R.
Proof.
  assert (H1 : 40 > 0) by lia.
  assert (H2 : log_interval default_config <> 0) by (cbn; lia).
  assert (H3 : iter_num (at_iteration 0 1e9) mod log_interval default_config = 0)
    by reflexivity.
  split; [repeat split; assumption |].
  exact (proj2 (proj2 (proj2
           (logged_loss_is_last_micro_step ramp_forward default_config true 40
              (at_iteration 0 1e9) H1 H2 H3 eq_refl)))).
Defined.

End TrainFacts.

(** ** Paths *)

Module PathFacts.

Import Path.

Local Open Scope string_scope.

Lemma append_nil_r (s : string) : s ++ "" = s.
Proof. induction s as [| a s IH]; [reflexivity | simpl; rewrite IH; reflexivity]. Qed.

Lemma append_assoc (s1 s2 s3 : string) : (s1 ++ s2) ++ s3 = s1 ++ (s2 ++ s3).
Proof.
  induction s1 as [| a s1 IH]; [reflexivity | simpl; rewrite IH; reflexivity].
Qed.

Lemma drop_past_prefix (s1 : string) (a : ascii) (s2 : string) :
  drop (S (String.length s1)) (s1 ++ String a s2) = s2.
Proof. induction s1 as [| b s1 IH]; [reflexivity | exact IH]. Qed.

Lemma endswith_sep_snoc (s : string) : endswith_sep (s ++ String sep "") = true.
Proof.
  induction s as [| a s IH]; [reflexivity |].
  simpl. destruct (s ++ String sep "") eqn:E; [| exact IH].
  destruct s; discriminate.
Qed.

(** [rfind] either sees no separator and keeps [last], or returns the
    position of a separator that only separator-free text follows. *)
Lemma rfind_from_spec (s : string) (pos last : Z) :
  (no_sep s = true /\ rfind_from s pos last = last)
  \/ (exists s1 s2,
        s = s1 ++ String sep s2
        /\ no_sep s2 = true
        /\ rfind_from s pos last = (pos + Z.of_nat (String.length s1))%Z).
Proof.
  revert pos last. induction s as [| a s IH]; intros pos last.
  - left. split; reflexivity.
  - cbn [rfind_from no_sep].
    destruct (Ascii.eqb a sep) eqn:Ea; cbn [negb andb].
    + apply Ascii.eqb_eq in Ea. subst a.
      destruct (IH (pos + 1)%Z pos) as [[Hns Hr] | (s1 & s2 & Hs & Hns & Hr)].
      * right. exists "", s. cbn. rewrite Hr. repeat split; [exact Hns | lia].
      * right. exists (String sep s1), s2.
        split; [rewrite Hs at 1; reflexivity | split; [exact Hns |]].
        rewrite Hr. cbn [String.length]. lia.
    + destruct (IH (pos + 1)%Z last) as [[Hns Hr] | (s1 & s2 & Hs & Hns & Hr)].
      * left. rewrite Hns, Hr. split; reflexivity.
      * right. exists (String a s1), s2.
        split; [rewrite Hs at 1; reflexivity | split; [exact Hns |]].
        rewrite Hr. cbn [String.length]. lia.
Qed.

(** [basename] returns what follows the last separator. *)
Lemma basename_spec (p : string) :
  exists pre,
    p = pre ++ basename p
    /\ no_sep (basename p) = true
    /\ (pre = "" \/ endswith_sep pre = true).
Proof.
  unfold basename, rfind_sep.
  destruct (rfind_from_spec p 0 (-1)) as [[Hns Hr] | (s1 & s2 & Hs & Hns & Hr)].
  - exists "". rewrite Hr. cbn. repeat split; [exact Hns | left; reflexivity].
  - exists (s1 ++ String sep ""). rewrite Hr.
    replace (Z.to_nat (0 + Z.of_nat (String.length s1) + 1))
      with (S (String.length s1)) by lia.
    rewrite Hs at 2 3. rewrite drop_past_prefix.
    repeat split.
    + rewrite append_assoc. exact Hs.
    + exact Hns.
    + right. apply endswith_sep_snoc.
Qed.

(** [rstrip] removes a run of separators and nothing else. *)
Lemma rstrip_sep_spec (s : string) :
  exists k,
    s = rstrip_sep s ++ seps k
    /\ (rstrip_sep s = "" \/ endswith_sep (rstrip_sep s) = false).
Proof.
  induction s as [| a s (k & Hs & Hend)].
  - exists 0%nat. split; [reflexivity | left; reflexivity].
  - cbn [rstrip_sep]. destruct (rstrip_sep s) as [| b r] eqn:Hr.
    + destruct (Ascii.eqb_spec a sep) as [-> | Hne].
      * exists (S k). cbn in *. rewrite <- Hs. split; [reflexivity | left; reflexivity].
      * exists k. cbn in *. rewrite <- Hs. split; [reflexivity | right].
        destruct (Ascii.eqb_spec a sep); [contradiction | reflexivity].
    + exists k. split.
      * cbn [append]. f_equal. exact Hs.
      * right. destruct Hend as [Hend | Hend]; [discriminate | exact Hend].
Qed.

Lemma startswith_sep_no_sep (s : string) :
  no_sep s = true -> startswith s "/" = false.
Proof.
  destruct s as [| a s]; [reflexivity |].
  unfold startswith. cbn [String.prefix no_sep].
  destruct (ascii_dec "/" a) as [<- | _]; [| reflexivity].
  unfold sep. rewrite Ascii.eqb_refl. discriminate.
Qed.

Lemma join_checkpoint_dir (comp : string) :
  no_sep comp = true ->
  join CHECKPOINT_DIR comp = "/checkpoints/" ++ comp.
Proof.
  intros Hns. unfold join. rewrite (startswith_sep_no_sep comp Hns).
  reflexivity.
Qed.

(** The adjusted directory, in terms of the configured one. *)
Lemma adjusted_out_dir_spec (c : TrainingConfig) :
  startswith (out_dir c) CHECKPOINT_DIR = false ->
  exists pre comp k,
    out_dir c = pre ++ comp ++ seps k
    /\ no_sep comp = true
    /\ (pre = "" \/ endswith_sep pre = true)
    /\ (comp = "" -> pre = "")
    /\ out_dir (adjust_out_dir c) = "/checkpoints/" ++ comp.
Proof.
  intros Hsw.
  destruct (rstrip_sep_spec (out_dir c)) as (k & Hs & Hend).
  destruct (basename_spec (rstrip_sep (out_dir c))) as (pre & Hp & Hns & Hpre).
  exists pre, (basename (rstrip_sep (out_dir c))), k.
  split; [| split; [exact Hns | split; [exact Hpre | split]]].
  - rewrite <- append_assoc, <- Hp. exact Hs.
  - intros He. rewrite He, append_nil_r in Hp.
    destruct Hpre as [Hpre | Hpre]; [exact Hpre |].
    destruct Hend as [Hend | Hend]; [congruence |].
    rewrite Hp in Hend. congruence.
  - unfold adjust_out_dir. rewrite Hsw. cbn [negb set_out_dir out_dir].
    apply join_checkpoint_dir. exact Hns.
Qed.

Lemma adjust_out_dir_fields (c : TrainingConfig) :
  adjust_out_dir c = set_out_dir c (out_dir (adjust_out_dir c)).
Proof.
  unfold adjust_out_dir.
  destruct (negb (startswith (out_dir c) CHECKPOINT_DIR));
    [reflexivity | destruct c; reflexivity].
Qed.

End PathFacts.

(** ** The whole of [train] *)

Module ProgramFacts.

Import Train TrainFacts.

Local Open Scope Z_scope.

Section Program.

Variable forward_loss : Z -> Z -> R.
Variable estimate_loss : Z -> R * R.
Variable volume : string -> option Checkpoint.

Lemma lr_adjust_out_dir (c : TrainingConfig) (i : Z) :
  LR.lr_for_iteration (Path.adjust_out_dir c) i = LR.lr_for_iteration c i.
Proof. rewrite PathFacts.adjust_out_dir_fields. reflexivity. Qed.

(** What the set-up leaves when resuming from a stored checkpoint. *)
Lemma setup_resume (c0 : TrainingConfig) (env : DDP.Environ)
  (topo : DDP.Topology) (ck : Checkpoint) :
  init_from c0 = "resume"%string ->
  DDP.setup (Path.adjust_out_dir c0) env = Ok topo ->
  volume (ckpt_file (out_dir (Path.adjust_out_dir c0))) = Some ck ->
  setup volume c0 env
  = ((if DDP.master_process topo
      then [EvMakedirs (out_dir (Path.adjust_out_dir c0))] else [])
     ++ [EvLoad (ckpt_file (out_dir (Path.adjust_out_dir c0)))],
     Ok (Path.adjust_out_dir c0, topo,
         {| iter_num := ck_iter_num ck; local_iter_num := 0;
            best_val_loss := ck_best_val_loss ck; loss := None |})).
Proof.
  intros Hres Htopo Hck. unfold setup. rewrite Htopo.
  unfold init_state.
  replace (init_from (Path.adjust_out_dir c0)) with (init_from c0)
    by (rewrite PathFacts.adjust_out_dir_fields; reflexivity).
  rewrite Hres, Hck. cbn [String.eqb Ascii.eqb Bool.eqb].
  cbv [bind lift].
  destruct (DDP.master_process topo); reflexivity.
Qed.

Lemma train_trace (fuel : nat) (c0 : TrainingConfig) (env : DDP.Environ)
  (c : TrainingConfig) (topo : DDP.Topology) (st : LoopState) :
  outcome (setup volume c0 env) = Ok (c, topo, st) ->
  trace (train forward_loss estimate_loss volume fuel c0 env)
  = trace (setup volume c0 env)
    ++ trace (train_loop forward_loss estimate_loss fuel c
                (DDP.master_process topo) (DDP.accumulation_steps topo) st).
Proof.
  intros Hs. unfold train. rewrite trace_bind, Hs. reflexivity.
Qed.

(** The first training iteration after a resume carries the index the
    checkpoint recorded. *)
Lemma resume_first_training_iteration (fuel : nat) (c0 : TrainingConfig)
  (env : DDP.Environ) (topo : DDP.Topology) (ck : Checkpoint) (lr : R) :
  init_from c0 = "resume"%string ->
  DDP.setup (Path.adjust_out_dir c0) env = Ok topo ->
  volume (ckpt_file (out_dir (Path.adjust_out_dir c0))) = Some ck ->
  ck_iter_num ck > 0 ->
  eval_interval c0 <> 0 ->
  LR.lr_for_iteration c0 (ck_iter_num ck) = Ok lr ->
  first_training_iteration
    (trace (train forward_loss estimate_loss volume (S fuel) c0 env))
  = Some (ck_iter_num ck).
Proof.
  intros Hres Htopo Hck Hpos Hne Hlr.
  pose proof (setup_resume c0 env topo ck Hres Htopo Hck) as Hs.
  rewrite (train_trace (S fuel) c0 env _ topo _ (f_equal snd Hs)).
  rewrite Hs. cbn [trace fst].
  unfold first_training_iteration.
  rewrite train_loop_unfold, trace_bind, !optimizer_steps_app.
  rewrite (iteration_optimizer_steps _ _ _ _ _ _ lr).
  - destruct (DDP.master_process topo); reflexivity.
  - cbn [iter_num]. rewrite lr_adjust_out_dir. exact Hlr.
  - rewrite PathFacts.adjust_out_dir_fields. exact Hne.
  - cbn [iter_num]. destruct (Z.eqb_spec (ck_iter_num ck) 0); [lia | reflexivity].
Qed.

(** C1, as the code has it.  Resuming from a checkpoint that recorded
    [iter_num = n > 0] restores [iter_num = n] and [best_val_loss] from the
    checkpoint, and the first training iteration after the resume has
    index [n] (for [n = 5000] it is 5000, never 0). *)
Theorem resume_restores_progress (fuel : nat) (c0 : TrainingConfig)
  (env : DDP.Environ) (topo : DDP.Topology) (ck : Checkpoint) (lr : R) :
  init_from c0 = "resume"%string ->
  DDP.setup (Path.adjust_out_dir c0) env = Ok topo ->
  volume (ckpt_file (out_dir (Path.adjust_out_dir c0))) = Some ck ->
  ck_iter_num ck > 0 ->
  eval_interval c0 <> 0 ->
  LR.lr_for_iteration c0 (ck_iter_num ck) = Ok lr ->
  (exists c st,
     outcome (setup volume c0 env) = Ok (c, topo, st)
     /\ iter_num st = ck_iter_num ck
     /\ best_val_loss st = ck_best_val_loss ck)
  /\
  first_training_iteration
    (trace (train forward_loss estimate_loss volume (S fuel) c0 env))
  = Some (ck_iter_num ck).
Proof.
  intros Hres Htopo Hck Hpos Hne Hlr. split.
  - rewrite (setup_resume c0 env topo ck Hres Htopo Hck).
    do 2 eexists. split; [reflexivity | split; reflexivity].
  - apply (resume_first_training_iteration fuel c0 env topo ck lr); assumption.
Qed.

(** C9, as the code has it.  With the evaluate-only flag set, [iter_num]
    0 at loop entry and a non-zero evaluation cadence, the loop ends after
    its first pass: the master process performs exactly one evaluation,
    every other process none; no micro-step, no optimizer step and no
    checkpoint write happens. *)
Theorem evaluate_only_single_pass (fuel : nat) (c : TrainingConfig)
  (master : bool) (gas : Z) (st : LoopState) (lr : R) :
  eval_only c = true ->
  iter_num st = 0 ->
  eval_interval c <> 0 ->
  LR.lr_for_iteration c 0 = Ok lr ->
  let run := train_loop forward_loss estimate_loss (S fuel) c master gas st in
  outcome run = Ok Finished
  /\ count is_estimate (trace run) = (if master then 1 else 0)%nat
  /\ count is_backward (trace run) = 0%nat
  /\ optimizer_steps (trace run) = []
  /\ count is_save (trace run) = 0%nat.
Proof.
  intros Heo Hi Hne Hlr run.
  destruct (evaluate_only_run forward_loss estimate_loss fuel c master gas st lr
              Heo Hi Hne Hlr) as [Ht Ho].
  subst run. rewrite Ht, Ho. destruct master; repeat split; reflexivity.
Qed.

(** *** Which checkpoint files a run touches *)










(** What the set-up leaves for a run from scratch. *)
Lemma setup_scratch (c0 : TrainingConfig) (env : DDP.Environ)
  (topo : DDP.Topology) :
  init_from c0 = "scratch"%string ->
  DDP.setup (Path.adjust_out_dir c0) env = Ok topo ->
  setup volume c0 env
  = ((if DDP.master_process topo
      then [EvMakedirs (out_dir (Path.adjust_out_dir c0))] else []),
     Ok (Path.adjust_out_dir c0, topo,
         {| iter_num := 0; local_iter_num := 0;
            best_val_loss := 1e9%R; loss := None |})).
Proof.
  intros Hs Htopo. unfold setup. rewrite Htopo.
  unfold init_state.
  replace (init_from (Path.adjust_out_dir c0)) with (init_from c0)
    by (rewrite PathFacts.adjust_out_dir_fields; reflexivity).
  rewrite Hs. cbn [String.eqb Ascii.eqb Bool.eqb].
  cbv [bind lift].
  destruct (DDP.master_process topo); reflexivity.
Qed.

Lemma train_outcome (fuel : nat) (c0 : TrainingConfig) (env : DDP.Environ)
  (c : TrainingConfig) (topo : DDP.Topology) (st : LoopState) :
  outcome (setup volume c0 env) = Ok (c, topo, st) ->
  outcome (train forward_loss estimate_loss volume fuel c0 env)
  = outcome (train_loop forward_loss estimate_loss fuel c
               (DDP.master_process topo) (DDP.accumulation_steps topo) st).
Proof.
  intros Hs. unfold train. rewrite outcome_bind, Hs. reflexivity.
Qed.

End Program.

(** *** Concrete runs *)

Lemma lr_at_5000_resume :
  LR.lr_for_iteration Configs.resume 5000
  = Ok (min_lr Configs.resume
        + 0.5 * (1 + cos (PI * LR.decay_ratio Configs.resume 5000))
          * (learning_rate Configs.resume - min_lr Configs.resume))%R.
Proof.
  unfold LR.lr_for_iteration. cbn [decay_lr Configs.resume].
  apply LRFacts.get_lr_cosine; cbn; lia.
Defined.

Lemma lr_at_0_evaluate_only :
  LR.lr_for_iteration Configs.evaluate_only 0
  = Ok (learning_rate Configs.evaluate_only * IZR (0 + 1)
        / IZR (warmup_iters Configs.evaluate_only + 1))%R.
Proof.
  unfold LR.lr_for_iteration. cbn [decay_lr Configs.evaluate_only].
  apply LRFacts.get_lr_warmup; cbn; lia.
Defined.

(** The resume scenario of the specification: the checkpoint records
    [iter_num = 5000]; the first training iteration after the resume has
    index 5000, not 5001. *)
Lemma resume_5000_trains_iteration_5000 :
  first_training_iteration
    (trace (train ramp_forward (constant_estimate 2.5)
              (volume_with "/checkpoints/out/ckpt.pt" ckpt_5000)
              1 Configs.resume DDP.single_process))
  = Some 5000
  /\
  first_training_iteration
    (trace (train ramp_forward (constant_estimate 2.5)
              (volume_with "/checkpoints/out/ckpt.pt" ckpt_5000)
              1 Configs.resume DDP.single_process))
  <> Some (ck_iter_num ckpt_5000 + 1).
Proof.
  assert (H : first_training_iteration
                (trace (train ramp_forward (constant_estimate 2.5)
                          (volume_with "/checkpoints/out/ckpt.pt" ckpt_5000)
                          1 Configs.resume DDP.single_process))
              = Some (ck_iter_num ckpt_5000)).
  { eapply (resume_first_training_iteration ramp_forward (constant_estimate 2.5)
              (volume_with "/checkpoints/out/ckpt.pt" ckpt_5000)
              0 Configs.resume DDP.single_process).
    - reflexivity.
    - reflexivity.
    - reflexivity.
    - cbn. lia.
    - cbn. lia.
    - exact lr_at_5000_resume. }
  rewrite H. split; [reflexivity |]. cbn. intros [= E].
Qed.

Lemma resume_restores_progress_witness :
  (init_from Configs.resume = "resume"%string
   /\ ck_iter_num ckpt_5000 > 0
   /\ eval_interval Configs.resume <> 0)
  /\
  exists topo,
    DDP.setup (Path.adjust_out_dir Configs.resume) DDP.single_process = Ok topo
    /\ (exists c st,
          outcome (setup (volume_with "/checkpoints/out/ckpt.pt" ckpt_5000)
                     Configs.resume DDP.single_process) = Ok (c, topo, st)
          /\ iter_num st = ck_iter_num ckpt_5000
          /\ best_val_loss st = ck_best_val_loss ckpt_5000)
    /\ first_training_iteration
         (trace (train ramp_forward (constant_estimate 2.5)
                   (volume_with "/checkpoints/out/ckpt.pt" ckpt_5000)
                   1 Configs.resume DDP.single_process))
       = Some (ck_iter_num ckpt_5000).
Proof.
  assert (H1 : init_from Configs.resume = "resume"%string) by reflexivity.
  assert (H2 : ck_iter_num ckpt_5000 > 0) by (cbn; lia).
  assert (H3 : eval_interval Configs.resume <> 0) by (cbn; lia).
  split; [repeat split; assumption |].
  eexists. split; [reflexivity |].
  exact (resume_restores_progress ramp_forward (constant_estimate 2.5)
           (volume_with "/checkpoints/out/ckpt.pt" ckpt_5000)
           0 Configs.resume DDP.single_process _ ckpt_5000 _
           H1 eq_refl eq_refl H2 H3 lr_at_5000_resume).
Defined.

(** Evaluate-only mode on a process that is not the master: the loop ends
    after its first pass without a single evaluation. *)
Lemma evaluate_only_worker_never_evaluates :
  outcome (train ramp_forward (constant_estimate 2.5) empty_volume
             1 Configs.evaluate_only DDP.eight_gpus_rank1) = Ok Finished
  /\
  count is_estimate
    (trace (train ramp_forward (constant_estimate 2.5) empty_volume
              1 Configs.evaluate_only DDP.eight_gpus_rank1)) = 0%nat
  /\
  count is_estimate
    (trace (train ramp_forward (constant_estimate 2.5) empty_volume
              1 Configs.evaluate_only DDP.eight_gpus_rank1)) <> 1%nat.
Proof.
  pose proof (setup_scratch empty_volume Configs.evaluate_only
                DDP.eight_gpus_rank1 _ eq_refl eq_refl) as Hs.
  pose proof (f_equal snd Hs) as Ho. cbn [snd] in Ho.
  rewrite (train_outcome _ _ _ _ _ _ _ _ _ Ho).
  rewrite (train_trace _ _ _ _ _ _ _ _ _ Ho).
  rewrite Hs. cbn [trace fst].
  destruct (evaluate_only_run ramp_forward (constant_estimate 2.5) 0
              (Path.adjust_out_dir Configs.evaluate_only) false 5
              {| iter_num := 0; local_iter_num := 0;
                 best_val_loss := 1e9%R; loss := None |}
              _ eq_refl eq_refl ltac:(cbn; lia) lr_at_0_evaluate_only)
    as [Ht Hend].
  split; [exact Hend |].
  assert (Hc : count is_estimate
                 ((if DDP.master_process
                         {| DDP.ddp := true; DDP.master_process := false;
                            DDP.seed_offset := 1; DDP.ddp_world_size := 8;
                            DDP.accumulation_steps := 5;
                            DDP.tokens_per_iter := 5 * 8 * 12 * 1024 |}
                   then [EvMakedirs
                           (out_dir (Path.adjust_out_dir Configs.evaluate_only))]
                   else [])
                  ++ trace (train_loop ramp_forward (constant_estimate 2.5) 1
                              (Path.adjust_out_dir Configs.evaluate_only)
                              false 5
                              {| iter_num := 0; local_iter_num := 0;
                                 best_val_loss := 1e9%R; loss := None |}))
               = 0%nat).
  { rewrite Ht. reflexivity. }
  split; [exact Hc |].
  intros E. pose proof (eq_trans (eq_sym Hc) E) as Habs. discriminate Habs.
Qed.

Lemma evaluate_only_single_pass_witness :
  (eval_only Configs.evaluate_only = true
   /\ iter_num (at_iteration 0 1e9) = 0
   /\ eval_interval Configs.evaluate_only <> 0)
  /\
  let run := train_loop ramp_forward (constant_estimate 2.5) 1
               Configs.evaluate_only true 40 (at_iteration 0 1e9) in
  outcome run = Ok Finished
  /\ count is_estimate (trace run) = 1%nat
  /\ count is_backward (trace run) = 0%nat
  /\ optimizer_steps (trace run) = []
  /\ count is_save (trace run) = 0%nat.
Proof.
  assert (H1 : eval_only Configs.evaluate_only = true) by reflexivity.
  assert (H2 : iter_num (at_iteration 0 1e9) = 0) by reflexivity.
  assert (H3 : eval_interval Configs.evaluate_only <> 0) by (cbn; lia).
  split; [repeat split; assumption |].
  exact (evaluate_only_single_pass ramp_forward (constant_estimate 2.5) 0
           Configs.evaluate_only true 40 (at_iteration 0 1e9) _
           H1 H2 H3 lr_at_0_evaluate_only).
Defined.

(** [out-shakespeare-char/] becomes [/checkpoints/out-shakespeare-char]. *)
Example adjust_relative_out_dir :
  out_dir (Path.adjust_out_dir Configs.relative_out_dir)
  = "/checkpoints/out-shakespeare-char"%string.
Proof. reflexivity. Qed.


End ProgramFacts.

(** * Further properties of the code *)

(** ** More on the learning-rate schedule *)

Module LRMore.

Import LR.

Local Open Scope R_scope.




(** X3.  With [min_lr <= learning_rate], the rate never goes up between
    [warmup_iters] and [lr_decay_iters], and never falls below [min_lr]
    there. *)
Theorem get_lr_cosine_decreasing (c : TrainingConfig) (i j : Z) :
  min_lr c <= learning_rate c ->
  (warmup_iters c <= i)%Z -> (i <= j)%Z -> (j <= lr_decay_iters c)%Z ->
  (warmup_iters c < lr_decay_iters c)%Z ->
  exists vi vj,
    get_lr c i = Ok vi /\ get_lr c j = Ok vj
    /\ vj <= vi /\ min_lr c <= vj.
Proof.
  intros Hb Hi Hij Hj Hw.
  do 2 eexists. split; [apply LRFacts.get_lr_cosine; lia |].
  split; [apply LRFacts.get_lr_cosine; lia |].
  destruct (LRFacts.decay_ratio_unit c i) as [Hi0 Hi1]; [lia | lia |].
  destruct (LRFacts.decay_ratio_unit c j) as [Hj0 Hj1]; [lia | lia |].
  assert (Hr : decay_ratio c i <= decay_ratio c j).
  { unfold decay_ratio, Rdiv. apply Rmult_le_compat_r.
    - left. apply Rinv_0_lt_compat. apply IZR_lt. lia.
    - apply IZR_le. lia. }
  pose proof PI_RGT_0 as Hpi.
  assert (Hc : cos (PI * decay_ratio c j) <= cos (PI * decay_ratio c i)).
  { apply cos_decr_1; nra. }
  pose proof (COS_bound (PI * decay_ratio c j)) as [Hl _].
  split; nra.
Qed.

Lemma get_lr_cosine_decreasing_witness :
  (min_lr default_config <= learning_rate default_config
   /\ (warmup_iters default_config <= 5000)%Z /\ (5000 <= 6000)%Z
   /\ (6000 <= lr_decay_iters default_config)%Z
   /\ (warmup_iters default_config < lr_decay_iters default_config)%Z)
  /\
  exists vi vj,
    get_lr default_config 5000 = Ok vi /\ get_lr default_config 6000 = Ok vj
    /\ vj <= vi /\ min_lr default_config <= vj.
Proof.
  assert (H1 : min_lr default_config <= learning_rate default_config)
    by (cbn; lra).
  assert (H2 : (warmup_iters default_config <= 5000)%Z) by (cbn; lia).
  assert (H3 : (5000 <= 6000)%Z) by lia.
  assert (H4 : (6000 <= lr_decay_iters default_config)%Z) by (cbn; lia).
  assert (H5 : (warmup_iters default_config < lr_decay_iters default_config)%Z)
    by (cbn; lia).
  split; [repeat split; assumption |].
  exact (get_lr_cosine_decreasing default_config 5000 6000 H1 H2 H3 H4 H5).
Defined.

End LRMore.

(** ** More on the distributed set-up *)

Module DDPMore.

Import DDP.

Local Open Scope Z_scope.

(** The run is distributed when [RANK] is set to something other than -1. *)
Lemma setup_not_distributed (c : TrainingConfig) (env : Environ) :
  RANK env = None \/ RANK env = Some (-1) ->
  setup c env
  = Ok {| ddp := false; master_process := true; seed_offset := 0;
          ddp_world_size := 1;
          accumulation_steps := gradient_accumulation_steps c;
          tokens_per_iter := gradient_accumulation_steps c * 1
                             * batch_size c * block_size c |}.
Proof. intros [H | H]; unfold setup; rewrite H; reflexivity. Qed.


(** X5.  Whenever the set-up succeeds, the process is the master exactly
    when it is not part of a distributed run or its rank is 0, and the
    tokens per iteration are the configured
    [gradient_accumulation_steps * batch_size * block_size]. *)
Theorem setup_master_iff (c : TrainingConfig) (env : Environ)
  (topo : Topology) :
  setup c env = Ok topo ->
  (master_process topo = true
   <-> RANK env = None \/ RANK env = Some (-1) \/ RANK env = Some 0)
  /\ tokens_per_iter topo
     = gradient_accumulation_steps c * batch_size c * block_size c.
Proof.
  intros Hs.
  destruct (RANK env) as [rank |] eqn:Hr.
  2: { rewrite setup_not_distributed in Hs by (left; exact Hr).
       injection Hs as <-. cbn. split; [tauto | lia]. }
  destruct (Z.eq_dec rank (-1)) as [-> | Hne].
  { rewrite setup_not_distributed in Hs by (right; exact Hr).
    injection Hs as <-. cbn. split; [tauto | lia]. }
  unfold setup in Hs. rewrite (DDPFacts.is_ddp_run env rank Hr Hne), Hr in Hs.
  destruct (LOCAL_RANK env); [| discriminate].
  destruct (WORLD_SIZE env) as [W |]; [| discriminate].
  destruct (Z.eqb_spec W 0) as [| HW]; [discriminate |].
  destruct (Z.eqb_spec (gradient_accumulation_steps c mod W) 0) as [Hm | Hm];
    [| discriminate].
  cbn [negb] in Hs. injection Hs as <-. cbn. split.
  - destruct (Z.eqb_spec rank 0) as [-> | H0].
    + split; auto.
    + split; [discriminate |].
      intros [H | [[= H] | [= H]]]; [discriminate | contradiction | contradiction].
  - pose proof (Z.div_mod (gradient_accumulation_steps c) W HW).
    replace (gradient_accumulation_steps c / W * W)
      with (gradient_accumulation_steps c) by lia.
    reflexivity.
Qed.

Lemma setup_master_iff_witness :
  exists topo,
    setup default_config eight_gpus_rank1 = Ok topo
    /\ (master_process topo = true
        <-> RANK eight_gpus_rank1 = None \/ RANK eight_gpus_rank1 = Some (-1)
            \/ RANK eight_gpus_rank1 = Some 0)
    /\ tokens_per_iter topo
       = gradient_accumulation_steps default_config * batch_size default_config
         * block_size default_config.
Proof.
  eexists. split; [reflexivity |].
  exact (setup_master_iff default_config eight_gpus_rank1 _ eq_refl).
Defined.

End DDPMore.

(** ** More on the output directory *)

Module PathMore.

Import Path PathFacts.

Local Open Scope string_scope.

Lemma startswith_checkpoints_append (s : string) :
  startswith ("/checkpoints/" ++ s) CHECKPOINT_DIR = true.
Proof.
  unfold startswith, CHECKPOINT_DIR. cbn [append String.prefix].
  repeat match goal with
         | |- context [ascii_dec ?a ?a] =>
             destruct (ascii_dec a a); [| congruence]
         end.
  destruct s; reflexivity.
Qed.

(** X6.  After the adjustment [out_dir] always starts with [/checkpoints],
    whatever was configured, and adjusting a second time changes
    nothing. *)
Theorem adjust_out_dir_prefix_idempotent (c : TrainingConfig) :
  startswith (out_dir (adjust_out_dir c)) CHECKPOINT_DIR = true
  /\ adjust_out_dir (adjust_out_dir c) = adjust_out_dir c.
Proof.
  assert (H : startswith (out_dir (adjust_out_dir c)) CHECKPOINT_DIR = true).
  { destruct (startswith (out_dir c) CHECKPOINT_DIR) eqn:Hsw.
    - unfold adjust_out_dir. rewrite Hsw. exact Hsw.
    - destruct (adjusted_out_dir_spec c Hsw) as (pre & comp & k & _ & _ & _ & _ & ->).
      apply startswith_checkpoints_append. }
  split; [exact H |].
  unfold adjust_out_dir at 1. rewrite H. reflexivity.
Qed.

Lemma no_sep_append (a b : string) :
  no_sep (a ++ b) = (no_sep a && no_sep b)%bool.
Proof.
  induction a as [| x a IH]; [reflexivity |].
  cbn. rewrite IH. destruct (Ascii.eqb x sep); reflexivity.
Qed.

Lemma endswith_sep_has_sep (s : string) :
  endswith_sep s = true -> no_sep s = false.
Proof.
  induction s as [| a s IH]; [discriminate |].
  cbn. destruct s as [| b s'].
  - intros ->. reflexivity.
  - intros H. rewrite (IH H). apply andb_false_r.
Qed.

Lemma endswith_sep_tail (a : ascii) (s : string) :
  s <> "" -> endswith_sep (String a s) = endswith_sep s.
Proof. destruct s; [congruence | reflexivity]. Qed.

(** A path splits in one way only into a directory part, empty or ending
    with a separator, and a separator-free last component. *)
Lemma split_unique (pre pre' comp comp' : string) :
  pre ++ comp = pre' ++ comp' ->
  no_sep comp = true -> no_sep comp' = true ->
  (pre = "" \/ endswith_sep pre = true) ->
  (pre' = "" \/ endswith_sep pre' = true) ->
  comp = comp'.
Proof.
  revert pre'. induction pre as [| a pre IH]; intros pre' He Hc Hc' Hp Hp'.
  - cbn in He. destruct Hp' as [-> | Hp']; [exact He |].
    rewrite He, no_sep_append, (endswith_sep_has_sep _ Hp') in Hc. discriminate.
  - destruct pre' as [| a' pre'].
    + assert (He' : String a pre ++ comp = comp') by exact He.
      destruct Hp as [Hp | Hp]; [discriminate |].
      rewrite <- He', no_sep_append, (endswith_sep_has_sep _ Hp) in Hc'.
      discriminate.
    + cbn in He. injection He as _ He.
      apply (IH pre' He Hc Hc').
      * destruct pre as [| b pre]; [left; reflexivity | right].
        destruct Hp as [Hp | Hp]; [discriminate | exact Hp].
      * destruct pre' as [| b pre']; [left; reflexivity | right].
        destruct Hp' as [Hp' | Hp']; [discriminate | exact Hp'].
Qed.

Lemma rstrip_sep_seps (k : nat) : rstrip_sep (seps k) = "".
Proof.
  induction k as [| k IH]; [reflexivity |].
  cbn [seps rstrip_sep]. rewrite IH. unfold sep. rewrite Ascii.eqb_refl.
  reflexivity.
Qed.

Lemma rstrip_sep_append_seps (s : string) (k : nat) :
  rstrip_sep (s ++ seps k) = rstrip_sep s.
Proof.
  induction s as [| a s IH]; [apply rstrip_sep_seps |].
  cbn [append rstrip_sep]. rewrite IH. reflexivity.
Qed.

Lemma rstrip_sep_fixed (s : string) :
  endswith_sep s = false -> rstrip_sep s = s.
Proof.
  induction s as [| a s IH]; [reflexivity |].
  destruct s as [| b s'].
  - cbn. intros ->. reflexivity.
  - intros H. change (endswith_sep (String b s') = false) in H.
    pose proof (IH H) as E. cbn [rstrip_sep] in *. rewrite E. reflexivity.
Qed.

Lemma endswith_sep_append (pre comp : string) :
  comp <> "" -> endswith_sep (pre ++ comp) = endswith_sep comp.
Proof.
  intros Hc. induction pre as [| a pre IH]; [reflexivity |].
  cbn [append]. rewrite endswith_sep_tail; [exact IH |].
  destruct pre; destruct comp; cbn; congruence.
Qed.

Lemma no_sep_not_endswith (s : string) :
  no_sep s = true -> endswith_sep s = false.
Proof.
  intros H. destruct (endswith_sep s) eqn:E; [| reflexivity].
  rewrite (endswith_sep_has_sep _ E) in H. discriminate.
Qed.

(** X7.  The adjustment keeps only the last path component: a configured
    directory [pre ++ comp ++ "/.../"] outside [/checkpoints], with [comp]
    non-empty and free of separators and [pre] empty or ending with one,
    becomes [/checkpoints/comp], and its checkpoint file is
    [/checkpoints/comp/ckpt.pt]; the parent directories and the trailing
    separators play no part. *)
Theorem adjust_out_dir_last_component (c : TrainingConfig)
  (pre comp : string) (k : nat) :
  out_dir c = pre ++ comp ++ seps k ->
  comp <> "" -> no_sep comp = true ->
  (pre = "" \/ endswith_sep pre = true) ->
  startswith (out_dir c) CHECKPOINT_DIR = false ->
  out_dir (adjust_out_dir c) = "/checkpoints/" ++ comp
  /\ Train.ckpt_file (out_dir (adjust_out_dir c))
     = "/checkpoints/" ++ comp ++ "/ckpt.pt".
Proof.
  intros Ho Hne Hns Hpre Hsw.
  assert (Hr : rstrip_sep (out_dir c) = pre ++ comp).
  { rewrite Ho, <- append_assoc, rstrip_sep_append_seps.
    apply rstrip_sep_fixed. rewrite endswith_sep_append by exact Hne.
    apply no_sep_not_endswith. exact Hns. }
  assert (Hb : basename (pre ++ comp) = comp).
  { destruct (basename_spec (pre ++ comp)) as (pre' & He & Hns' & Hpre').
    symmetry. exact (split_unique pre pre' comp _ He Hns Hns' Hpre Hpre'). }
  assert (Hd : out_dir (adjust_out_dir c) = "/checkpoints/" ++ comp).
  { unfold adjust_out_dir. rewrite Hsw. cbn [negb set_out_dir out_dir].
    rewrite Hr, Hb. apply join_checkpoint_dir. exact Hns. }
  split; [exact Hd |].
  rewrite Hd. unfold Train.ckpt_file, join.
  replace (startswith "ckpt.pt" "/") with false by reflexivity.
  replace (String.eqb ("/checkpoints/" ++ comp) "") with false by reflexivity.
  change ("/checkpoints/" ++ comp) with ("/checkpoints" ++ ("/" ++ comp)) at 1.
  rewrite endswith_sep_append by discriminate.
  change ("/" ++ comp) with (String sep comp).
  rewrite endswith_sep_tail by exact Hne.
  rewrite (no_sep_not_endswith comp Hns). cbn [orb].
  rewrite append_assoc. reflexivity.
Qed.

Lemma adjust_out_dir_last_component_witness :
  (out_dir Configs.relative_out_dir = "" ++ "out-shakespeare-char" ++ seps 1
   /\ "out-shakespeare-char" <> ""
   /\ no_sep "out-shakespeare-char" = true
   /\ startswith (out_dir Configs.relative_out_dir) CHECKPOINT_DIR = false)
  /\ out_dir (adjust_out_dir Configs.relative_out_dir)
     = "/checkpoints/" ++ "out-shakespeare-char"
  /\ Train.ckpt_file (out_dir (adjust_out_dir Configs.relative_out_dir))
     = "/checkpoints/" ++ "out-shakespeare-char" ++ "/ckpt.pt".
Proof.
  assert (H1 : out_dir Configs.relative_out_dir
               = "" ++ "out-shakespeare-char" ++ seps 1) by reflexivity.
  assert (H2 : "out-shakespeare-char" <> "") by discriminate.
  assert (H3 : no_sep "out-shakespeare-char" = true) by reflexivity.
  assert (H4 : startswith (out_dir Configs.relative_out_dir) CHECKPOINT_DIR
               = false) by reflexivity.
  split; [repeat split; assumption |].
  exact (adjust_out_dir_last_component Configs.relative_out_dir ""
           "out-shakespeare-char" 1 H1 H2 H3 (or_introl eq_refl) H4).
Defined.

End PathMore.

(** ** More on the training loop *)

Module LoopMore.

Import Train TrainFacts Observe.

Local Open Scope Z_scope.

Lemma count_append (p : event -> bool) (t1 t2 : list event) :
  count p (t1 ++ t2) = (count p t1 + count p t2)%nat.
Proof. unfold count. rewrite filter_app, length_app. reflexivity. Qed.

Lemma saved_checkpoints_app (t1 t2 : list event) :
  saved_checkpoints (t1 ++ t2) = saved_checkpoints t1 ++ saved_checkpoints t2.
Proof.
  induction t1 as [| ev t1 IH]; [reflexivity |].
  destruct ev; simpl; rewrite IH; reflexivity.
Qed.

Lemma steps_from_cons (s : Z) (n : nat) :
  steps_from s (S n) = s :: steps_from (s + 1) n.
Proof.
  unfold steps_from. cbn [seq map]. f_equal; [lia |].
  rewrite <- seq_shift, map_map. apply map_ext. intros k. lia.
Qed.

Section Runs.

Variable forward_loss : Z -> Z -> R.
Variable estimate_loss : Z -> R * R.

Lemma eval_block_ok (c : TrainingConfig) (master : bool) (st : LoopState) :
  eval_interval c <> 0 ->
  exists st1,
    outcome (eval_block estimate_loss c master st) = Ok st1
    /\ iter_num st1 = iter_num st /\ loss st1 = loss st.
Proof.
  intros Hne.
  assert (H : exists st1, outcome (eval_block estimate_loss c master st) = Ok st1).
  { rewrite eval_block_run by assumption. case_ifs; eexists; reflexivity. }
  destruct H as [st1 H]. exists st1. split; [exact H |].
  exact (eval_block_iter_num _ _ _ _ _ H).
Qed.

(** Whatever an iteration returns, it has advanced [iter_num] by one. *)
Lemma iteration_next (c : TrainingConfig) (master : bool) (gas : Z)
  (st st' : LoopState) :
  outcome (iteration forward_loss estimate_loss c master gas st)
  = Ok (Some st') ->
  iter_num st' = iter_num st + 1.
Proof.
  destruct (LR.lr_for_iteration c (iter_num st)) as [lr | e] eqn:Hlr.
  2: { rewrite (iteration_lr_raises _ _ c master gas st e Hlr). discriminate. }
  rewrite (iteration_run _ _ c master gas st lr Hlr). cbv zeta.
  destruct (outcome (eval_block estimate_loss c master st)) as [st1 | e] eqn:Hev;
    [| discriminate].
  destruct (eval_block_iter_num _ _ _ _ _ Hev) as [Hi _].
  destruct ((iter_num st1 =? 0) && eval_only c); [discriminate |].
  cbn [outcome snd].
  destruct (outcome (log_block c master gas (after_window forward_loss gas st1)));
    [| discriminate].
  intros [= <-]. cbn. lia.
Qed.

(** A pass whose cadences are non-zero and whose window is not empty runs
    to its end. *)
Lemma iteration_completes (c : TrainingConfig) (master : bool) (gas : Z)
  (st : LoopState) (lr : R) :
  LR.lr_for_iteration c (iter_num st) = Ok lr ->
  eval_only c = false ->
  eval_interval c <> 0 ->
  log_interval c <> 0 ->
  gas > 0 ->
  exists st',
    outcome (iteration forward_loss estimate_loss c master gas st)
    = Ok (Some st').
Proof.
  intros Hlr Heo Hev Hlog Hgas.
  rewrite (iteration_run _ _ c master gas st lr Hlr). cbv zeta.
  destruct (eval_block_ok c master st Hev) as (st1 & -> & _ & _).
  rewrite Heo, andb_false_r. cbn [outcome snd].
  assert (Hl : loss (after_window forward_loss gas st1)
               = Some (forward_loss (iter_num st1) (gas - 1) / IZR gas)%R).
  { unfold after_window. cbn [loss]. apply range_last. exact Hgas. }
  rewrite (log_block_run _ _ _ _ _ Hlog Hl). cbn [snd].
  eexists. reflexivity.
Qed.

(** X8.  A run whose cadences are non-zero, whose accumulation count is
    positive and whose learning rate is defined from the entry iteration
    [s] on breaks out of the loop on [iter_num > max_iters]: it performs
    the optimizer steps [s, s+1, ..., max_iters], that is
    [max_iters - s + 1] of them, and exactly one when [s >= max_iters]. *)
Theorem run_to_max_iters (fuel : nat) (c : TrainingConfig) (master : bool)
  (gas : Z) (st : LoopState) :
  eval_only c = false ->
  eval_interval c <> 0 ->
  log_interval c <> 0 ->
  gas > 0 ->
  (forall i, iter_num st <= i -> exists lr, LR.lr_for_iteration c i = Ok lr) ->
  (iterations_left c (iter_num st) <= fuel)%nat ->
  outcome (train_loop forward_loss estimate_loss fuel c master gas st)
  = Ok Finished
  /\ optimizer_steps
       (trace (train_loop forward_loss estimate_loss fuel c master gas st))
     = steps_from (iter_num st) (iterations_left c (iter_num st)).
Proof.
  intros Heo Hev Hlog Hgas. revert st.
  induction fuel as [| fuel IH]; intros st Hlr Hfuel.
  { unfold iterations_left in Hfuel. lia. }
  destruct (Hlr (iter_num st) (Z.le_refl _)) as [lr Hlr0].
  destruct (iteration_completes c master gas st lr Hlr0 Heo Hev Hlog Hgas)
    as [st' Hit].
  pose proof (iteration_next c master gas st st' Hit) as Hnext.
  pose proof (iteration_optimizer_steps forward_loss estimate_loss
                c master gas st lr Hlr0 Hev) as Hsteps.
  rewrite Heo, andb_false_r in Hsteps. specialize (Hsteps eq_refl).
  rewrite train_loop_unfold, outcome_bind, trace_bind, Hit,
    optimizer_steps_app, Hsteps.
  destruct (Z.gtb_spec (iter_num st') (max_iters c)) as [Hgt | Hle].
  - replace (iterations_left c (iter_num st)) with 1%nat
      by (unfold iterations_left; lia).
    split; [reflexivity |]. cbn. f_equal. lia.
  - destruct (IH st') as [Ho Ht].
    + intros i Hi. apply Hlr. lia.
    + unfold iterations_left in *. lia.
    + split; [exact Ho |]. rewrite Ht.
      replace (iterations_left c (iter_num st))
        with (S (iterations_left c (iter_num st')))
        by (unfold iterations_left; lia).
      rewrite steps_from_cons, Hnext. reflexivity.
Qed.

(** X9.  Every optimizer step of a run, however it ends, comes with
    exactly [gradient_accumulation_steps] backward passes (none when the
    count is zero or negative). *)
Theorem backward_passes_per_step (fuel : nat) (c : TrainingConfig)
  (master : bool) (gas : Z) (st : LoopState) :
  count is_backward
    (trace (train_loop forward_loss estimate_loss fuel c master gas st))
  = (Z.to_nat gas
     * List.length
         (optimizer_steps
            (trace (train_loop forward_loss estimate_loss fuel c master gas st))))%nat.
Proof.
  assert (Hacc : forall st1,
            count is_backward
              (trace (accumulate_and_step forward_loss c gas st1))
            = Z.to_nat gas).
  { intros st1. rewrite accumulate_and_step_run. cbn [trace fst].
    rewrite !count_append. unfold count.
    assert (Hm : forall i f l,
              filter is_backward (map (fun k => EvBackward i k (f k)) l)
              = map (fun k => EvBackward i k (f k)) l).
    { intros i f l. induction l as [| k l IHl]; [reflexivity |].
      cbn. rewrite IHl. reflexivity. }
    rewrite Hm, length_map. unfold range. rewrite length_map, length_seq.
    case_ifs; cbn; lia. }
  assert (Hit : forall st0,
            count is_backward
              (trace (iteration forward_loss estimate_loss c master gas st0))
            = (Z.to_nat gas
               * List.length
                   (optimizer_steps
                      (trace (iteration forward_loss estimate_loss
                                c master gas st0))))%nat).
  { intros st0.
    destruct (LR.lr_for_iteration c (iter_num st0)) as [lr | e] eqn:Hlr.
    2: { rewrite (iteration_lr_raises _ _ c master gas st0 e Hlr). cbn. lia. }
    rewrite (iteration_run _ _ c master gas st0 lr Hlr). cbv zeta.
    assert (He : count is_backward
                   (trace (eval_block estimate_loss c master st0)) = 0%nat).
    { unfold count. rewrite eval_block_filter; reflexivity. }
    destruct (outcome (eval_block estimate_loss c master st0)) as [st1 | e].
    2: { cbn [trace fst optimizer_steps].
         change (count is_backward (EvSetLR (iter_num st0) lr
                   :: trace (eval_block estimate_loss c master st0)))
           with (count is_backward
                   (trace (eval_block estimate_loss c master st0))).
         rewrite He, eval_block_optimizer_steps. cbn. lia. }
    destruct ((iter_num st1 =? 0) && eval_only c).
    { cbn [trace fst optimizer_steps].
      change (count is_backward (EvSetLR (iter_num st0) lr
                :: trace (eval_block estimate_loss c master st0)))
        with (count is_backward
                (trace (eval_block estimate_loss c master st0))).
      rewrite He, eval_block_optimizer_steps. cbn. lia. }
    cbn [trace fst optimizer_steps].
    match goal with
    | |- count is_backward (_ :: ?t) = _ =>
        change (count is_backward t
                = (Z.to_nat gas * List.length (optimizer_steps t))%nat)
    end.
    rewrite !count_append, !optimizer_steps_app, He, Hacc,
      eval_block_optimizer_steps, accumulate_and_step_optimizer_steps,
      log_block_optimizer_steps.
    unfold count at 1. rewrite log_block_filter by reflexivity. cbn. lia. }
  revert st. induction fuel as [| fuel IH]; intros st; [cbn; lia |].
  rewrite train_loop_unfold, trace_bind, count_append, optimizer_steps_app,
    length_app, Hit.
  destruct (outcome (iteration forward_loss estimate_loss c master gas st))
    as [[st' |] | e]; cbn [trace fst ret]; try (cbn; lia).
  destruct (iter_num st' >? max_iters c); [cbn; lia |].
  rewrite IH. lia.
Qed.

(** *** Processes other than the master *)

Lemma eval_block_worker (c : TrainingConfig) (st : LoopState) :
  trace (eval_block estimate_loss c false st) = [].
Proof.
  destruct (Z.eq_dec (eval_interval c) 0) as [H0 | Hne].
  - rewrite eval_block_zero_cadence by assumption. reflexivity.
  - rewrite eval_block_run by assumption. unfold evaluates.
    rewrite andb_false_r. reflexivity.
Qed.

Lemma log_block_worker (c : TrainingConfig) (gas : Z) (st : LoopState) :
  trace (log_block c false gas st) = [].
Proof.
  unfold log_block. destruct (log_interval c =? 0); [reflexivity |].
  rewrite andb_false_r. reflexivity.
Qed.

Lemma accumulate_and_step_master_only (c : TrainingConfig) (gas : Z)
  (st : LoopState) :
  filter is_master_only (trace (accumulate_and_step forward_loss c gas st)) = [].
Proof.
  rewrite accumulate_and_step_run. cbn [trace fst].
  rewrite !filter_app, filter_backward_map by reflexivity.
  case_ifs; reflexivity.
Qed.

Lemma iteration_worker (c : TrainingConfig) (gas : Z) (st : LoopState) :
  filter is_master_only
    (trace (iteration forward_loss estimate_loss c false gas st)) = [].
Proof.
  destruct (LR.lr_for_iteration c (iter_num st)) as [lr | e] eqn:Hlr.
  2: { rewrite (iteration_lr_raises _ _ c false gas st e Hlr). reflexivity. }
  rewrite (iteration_run _ _ c false gas st lr Hlr). cbv zeta.
  rewrite eval_block_worker.
  destruct (outcome (eval_block estimate_loss c false st)) as [st1 | e];
    [| reflexivity].
  destruct ((iter_num st1 =? 0) && eval_only c); [reflexivity |].
  cbn [trace fst app filter is_master_only].
  rewrite filter_app, accumulate_and_step_master_only, log_block_worker.
  reflexivity.
Qed.

Lemma train_loop_worker (fuel : nat) (c : TrainingConfig) (gas : Z)
  (st : LoopState) :
  filter is_master_only
    (trace (train_loop forward_loss estimate_loss fuel c false gas st)) = [].
Proof.
  revert st. induction fuel as [| fuel IH]; intros st; [reflexivity |].
  rewrite train_loop_unfold, trace_bind, filter_app, iteration_worker.
  destruct (outcome (iteration forward_loss estimate_loss c false gas st))
    as [[st' |] | e]; try reflexivity.
  destruct (iter_num st' >? max_iters c); [reflexivity | apply IH].
Qed.

Lemma setup_worker_not_master (c : TrainingConfig) (env : DDP.Environ)
  (topo : DDP.Topology) (rank : Z) :
  DDP.setup c env = Ok topo ->
  DDP.RANK env = Some rank -> rank <> 0 -> rank <> -1 ->
  DDP.master_process topo = false.
Proof.
  intros Hs Hr H0 H1. unfold DDP.setup in Hs.
  rewrite (DDPFacts.is_ddp_run env rank Hr H1), Hr in Hs.
  destruct (DDP.LOCAL_RANK env); [| discriminate].
  destruct (DDP.WORLD_SIZE env) as [W |]; [| discriminate].
  destruct (W =? 0); [discriminate |].
  destruct (negb (gradient_accumulation_steps c mod W =? 0)); [discriminate |].
  injection Hs as <-. cbn. apply Z.eqb_neq. exact H0.
Qed.

(** X10.  In a distributed run, a process whose rank is not 0 never
    creates the output directory, never evaluates, never writes or commits
    a checkpoint and never logs, however long it runs and however it
    ends. *)
Theorem worker_leaves_master_duties (volume : string -> option Checkpoint)
  (fuel : nat) (c0 : TrainingConfig) (env : DDP.Environ) (rank : Z) :
  DDP.RANK env = Some rank -> rank <> 0 -> rank <> -1 ->
  filter is_master_only
    (trace (train forward_loss estimate_loss volume fuel c0 env)) = [].
Proof.
  intros Hr H0 H1.
  assert (Hinit : filter is_master_only
                    (trace (init_state volume (Path.adjust_out_dir c0))) = []).
  { unfold init_state. case_ifs; try reflexivity.
    destruct (volume _); reflexivity. }
  assert (Hsetup :
            filter is_master_only (trace (setup volume c0 env)) = []
            /\ forall c topo st,
                 outcome (setup volume c0 env) = Ok (c, topo, st) ->
                 DDP.master_process topo = false).
  { unfold setup.
    destruct (DDP.setup (Path.adjust_out_dir c0) env) as [topo | e] eqn:Hs;
      [| split; [reflexivity | discriminate]].
    pose proof (setup_worker_not_master _ _ _ _ Hs Hr H0 H1) as Hm.
    cbv [lift]. cbn [bind]. rewrite Hm. cbn [ret bind app].
    destruct (init_state volume (Path.adjust_out_dir c0)) as [ti [st | e]];
      cbn in *; (split; [rewrite ?app_nil_r; exact Hinit |]).
    - intros c topo' st' [= <- <- <-]. exact Hm.
    - discriminate. }
  destruct Hsetup as [Ht Hm].
  unfold train. rewrite trace_bind, filter_app, Ht.
  destruct (outcome (setup volume c0 env)) as [[[c topo] st] | e] eqn:Ho;
    [| reflexivity].
  rewrite (Hm c topo st eq_refl). apply train_loop_worker.
Qed.

(** *** What the checkpoints of a run contain *)

Lemma saved_checkpoints_backward_map (i : Z) (f : Z -> R) (l : list Z) :
  saved_checkpoints (map (fun k => EvBackward i k (f k)) l) = [].
Proof. induction l as [| k l IH]; [reflexivity | exact IH]. Qed.

Lemma iteration_saved (c : TrainingConfig) (master : bool) (gas : Z)
  (st : LoopState) (p : string) (ck : Checkpoint) :
  In (p, ck)
    (saved_checkpoints
       (trace (iteration forward_loss estimate_loss c master gas st))) ->
  master = true
  /\ p = ckpt_file (out_dir c)
  /\ ck_iter_num ck = iter_num st
  /\ iter_num st > 0
  /\ (eval_interval c | iter_num st)
  /\ ck_best_val_loss ck = snd (estimate_loss (iter_num st)).
Proof.
  assert (Hev : In (p, ck)
                  (saved_checkpoints
                     (trace (eval_block estimate_loss c master st))) ->
                master = true
                /\ p = ckpt_file (out_dir c)
                /\ ck_iter_num ck = iter_num st
                /\ iter_num st > 0
                /\ (eval_interval c | iter_num st)
                /\ ck_best_val_loss ck = snd (estimate_loss (iter_num st))).
  { destruct (Z.eq_dec (eval_interval c) 0) as [H0 | Hne].
    - rewrite eval_block_zero_cadence by assumption. intros [].
    - rewrite eval_block_run by assumption. unfold evaluates.
      destruct (Z.eqb_spec (iter_num st mod eval_interval c) 0) as [Hm | Hm];
        [| intros []].
      destruct master; [| intros []]. cbn [andb].
      destruct (Rltb _ _ || always_save_checkpoint c); [| intros []].
      destruct (Z.gtb_spec (iter_num st) 0) as [Hpos | Hpos]; [| intros []].
      cbn. intros [[= <- <-] | []]. cbn.
      repeat split; try reflexivity; try lia.
      apply Z.mod_divide; assumption. }
  destruct (LR.lr_for_iteration c (iter_num st)) as [lr | e] eqn:Hlr.
  2: { rewrite (iteration_lr_raises _ _ c master gas st e Hlr). intros []. }
  rewrite (iteration_run _ _ c master gas st lr Hlr). cbv zeta.
  destruct (outcome (eval_block estimate_loss c master st)) as [st1 | e];
    [| exact Hev].
  destruct ((iter_num st1 =? 0) && eval_only c); [exact Hev |].
  cbn [trace fst saved_checkpoints].
  rewrite !saved_checkpoints_app.
  assert (Ha : saved_checkpoints
                 (trace (accumulate_and_step forward_loss c gas st1)) = []).
  { rewrite accumulate_and_step_run. cbn [trace fst].
    rewrite !saved_checkpoints_app, saved_checkpoints_backward_map.
    case_ifs; reflexivity. }
  assert (Hl : saved_checkpoints
                 (trace (log_block c master gas
                           (after_window forward_loss gas st1))) = []).
  { destruct (log_block_trace c master gas (after_window forward_loss gas st1))
      as [-> | [l ->]]; reflexivity. }
  rewrite Ha, Hl, !app_nil_r. exact Hev.
Qed.

(** X11.  Every checkpoint a run writes goes to [ckpt.pt] of the run's
    output directory, is written by the master, and records an iteration
    number that is positive, not below the iteration the loop was entered
    at and a multiple of [eval_interval], together with the validation
    loss estimated at that very iteration as [best_val_loss]. *)
Theorem saved_checkpoint_contents (fuel : nat) (c : TrainingConfig)
  (master : bool) (gas : Z) (st : LoopState) (p : string) (ck : Checkpoint) :
  In (p, ck)
    (saved_checkpoints
       (trace (train_loop forward_loss estimate_loss fuel c master gas st))) ->
  master = true
  /\ p = ckpt_file (out_dir c)
  /\ ck_iter_num ck > 0
  /\ iter_num st <= ck_iter_num ck
  /\ (eval_interval c | ck_iter_num ck)
  /\ ck_best_val_loss ck = snd (estimate_loss (ck_iter_num ck)).
Proof.
  revert st. induction fuel as [| fuel IH]; intros st; [intros [] |].
  rewrite train_loop_unfold, trace_bind, saved_checkpoints_app.
  intros Hin. apply in_app_or in Hin. destruct Hin as [Hin | Hin].
  - destruct (iteration_saved c master gas st p ck Hin)
      as (Hm & Hp & Hi & Hpos & Hdiv & Hb).
    rewrite Hi. repeat split; try assumption. lia.
  - destruct (outcome (iteration forward_loss estimate_loss c master gas st))
      as [[st' |] | e] eqn:Hit; try (destruct Hin; fail).
    pose proof (iteration_next c master gas st st' Hit) as Hnext.
    destruct (iter_num st' >? max_iters c); [destruct Hin |].
    destruct (IH st' Hin) as (Hm & Hp & Hpos & Hle & Hdiv & Hb).
    repeat split; try assumption. lia.
Qed.

(** X12.  Save, then resume: when the evaluation block writes a
    checkpoint, a later process that resumes from that file with the same
    output directory enters the loop with the [iter_num] and the
    [best_val_loss] the saving process had after the block; only
    [local_iter_num] and [loss] start afresh.  That iteration is again on
    the evaluation cadence. *)
Theorem save_then_resume (c c2 : TrainingConfig) (master : bool)
  (st : LoopState) (p : string) (ck : Checkpoint) :
  In (EvSave p ck) (trace (eval_block estimate_loss c master st)) ->
  init_from c2 = "resume"%string ->
  out_dir c2 = out_dir c ->
  exists st',
    outcome (eval_block estimate_loss c master st) = Ok st'
    /\ init_state (volume_with p ck) c2
       = ([EvLoad p],
          Ok {| iter_num := iter_num st'; local_iter_num := 0;
                best_val_loss := best_val_loss st'; loss := None |})
    /\ evaluates c true (iter_num st') = true.
Proof.
  intros Hin Hres Hout.
  destruct (Z.eq_dec (eval_interval c) 0) as [H0 | Hne].
  { rewrite eval_block_zero_cadence in Hin by assumption. destruct Hin. }
  rewrite eval_block_run in Hin |- * by assumption.
  destruct (evaluates c master (iter_num st)) eqn:Hev; [| destruct Hin].
  destruct (Rltb _ _ || always_save_checkpoint c).
  2: { destruct Hin as [Hin | []]. discriminate. }
  destruct (iter_num st >? 0).
  2: { destruct Hin as [Hin | []]. discriminate. }
  destruct Hin as [Hin | [[= <- <-] | [Hin | []]]]; try discriminate.
  eexists. split; [reflexivity |]. cbn [iter_num best_val_loss]. split.
  - unfold init_state. rewrite Hres, Hout.
    cbn [String.eqb Ascii.eqb Bool.eqb]. unfold volume_with.
    rewrite String.eqb_refl. reflexivity.
  - unfold evaluates in *. apply andb_true_iff in Hev. destruct Hev as [-> _].
    reflexivity.
Qed.

(** *** Degenerate cadences and windows *)

(** X13.  A cadence of zero makes the first pass raise
    [ZeroDivisionError]: with [eval_interval = 0] right after the learning
    rate is set, before any evaluation or training; with
    [log_interval = 0] only after the optimizer step of that pass. *)
Theorem zero_cadence_aborts (fuel : nat) (c : TrainingConfig) (master : bool)
  (gas : Z) (st : LoopState) (lr : R) :
  LR.lr_for_iteration c (iter_num st) = Ok lr ->
  (eval_interval c = 0 ->
   train_loop forward_loss estimate_loss (S fuel) c master gas st
   = ([EvSetLR (iter_num st) lr], Raise ZeroDivisionError))
  /\
  (log_interval c = 0 -> eval_interval c <> 0 ->
   (iter_num st =? 0) && eval_only c = false ->
   outcome (train_loop forward_loss estimate_loss (S fuel) c master gas st)
   = Raise ZeroDivisionError
   /\ optimizer_steps
        (trace (train_loop forward_loss estimate_loss (S fuel) c master gas st))
      = [iter_num st]).
Proof.
  intros Hlr. split.
  - intros H0. rewrite train_loop_unfold.
    rewrite (iteration_run _ _ c master gas st lr Hlr). cbv zeta.
    rewrite eval_block_zero_cadence by assumption. reflexivity.
  - intros Hlog Hev Hgo.
    pose proof (iteration_optimizer_steps forward_loss estimate_loss
                  c master gas st lr Hlr Hev Hgo) as Hsteps.
    assert (Ho : outcome (iteration forward_loss estimate_loss c master gas st)
                 = Raise ZeroDivisionError).
    { rewrite (iteration_run _ _ c master gas st lr Hlr). cbv zeta.
      destruct (eval_block_ok c master st Hev) as (st1 & -> & Hi & _).
      rewrite Hi, Hgo. cbn [outcome snd].
      unfold log_block. rewrite Hlog. reflexivity. }
    rewrite train_loop_unfold, outcome_bind, trace_bind, Ho,
      optimizer_steps_app, Hsteps.
    split; reflexivity.
Qed.

(** X14.  With an accumulation count of zero or less the pass still
    performs its optimizer step, on no backward pass at all; and a fresh
    master process that logs at this iteration then raises
    [UnboundLocalError], the variable [loss] never having been bound. *)
Theorem empty_window_step_without_gradient (fuel : nat) (c : TrainingConfig)
  (master : bool) (gas : Z) (st : LoopState) (lr : R) :
  gas <= 0 ->
  LR.lr_for_iteration c (iter_num st) = Ok lr ->
  eval_interval c <> 0 ->
  (iter_num st =? 0) && eval_only c = false ->
  backward_losses
    (trace (train_loop forward_loss estimate_loss (S fuel) c master gas st)) = []
  /\ hd_error
       (optimizer_steps
          (trace (train_loop forward_loss estimate_loss (S fuel) c master gas st)))
     = Some (iter_num st)
  /\ (loss st = None -> log_interval c <> 0 -> master = true ->
      iter_num st mod log_interval c = 0 ->
      outcome (train_loop forward_loss estimate_loss (S fuel) c master gas st)
      = Raise UnboundLocalError).
Proof.
  intros Hgas Hlr Hev Hgo.
  assert (Hrange : range gas = []).
  { unfold range. replace (Z.to_nat gas) with 0%nat by lia. reflexivity. }
  assert (Hnb : forall fuel' st0,
            backward_losses
              (trace (train_loop forward_loss estimate_loss fuel' c master gas st0))
            = []).
  { induction fuel' as [| fuel' IH]; intros st0; [reflexivity |].
    rewrite train_loop_unfold, trace_bind, backward_losses_app.
    assert (Hi0 : backward_losses
                    (trace (iteration forward_loss estimate_loss
                              c master gas st0)) = []).
    { destruct (LR.lr_for_iteration c (iter_num st0)) as [lr0 | e] eqn:Hlr0.
      2: { rewrite (iteration_lr_raises _ _ c master gas st0 e Hlr0).
           reflexivity. }
      rewrite (iteration_run _ _ c master gas st0 lr0 Hlr0). cbv zeta.
      assert (He : backward_losses
                     (trace (eval_block estimate_loss c master st0)) = []).
      { destruct (Z.eq_dec (eval_interval c) 0) as [H0 | Hne].
        - rewrite eval_block_zero_cadence by assumption. reflexivity.
        - rewrite eval_block_run by assumption. case_ifs; reflexivity. }
      destruct (outcome (eval_block estimate_loss c master st0)) as [st1 | e];
        [| exact He].
      destruct ((iter_num st1 =? 0) && eval_only c); [exact He |].
      cbn [trace fst backward_losses].
      rewrite !backward_losses_app, He, accumulate_and_step_run.
      cbn [trace fst]. rewrite Hrange.
      destruct (log_block_trace c master gas
                  (after_window forward_loss gas st1)) as [-> | [l ->]];
        case_ifs; reflexivity. }
    rewrite Hi0.
    destruct (outcome (iteration forward_loss estimate_loss c master gas st0))
      as [[st' |] | e]; try reflexivity.
    destruct (iter_num st' >? max_iters c); [reflexivity | apply IH]. }
  split; [apply Hnb |].
  pose proof (iteration_optimizer_steps forward_loss estimate_loss
                c master gas st lr Hlr Hev Hgo) as Hsteps.
  split.
  - rewrite train_loop_unfold, trace_bind, optimizer_steps_app, Hsteps.
    reflexivity.
  - intros Hloss Hlog Hm Hmod.
    rewrite train_loop_unfold, outcome_bind.
    rewrite (iteration_run _ _ c master gas st lr Hlr). cbv zeta.
    destruct (eval_block_ok c master st Hev) as (st1 & -> & Hi & Hl).
    rewrite Hi, Hgo. cbn [outcome snd].
    unfold log_block, after_window. cbn [loss iter_num].
    rewrite Hrange, Hi, Hmod, Hm, Hl, Hloss.
    destruct (Z.eqb_spec (log_interval c) 0); [contradiction | reflexivity].
Qed.

(** X15.  Resuming when the output directory holds no [ckpt.pt] ends the
    program on [FileNotFoundError] at the load: no learning rate is set,
    nothing is evaluated and nothing is trained. *)
Theorem resume_without_checkpoint (volume : string -> option Checkpoint)
  (fuel : nat) (c0 : TrainingConfig) (env : DDP.Environ)
  (topo : DDP.Topology) :
  init_from c0 = "resume"%string ->
  DDP.setup (Path.adjust_out_dir c0) env = Ok topo ->
  volume (ckpt_file (out_dir (Path.adjust_out_dir c0))) = None ->
  train forward_loss estimate_loss volume fuel c0 env
  = ((if DDP.master_process topo
      then [EvMakedirs (out_dir (Path.adjust_out_dir c0))] else [])
     ++ [EvLoad (ckpt_file (out_dir (Path.adjust_out_dir c0)))],
     Raise FileNotFoundError).
Proof.
  intros Hres Htopo Hvol. unfold train, setup. rewrite Htopo.
  unfold init_state.
  replace (init_from (Path.adjust_out_dir c0)) with (init_from c0)
    by (rewrite PathFacts.adjust_out_dir_fields; reflexivity).
  rewrite Hres, Hvol. cbn [String.eqb Ascii.eqb Bool.eqb].
  cbv [bind lift].
  destruct (DDP.master_process topo); reflexivity.
Qed.

(** When [always_save_checkpoint] is set, an evaluation at a positive
    iteration writes the file. *)
Lemma eval_block_always_saves (c : TrainingConfig) (master : bool)
  (st : LoopState) :
  eval_interval c <> 0 ->
  always_save_checkpoint c = true ->
  evaluates c master (iter_num st) = true ->
  iter_num st > 0 ->
  trace (eval_block estimate_loss c master st)
  = [EvEstimateLoss (iter_num st);
     EvSave (ckpt_file (out_dir c))
       {| ck_iter_num := iter_num st;
          ck_best_val_loss := snd (estimate_loss (iter_num st)) |};
     EvCommit].
Proof.
  intros Hne Ha He Hpos. rewrite eval_block_run by assumption.
  rewrite He, Ha, orb_true_r.
  destruct (Z.gtb_spec (iter_num st) 0); [reflexivity | lia].
Qed.

Lemma train_loop_saves_first (fuel : nat) (c : TrainingConfig) (master : bool)
  (gas : Z) (st : LoopState) (lr : R) (p : string) (ck : Checkpoint) :
  LR.lr_for_iteration c (iter_num st) = Ok lr ->
  In (p, ck)
    (saved_checkpoints (trace (eval_block estimate_loss c master st))) ->
  In (p, ck)
    (saved_checkpoints
       (trace (train_loop forward_loss estimate_loss (S fuel) c master gas st))).
Proof.
  intros Hlr Hin.
  rewrite train_loop_unfold, trace_bind, saved_checkpoints_app.
  apply in_or_app. left.
  rewrite (iteration_run _ _ c master gas st lr Hlr). cbv zeta.
  destruct (outcome (eval_block estimate_loss c master st)) as [st1 | e];
    [| exact Hin].
  destruct ((iter_num st1 =? 0) && eval_only c); [exact Hin |].
  cbn [trace fst saved_checkpoints]. rewrite saved_checkpoints_app.
  apply in_or_app. left. exact Hin.
Qed.

(** The schedule is defined at every iteration from 0 on when it is
    switched off or its window is [0 <= warmup_iters < lr_decay_iters]. *)
Lemma lr_defined (c : TrainingConfig) (i : Z) :
  decay_lr c = false \/ 0 <= warmup_iters c < lr_decay_iters c ->
  0 <= i ->
  exists lr, LR.lr_for_iteration c i = Ok lr.
Proof.
  intros [Hoff | Hwin] Hi; unfold LR.lr_for_iteration.
  - rewrite Hoff. eexists. reflexivity.
  - destruct (decay_lr c); [| eexists; reflexivity].
    destruct (Z_lt_le_dec i (warmup_iters c)).
    + eexists. apply LRFacts.get_lr_warmup. lia.
    + destruct (Z_lt_le_dec (lr_decay_iters c) i).
      * eexists. apply LRFacts.get_lr_floor; lia.
      * eexists. apply LRFacts.get_lr_cosine; lia.
Qed.

End Runs.

(** *** Concrete runs *)

Lemma lr_default_defined (i : Z) :
  0 <= i -> exists lr, LR.lr_for_iteration default_config i = Ok lr.
Proof. apply lr_defined. right. cbn. lia. Defined.

Lemma lr_default_at_0 :
  LR.lr_for_iteration default_config 0
  = Ok (learning_rate default_config * IZR (0 + 1)
        / IZR (warmup_iters default_config + 1))%R.
Proof.
  unfold LR.lr_for_iteration. cbn [decay_lr default_config].
  apply LRFacts.get_lr_warmup; cbn; lia.
Defined.

Lemma lr_default_at_2000 :
  LR.lr_for_iteration default_config 2000
  = Ok (min_lr default_config
        + 0.5 * (1 + cos (PI * LR.decay_ratio default_config 2000))
          * (learning_rate default_config - min_lr default_config))%R.
Proof.
  unfold LR.lr_for_iteration. cbn [decay_lr default_config].
  apply LRFacts.get_lr_cosine; cbn; lia.
Defined.

(** Entered at iteration 599998 with [max_iters = 600000], the loop trains
    iterations 599998, 599999 and 600000 and stops. *)
Lemma run_to_max_iters_witness :
  outcome (train_loop ramp_forward (constant_estimate 2.5) 3 default_config
             true 40 (at_iteration 599998 1e9)) = Ok Finished
  /\ optimizer_steps
       (trace (train_loop ramp_forward (constant_estimate 2.5) 3 default_config
                 true 40 (at_iteration 599998 1e9)))
     = [599998; 599999; 600000].
Proof.
  apply (run_to_max_iters ramp_forward (constant_estimate 2.5) 3 default_config
           true 40 (at_iteration 599998 1e9)).
  - reflexivity.
  - cbn. lia.
  - cbn. lia.
  - lia.
  - intros i Hi. apply lr_default_defined. cbn in Hi. lia.
  - cbn. lia.
Defined.

Lemma worker_leaves_master_duties_witness :
  (DDP.RANK DDP.eight_gpus_rank1 = Some 1 /\ 1 <> 0 /\ 1 <> -1)
  /\ filter is_master_only
       (trace (train ramp_forward (constant_estimate 2.5) empty_volume
                 2 default_config DDP.eight_gpus_rank1)) = [].
Proof.
  assert (H1 : DDP.RANK DDP.eight_gpus_rank1 = Some 1) by reflexivity.
  assert (H2 : 1 <> 0) by lia.
  assert (H3 : 1 <> -1) by lia.
  split; [repeat split; assumption |].
  exact (worker_leaves_master_duties ramp_forward (constant_estimate 2.5)
           empty_volume 2 default_config DDP.eight_gpus_rank1 1 H1 H2 H3).
Defined.

Lemma default_saves_at_2000 :
  trace (eval_block (constant_estimate 2.5) default_config true
           (at_iteration 2000 1e9))
  = [EvEstimateLoss 2000;
     EvSave "/checkpoints/out/ckpt.pt"
       {| ck_iter_num := 2000; ck_best_val_loss := 2.5 |};
     EvCommit].
Proof.
  apply (eval_block_always_saves (constant_estimate 2.5) default_config true
           (at_iteration 2000 1e9)).
  - cbn. lia.
  - reflexivity.
  - reflexivity.
  - cbn. lia.
Defined.

Lemma saved_checkpoint_contents_witness :
  In ("/checkpoints/out/ckpt.pt"%string,
      {| ck_iter_num := 2000; ck_best_val_loss := 2.5 |})
    (saved_checkpoints
       (trace (train_loop ramp_forward (constant_estimate 2.5) 1 default_config
                 true 40 (at_iteration 2000 1e9))))
  /\ (eval_interval default_config | 2000)
  /\ iter_num (at_iteration 2000 1e9) <= 2000.
Proof.
  assert (Hin : In ("/checkpoints/out/ckpt.pt"%string,
                    {| ck_iter_num := 2000; ck_best_val_loss := 2.5 |})
                  (saved_checkpoints
                     (trace (train_loop ramp_forward (constant_estimate 2.5) 1
                               default_config true 40 (at_iteration 2000 1e9))))).
  { apply (train_loop_saves_first ramp_forward (constant_estimate 2.5) 0
             default_config true 40 (at_iteration 2000 1e9) _ _ _
             lr_default_at_2000).
    rewrite default_saves_at_2000. left. reflexivity. }
  split; [exact Hin |].
  destruct (saved_checkpoint_contents ramp_forward (constant_estimate 2.5) 1
              default_config true 40 (at_iteration 2000 1e9) _ _ Hin)
    as (_ & _ & _ & Hle & Hdiv & _).
  split; [exact Hdiv | exact Hle].
Defined.

Lemma save_then_resume_witness :
  exists st',
    outcome (eval_block (constant_estimate 2.5) default_config true
               (at_iteration 2000 1e9)) = Ok st'
    /\ init_state
         (volume_with "/checkpoints/out/ckpt.pt"
            {| ck_iter_num := 2000; ck_best_val_loss := 2.5 |})
         Configs.resume
       = ([EvLoad "/checkpoints/out/ckpt.pt"],
          Ok {| iter_num := iter_num st'; local_iter_num := 0;
                best_val_loss := best_val_loss st'; loss := None |})
    /\ evaluates default_config true (iter_num st') = true.
Proof.
  apply (save_then_resume (constant_estimate 2.5) default_config Configs.resume
           true (at_iteration 2000 1e9)).
  - rewrite default_saves_at_2000. right. left. reflexivity.
  - reflexivity.
  - reflexivity.
Defined.

Lemma zero_cadence_aborts_witness :
  (exists lr,
     train_loop ramp_forward (constant_estimate 2.5) 1
       EdgeConfigs.no_eval_cadence true 40 (at_iteration 0 1e9)
     = ([EvSetLR 0 lr], Raise ZeroDivisionError))
  /\ outcome (train_loop ramp_forward (constant_estimate 2.5) 1
                EdgeConfigs.no_log_cadence true 40 (at_iteration 0 1e9))
     = Raise ZeroDivisionError
  /\ optimizer_steps
       (trace (train_loop ramp_forward (constant_estimate 2.5) 1
                 EdgeConfigs.no_log_cadence true 40 (at_iteration 0 1e9)))
     = [0].
Proof.
  assert (L1 : LR.lr_for_iteration EdgeConfigs.no_eval_cadence
                 (iter_num (at_iteration 0 1e9))
               = Ok (learning_rate EdgeConfigs.no_eval_cadence * IZR (0 + 1)
                     / IZR (warmup_iters EdgeConfigs.no_eval_cadence + 1))%R).
  { unfold LR.lr_for_iteration. cbn [decay_lr EdgeConfigs.no_eval_cadence].
    apply LRFacts.get_lr_warmup; cbn; lia. }
  assert (L2 : LR.lr_for_iteration EdgeConfigs.no_log_cadence
                 (iter_num (at_iteration 0 1e9))
               = Ok (learning_rate EdgeConfigs.no_log_cadence * IZR (0 + 1)
                     / IZR (warmup_iters EdgeConfigs.no_log_cadence + 1))%R).
  { unfold LR.lr_for_iteration. cbn [decay_lr EdgeConfigs.no_log_cadence].
    apply LRFacts.get_lr_warmup; cbn; lia. }
  split.
  - eexists.
    exact (proj1 (zero_cadence_aborts ramp_forward (constant_estimate 2.5) 0
                    EdgeConfigs.no_eval_cadence true 40 (at_iteration 0 1e9)
                    _ L1) eq_refl).
  - apply (proj2 (zero_cadence_aborts ramp_forward (constant_estimate 2.5) 0
                    EdgeConfigs.no_log_cadence true 40 (at_iteration 0 1e9)
                    _ L2)).
    + reflexivity.
    + cbn. lia.
    + reflexivity.
Defined.

Lemma empty_window_step_without_gradient_witness :
  backward_losses
    (trace (train_loop ramp_forward (constant_estimate 2.5) 1 default_config
              true 0 (at_iteration 0 1e9))) = []
  /\ hd_error
       (optimizer_steps
          (trace (train_loop ramp_forward (constant_estimate 2.5) 1
                    default_config true 0 (at_iteration 0 1e9))))
     = Some 0
  /\ outcome (train_loop ramp_forward (constant_estimate 2.5) 1 default_config
                true 0 (at_iteration 0 1e9))
     = Raise UnboundLocalError.
Proof.
  destruct (empty_window_step_without_gradient ramp_forward
              (constant_estimate 2.5) 0 default_config true 0
              (at_iteration 0 1e9) _ ltac:(lia) lr_default_at_0
              ltac:(cbn; lia) eq_refl) as (H1 & H2 & H3).
  split; [exact H1 | split; [exact H2 |]].
  apply H3; [reflexivity | cbn; lia | reflexivity | reflexivity].
Defined.

Lemma resume_without_checkpoint_witness :
  train ramp_forward (constant_estimate 2.5) empty_volume 1 Configs.resume
    DDP.single_process
  = ([EvMakedirs "/checkpoints/out"; EvLoad "/checkpoints/out/ckpt.pt"],
     Raise FileNotFoundError).
Proof.
  exact (resume_without_checkpoint ramp_forward (constant_estimate 2.5)
           empty_volume 1 Configs.resume DDP.single_process _
           eq_refl eq_refl eq_refl).
Defined.

End LoopMore.

(** ** The parameter dictionary of a checkpoint *)

Module StateDictFacts.

Import StateDict.

Local Open Scope string_scope.

Lemma prefix_split (p s : string) :
  String.prefix p s = true -> s = p ++ Path.drop (String.length p) s.
Proof.
  revert s. induction p as [| a p IH]; intros s H; [reflexivity |].
  destruct s as [| b s]; [discriminate |].
  cbn [String.prefix] in H. destruct (ascii_dec a b) as [<- | _];
    [| discriminate].
  cbn [append String.length Path.drop]. f_equal. apply IH. exact H.
Qed.

Lemma prefix_append (p x : string) : String.prefix p (p ++ x) = true.
Proof.
  induction p as [| a p IH]; [destruct x; reflexivity |].
  cbn [append String.prefix]. destruct (ascii_dec a a); [exact IH | congruence].
Qed.

Lemma drop_append (p x : string) : Path.drop (String.length p) (p ++ x) = x.
Proof. induction p as [| a p IH]; [reflexivity | exact IH]. Qed.

Lemma strip_prefixed (k : string) :
  Path.startswith k unwanted_prefix = true -> k = unwanted_prefix ++ strip k.
Proof. apply prefix_split. Qed.

Section Facts.

Variable V : Type.

Implicit Types (d : dict V) (k x y : string) (v : V).

Lemma get_none_notin d k : ~ In k (keys d) -> get d k = None.
Proof.
  induction d as [| [k' v] d IH]; [reflexivity |].
  cbn. intros H. destruct (String.eqb_spec k' k) as [-> | _]; [tauto |].
  apply IH. tauto.
Qed.

Lemma get_some_in d k : get d k <> None -> In k (keys d).
Proof.
  induction d as [| [k' v] d IH]; [cbn; congruence |].
  cbn. destruct (String.eqb_spec k' k) as [-> | _]; [left; reflexivity |].
  intros H. right. apply IH. exact H.
Qed.

Lemma in_get_some d k : In k (keys d) -> get d k <> None.
Proof.
  induction d as [| [k' v] d IH]; [intros [] |].
  cbn. destruct (String.eqb_spec k' k) as [-> | Hne]; [discriminate |].
  intros [H | H]; [contradiction | apply IH; exact H].
Qed.

Lemma pop_present d k :
  get d k <> None -> exists v d1, pop d k = Some (v, d1).
Proof.
  induction d as [| [k' v] d IH]; [cbn; congruence |].
  cbn. destruct (String.eqb k' k); [intros _; eauto |].
  intros H. destruct (IH H) as (x & d1 & ->). eauto.
Qed.

Lemma pop_keys d k v d1 :
  pop d k = Some (v, d1) ->
  forall y, In y (keys d1) -> In y (keys d).
Proof.
  revert d1. induction d as [| [k' v'] d IH]; intros d1; [discriminate |].
  cbn. destruct (String.eqb k' k).
  - intros [= <- <-] y H. right. exact H.
  - destruct (pop d k) as [[x r] |]; [| discriminate].
    intros [= <- <-] y [H | H]; [left; exact H | right].
    apply (IH r eq_refl). exact H.
Qed.

Lemma pop_nodup d k v d1 :
  NoDup (keys d) -> pop d k = Some (v, d1) -> NoDup (keys d1).
Proof.
  revert d1. induction d as [| [k' v'] d IH]; intros d1 Hnd; [discriminate |].
  cbn in *. inversion Hnd as [| ? ? Hnotin Hnd']; subst.
  destruct (String.eqb k' k).
  - intros [= <- <-]. exact Hnd'.
  - destruct (pop d k) as [[x r] |] eqn:Hp; [| discriminate].
    intros [= <- <-]. cbn. constructor.
    + intros H. apply Hnotin. exact (pop_keys d k x r Hp k' H).
    + apply (IH r Hnd' eq_refl).
Qed.

Lemma pop_length d k v d1 :
  pop d k = Some (v, d1) -> List.length d = S (List.length d1).
Proof.
  revert d1. induction d as [| [k' v'] d IH]; intros d1; [discriminate |].
  cbn. destruct (String.eqb k' k).
  - intros [= <- <-]. reflexivity.
  - destruct (pop d k) as [[x r] |]; [| discriminate].
    intros [= <- <-]. cbn. f_equal. apply IH. reflexivity.
Qed.

Lemma get_pop_same d k v d1 :
  NoDup (keys d) -> pop d k = Some (v, d1) ->
  get d k = Some v /\ get d1 k = None.
Proof.
  revert d1. induction d as [| [k' v'] d IH]; intros d1 Hnd; [discriminate |].
  cbn in *. inversion Hnd as [| ? ? Hnotin Hnd']; subst.
  destruct (String.eqb_spec k' k) as [-> | Hne].
  - intros [= <- <-]. split; [reflexivity | apply get_none_notin; exact Hnotin].
  - destruct (pop d k) as [[x r] |] eqn:Hp; [| discriminate].
    intros [= <- <-]. destruct (IH r Hnd' eq_refl) as [H1 H2].
    split; [exact H1 |]. cbn.
    destruct (String.eqb_spec k' k); [contradiction | exact H2].
Qed.

Lemma get_pop_other d k v d1 y :
  pop d k = Some (v, d1) -> y <> k -> get d1 y = get d y.
Proof.
  revert d1. induction d as [| [k' v'] d IH]; intros d1; [discriminate |].
  cbn. destruct (String.eqb_spec k' k) as [-> | Hne].
  - intros [= <- <-] Hy.
    destruct (String.eqb_spec k y); [congruence | reflexivity].
  - destruct (pop d k) as [[x r] |]; [| discriminate].
    intros [= <- <-] Hy. cbn.
    destruct (String.eqb k' y); [reflexivity | apply IH; [reflexivity | exact Hy]].
Qed.

Lemma get_set_same d k v : get (set d k v) k = Some v.
Proof.
  induction d as [| [k' v'] d IH]; cbn.
  - rewrite String.eqb_refl. reflexivity.
  - destruct (String.eqb k' k) eqn:E; cbn; rewrite E; [reflexivity | exact IH].
Qed.

Lemma get_set_other d k v y : y <> k -> get (set d k v) y = get d y.
Proof.
  intros Hy. induction d as [| [k' v'] d IH]; cbn.
  - destruct (String.eqb_spec k y); [congruence | reflexivity].
  - destruct (String.eqb_spec k' k) as [-> | Hne]; cbn.
    + destruct (String.eqb_spec k y); [congruence | reflexivity].
    + destruct (String.eqb k' y); [reflexivity | exact IH].
Qed.

Lemma set_keys d k v y :
  In y (keys (set d k v)) -> y = k \/ In y (keys d).
Proof.
  induction d as [| [k' v'] d IH]; cbn.
  - intros [H | []]. left. congruence.
  - destruct (String.eqb k' k); cbn.
    + intros [H | H]; right; [left | right]; assumption.
    + intros [H | H]; [right; left; exact H |].
      destruct (IH H) as [H' | H']; [left | right; right]; assumption.
Qed.

Lemma set_nodup d k v : NoDup (keys d) -> NoDup (keys (set d k v)).
Proof.
  induction d as [| [k' v'] d IH]; cbn; intros Hnd.
  - constructor; [intros [] | constructor].
  - inversion Hnd as [| ? ? Hnotin Hnd']; subst.
    destruct (String.eqb_spec k' k) as [-> | Hne]; cbn.
    + constructor; assumption.
    + constructor; [| apply IH; exact Hnd'].
      intros H. destruct (set_keys d k v k' H); [congruence | contradiction].
Qed.

Lemma set_length d k v :
  (List.length (set d k v) <= S (List.length d))%nat.
Proof.
  induction d as [| [k' v'] d IH]; cbn; [lia |].
  destruct (String.eqb k' k); cbn; lia.
Qed.

(** The loop never looks for a key that is gone: the keys of the snapshot
    are distinct, and a step removes only the key it handles. *)
Lemma fix_keys_ok (items : list (string * V)) d :
  NoDup (map fst items) ->
  NoDup (keys d) ->
  (forall k, In k (map fst items) ->
             Path.startswith k unwanted_prefix = true -> get d k <> None) ->
  exists d',
    fix_keys items d = Ok d'
    /\ NoDup (keys d')
    /\ (List.length d' <= List.length d)%nat.
Proof.
  revert d. induction items as [| [k v0] items IH]; intros d Hni Hnd Hpres.
  - exists d. repeat split; [exact Hnd | lia].
  - cbn [fix_keys]. cbn in Hni. inversion Hni as [| ? ? Hnotin Hni']; subst.
    destruct (Path.startswith k unwanted_prefix) eqn:Hpre.
    + destruct (pop_present d k (Hpres k (or_introl eq_refl) Hpre))
        as (x & d1 & Hpop).
      rewrite Hpop.
      destruct (IH (set d1 (strip k) x) Hni') as (d' & Hok & Hnd' & Hlen).
      * apply set_nodup. exact (pop_nodup d k x d1 Hnd Hpop).
      * intros k2 Hin2 Hpre2.
        assert (Hne : k2 <> k) by (intros ->; contradiction).
        destruct (String.eqb_spec k2 (strip k)) as [-> | Hne2].
        -- rewrite get_set_same. discriminate.
        -- rewrite get_set_other by exact Hne2.
           rewrite (get_pop_other d k x d1 k2 Hpop Hne).
           apply Hpres; [right; exact Hin2 | exact Hpre2].
      * exists d'. repeat split; [exact Hok | exact Hnd' |].
        pose proof (pop_length d k x d1 Hpop).
        pose proof (set_length d1 (strip k) x). lia.
    + apply IH; [exact Hni' | exact Hnd |].
      intros k2 Hin2. apply Hpres. right. exact Hin2.
Qed.

(** X16.  Stripping the [_orig_mod.] prefix never raises [KeyError] on a
    dictionary, leaves its keys distinct and never adds an entry. *)
Theorem strip_unwanted_prefix_never_raises d :
  NoDup (keys d) ->
  exists d',
    strip_unwanted_prefix d = Ok d'
    /\ NoDup (keys d')
    /\ (List.length d' <= List.length d)%nat.
Proof.
  intros Hnd. apply fix_keys_ok; [exact Hnd | exact Hnd |].
  intros k Hin _. apply in_get_some. exact Hin.
Qed.

Lemma fix_keys_clean (items : list (string * V)) d :
  (forall k, In k (map fst items) ->
             Path.startswith k unwanted_prefix = false) ->
  fix_keys items d = Ok d.
Proof.
  induction items as [| [k v] items IH]; intros Hclean; [reflexivity |].
  cbn [fix_keys]. rewrite (Hclean k (or_introl eq_refl)).
  apply IH. intros k2 Hin. apply Hclean. right. exact Hin.
Qed.

(** X17.  A dictionary without a prefixed key comes back unchanged, in
    the same order. *)
Theorem strip_unwanted_prefix_clean d :
  (forall k, In k (keys d) -> Path.startswith k unwanted_prefix = false) ->
  strip_unwanted_prefix d = Ok d.
Proof. intros Hclean. apply fix_keys_clean. exact Hclean. Qed.

Lemma prefixed_not_stripped k x :
  Path.startswith x unwanted_prefix = false -> unwanted_prefix ++ k <> x.
Proof.
  intros Hx E. subst x. unfold Path.startswith in Hx.
  rewrite prefix_append in Hx. discriminate.
Qed.

(** Where each key of the result comes from, while the keys [items] of
    the snapshot are still to be handled. *)
Lemma fix_keys_lookup (items : list (string * V)) d :
  NoDup (map fst items) ->
  NoDup (keys d) ->
  (forall k, In k (map fst items) ->
             Path.startswith k unwanted_prefix = true -> get d k <> None) ->
  (forall k, In k (map fst items) ->
             Path.startswith k unwanted_prefix = true ->
             Path.startswith (strip k) unwanted_prefix = false) ->
  exists d',
    fix_keys items d = Ok d'
    /\ forall x,
         (In (unwanted_prefix ++ x) (map fst items) ->
          get d' x = get d (unwanted_prefix ++ x))
         /\ (~ In (unwanted_prefix ++ x) (map fst items) ->
             In x (map fst items) ->
             Path.startswith x unwanted_prefix = true ->
             get d' x = None)
         /\ (~ In (unwanted_prefix ++ x) (map fst items) ->
             ~ (In x (map fst items)
                /\ Path.startswith x unwanted_prefix = true) ->
             get d' x = get d x).
Proof.
  revert d. induction items as [| [k v0] items IH];
    intros d Hni Hnd Hpres Hsingle.
  { exists d. split; [reflexivity |]. intros x.
    split; [intros [] | split; [intros _ [] | reflexivity]]. }
  cbn [fix_keys]. cbn [map fst] in *.
  inversion Hni as [| ? ? Hnotin Hni']; subst.
  destruct (Path.startswith k unwanted_prefix) eqn:Hpre.
  - pose proof (strip_prefixed k Hpre) as Hk.
    pose proof (Hsingle k (or_introl eq_refl) Hpre) as Hs.
    destruct (pop_present d k (Hpres k (or_introl eq_refl) Hpre))
      as (xv & d1 & Hpop).
    rewrite Hpop.
    destruct (get_pop_same d k xv d1 Hnd Hpop) as [Hgk Hg1k].
    assert (Hks : k <> strip k).
    { intros E. rewrite <- E in Hs. congruence. }
    destruct (IH (set d1 (strip k) xv) Hni') as (d' & Hok & Hspec).
    + apply set_nodup. exact (pop_nodup d k xv d1 Hnd Hpop).
    + intros k2 Hin2 Hpre2.
      assert (Hne : k2 <> k) by (intros ->; contradiction).
      destruct (String.eqb_spec k2 (strip k)) as [-> | Hne2].
      * rewrite get_set_same. discriminate.
      * rewrite get_set_other by exact Hne2.
        rewrite (get_pop_other d k xv d1 k2 Hpop Hne).
        apply Hpres; [right; exact Hin2 | exact Hpre2].
    + intros k2 Hin2. apply Hsingle. right. exact Hin2.
    + exists d'. split; [exact Hok |]. intros x.
      destruct (Hspec x) as (S1 & S2 & S3).
      assert (Hpx : unwanted_prefix ++ x <> strip k).
      { apply prefixed_not_stripped. exact Hs. }
      destruct (String.eqb_spec x (strip k)) as [-> | Hxs].
      * (* the stripped name of the key just handled *)
        rewrite <- Hk in *.
        assert (Hg : get d' (strip k) = Some xv).
        { rewrite S3.
          - apply get_set_same.
          - exact Hnotin.
          - intros [_ Hp]. congruence. }
        split; [intros _; congruence |].
        split; [intros Hn; exfalso; apply Hn; left; reflexivity |].
        intros Hn. exfalso. apply Hn. left. reflexivity.
      * assert (Hpk : unwanted_prefix ++ x <> k).
        { intros E. apply Hxs. rewrite Hk in E.
          apply (f_equal (Path.drop (String.length unwanted_prefix))) in E.
          rewrite !drop_append in E. exact E. }
        split; [| split].
        -- intros [E | Hin]; [congruence |].
           rewrite (S1 Hin), get_set_other by exact Hpx.
           apply (get_pop_other d k xv d1 _ Hpop Hpk).
        -- intros Hn Hin Hp.
           assert (Hn' : ~ In (unwanted_prefix ++ x) (map fst items))
             by (intros H; apply Hn; right; exact H).
           destruct Hin as [E | Hin].
           ++ subst x.
              rewrite S3; [| exact Hn' | intros [Hin' _]; contradiction].
              rewrite get_set_other by exact Hks. exact Hg1k.
           ++ apply S2; [exact Hn' | exact Hin | exact Hp].
        -- intros Hn Hn2.
           assert (Hn' : ~ In (unwanted_prefix ++ x) (map fst items))
             by (intros H; apply Hn; right; exact H).
           assert (Hxk : x <> k).
           { intros ->. apply Hn2. split; [left; reflexivity | exact Hpre]. }
           rewrite S3; [| exact Hn' |].
           ++ rewrite get_set_other by exact Hxs.
              apply (get_pop_other d k xv d1 x Hpop Hxk).
           ++ intros [Hin Hp]. apply Hn2. split; [right; exact Hin | exact Hp].
  - destruct (IH d Hni' Hnd) as (d' & Hok & Hspec).
    + intros k2 Hin2. apply Hpres. right. exact Hin2.
    + intros k2 Hin2. apply Hsingle. right. exact Hin2.
    + exists d'. split; [exact Hok |]. intros x.
      destruct (Hspec x) as (S1 & S2 & S3).
      assert (Hpk : unwanted_prefix ++ x <> k).
      { apply prefixed_not_stripped. exact Hpre. }
      split; [| split].
      * intros [E | Hin]; [congruence | exact (S1 Hin)].
      * intros Hn [E | Hin] Hp; [congruence |].
        apply S2; [| exact Hin | exact Hp].
        intros H; apply Hn; right; exact H.
      * intros Hn Hn2. apply S3.
        -- intros H; apply Hn; right; exact H.
        -- intros [Hin Hp]. apply Hn2. split; [right; exact Hin | exact Hp].
Qed.

(** X18.  On a dictionary none of whose keys carries the prefix twice,
    the loop renames as intended: afterwards no key starts with
    [_orig_mod.], and a name [x] holds the tensor that was stored under
    [_orig_mod.x], or else the one that was stored under [x] itself. *)
Theorem strip_unwanted_prefix_lookup d :
  NoDup (keys d) ->
  (forall k, In k (keys d) ->
             Path.startswith k unwanted_prefix = true ->
             Path.startswith (strip k) unwanted_prefix = false) ->
  exists d',
    strip_unwanted_prefix d = Ok d'
    /\ forall x,
         get d' x
         = if Path.startswith x unwanted_prefix then None
           else match get d (unwanted_prefix ++ x) with
                | Some v => Some v
                | None => get d x
                end.
Proof.
  intros Hnd Hsingle.
  destruct (fix_keys_lookup d d Hnd Hnd) as (d' & Hok & Hspec).
  { intros k Hin _. apply in_get_some. exact Hin. }
  { exact Hsingle. }
  exists d'. split; [exact Hok |]. intros x.
  destruct (Path.startswith x unwanted_prefix) eqn:Hp;
    destruct (Hspec x) as (S1 & S2 & S3).
  - assert (Hn : ~ In (unwanted_prefix ++ x) (keys d)).
    { intros Hin.
      pose proof (Hsingle _ Hin (prefix_append unwanted_prefix x)) as H.
      unfold strip in H. rewrite drop_append in H. congruence. }
    destruct (get d x) eqn:Hg.
    + apply S2; [exact Hn | | exact Hp].
      apply get_some_in. congruence.
    + apply S3; [exact Hn |].
      intros [Hin _]. apply in_get_some in Hin. contradiction.
  - destruct (get d (unwanted_prefix ++ x)) as [v |] eqn:Hg.
    + apply S1. apply get_some_in. congruence.
    + apply S3.
      * intros Hin. apply in_get_some in Hin. contradiction.
      * intros [_ H]. congruence.
Qed.

End Facts.

(** *** A checkpoint saved from a compiled model *)

Lemma compiled_checkpoint_nodup : NoDup (keys compiled_checkpoint).
Proof.
  cbn. repeat constructor; cbn; intuition discriminate.
Defined.

Lemma compiled_checkpoint_single_prefix (k : string) :
  In k (keys compiled_checkpoint) ->
  Path.startswith k unwanted_prefix = true ->
  Path.startswith (strip k) unwanted_prefix = false.
Proof.
  cbn. intros [<- | [<- | [<- | []]]] _; reflexivity.
Defined.

Lemma strip_unwanted_prefix_never_raises_witness :
  NoDup (keys compiled_checkpoint)
  /\ exists d',
       strip_unwanted_prefix compiled_checkpoint = Ok d'
       /\ NoDup (keys d')
       /\ (List.length d' <= List.length compiled_checkpoint)%nat.
Proof.
  split; [exact compiled_checkpoint_nodup |].
  exact (strip_unwanted_prefix_never_raises nat compiled_checkpoint
           compiled_checkpoint_nodup).
Defined.

Lemma strip_unwanted_prefix_lookup_witness :
  exists d',
    strip_unwanted_prefix compiled_checkpoint = Ok d'
    /\ forall x,
         get d' x
         = if Path.startswith x unwanted_prefix then None
           else match get compiled_checkpoint (unwanted_prefix ++ x) with
                | Some v => Some v
                | None => get compiled_checkpoint x
                end.
Proof.
  exact (strip_unwanted_prefix_lookup nat compiled_checkpoint
           compiled_checkpoint_nodup compiled_checkpoint_single_prefix).
Defined.

(** A checkpoint without the prefix. *)
Lemma strip_unwanted_prefix_clean_witness :
  strip_unwanted_prefix [("lm_head.weight", 2%nat)]
  = Ok [("lm_head.weight", 2%nat)].
Proof.
  apply (strip_unwanted_prefix_clean nat [("lm_head.weight", 2%nat)]).
  cbn. intros k [<- | []]. reflexivity.
Defined.

(** The renaming on the compiled checkpoint, computed. *)
Example strip_compiled_checkpoint :
  strip_unwanted_prefix compiled_checkpoint
  = Ok [("transformer.wte.weight", 0%nat);
        ("transformer.wpe.weight", 1%nat);
        ("lm_head.weight", 2%nat)].
Proof. reflexivity. Qed.

End StateDictFacts.

(** ** The data loader *)

Module DataFacts.

Import Data.

Local Open Scope Z_scope.

Lemma py_slice_inside {A} (l : list A) (a b : Z) :
  0 <= a -> a <= b -> b <= Z.of_nat (List.length l) ->
  py_slice l a b = firstn (Z.to_nat (b - a)) (skipn (Z.to_nat a) l).
Proof.
  intros Ha Hab Hb. unfold py_slice, clamp_index.
  destruct (Z.ltb_spec a 0); [lia |].
  destruct (Z.ltb_spec b 0); [lia |].
  rewrite !Z.min_l by lia. reflexivity.
Qed.

Lemma stack_uniform (rows : list (list Z)) (n : nat) :
  rows <> [] -> Forall (fun r => List.length r = n) rows ->
  stack rows = Done rows.
Proof.
  intros Hne Hall. destruct rows as [| r rest]; [congruence |].
  unfold stack. inversion Hall as [| ? ? Hr Hrest]; subst.
  replace (forallb _ rest) with true; [reflexivity |].
  symmetry. apply forallb_forall. intros r' Hin.
  rewrite Forall_forall in Hrest. rewrite (Hrest r' Hin).
  apply Nat.eqb_refl.
Qed.

Lemma window_length (data : list Z) (i bs : nat) :
  (i + bs <= List.length data)%nat ->
  List.length (firstn bs (skipn i data)) = bs.
Proof. intros H. rewrite length_firstn, length_skipn. lia. Qed.

(** The target window is the input window moved one token on. *)
Lemma window_shift (data : list Z) (i bs : nat) :
  (i + 1 + bs <= List.length data)%nat ->
  tl (firstn bs (skipn i data)) = removelast (firstn bs (skipn (S i) data)).
Proof.
  intros H. destruct bs as [| bs]; [reflexivity |].
  assert (Hs : skipn i data = nth i data 0 :: skipn (S i) data).
  { assert (Hi : (i < List.length data)%nat) by lia.
    clear H. revert i Hi. induction data as [| a data IH]; intros i Hi;
      [cbn in Hi; lia |].
    destruct i as [| i]; [reflexivity |].
    cbn [skipn nth]. apply IH. cbn in Hi. lia. }
  rewrite Hs, removelast_firstn by (rewrite length_skipn; lia).
  reflexivity.
Qed.

Section SamplerFacts.

Variable rng : Type.
Variable randint : rng -> Z -> Z -> list Z * rng.

Local Abbreviation randint_in_range := (Data.randint_in_range rng randint).

(** The batch, once the file is long enough. *)
Lemma get_batch_run (corpus : Corpus) (batch_size block_size : Z) (g : rng)
  (split : string) (data : list Z) :
  randint_in_range ->
  split_file corpus split = Some data ->
  0 <= block_size < Z.of_nat (List.length data) ->
  0 < batch_size ->
  let ix := fst (randint g (Z.of_nat (List.length data) - block_size)
                   batch_size) in
  get_batch rng randint corpus batch_size block_size g split
  = Done ((map (fun i => firstn (Z.to_nat block_size)
                           (skipn (Z.to_nat i) data)) ix,
           map (fun i => firstn (Z.to_nat block_size)
                           (skipn (S (Z.to_nat i)) data)) ix),
          snd (randint g (Z.of_nat (List.length data) - block_size)
                 batch_size)).
Proof.
  intros Hspec Hfile Hbs Hbatch ix. unfold get_batch.
  fold (split_file corpus split). rewrite Hfile.
  assert (Hmap : memmap (Some data) = Done data).
  { destruct data; [cbn in Hbs; lia | reflexivity]. }
  rewrite Hmap. unfold torch_randint.
  destruct (Z.ltb_spec batch_size 0); [lia |].
  destruct (Z.leb_spec (Z.of_nat (List.length data) - block_size) 0); [lia |].
  destruct (Hspec g (Z.of_nat (List.length data) - block_size) batch_size)
    as [Hlen Hrange]; [lia | lia |].
  fold ix in Hlen, Hrange.
  destruct (randint g (Z.of_nat (List.length data) - block_size) batch_size)
    as [ix0 g'] eqn:Hr.
  cbn [fst snd] in *. subst ix.
  assert (Hne : ix0 <> []).
  { intros ->. cbn in Hlen. lia. }
  assert (Hx : map (fun i => py_slice data i (i + block_size)) ix0
               = map (fun i => firstn (Z.to_nat block_size)
                                 (skipn (Z.to_nat i) data)) ix0).
  { apply map_ext_in. intros i Hin. rewrite Forall_forall in Hrange.
    pose proof (Hrange i Hin). rewrite py_slice_inside by lia.
    f_equal. lia. }
  assert (Hy : map (fun i => py_slice data (i + 1) (i + 1 + block_size)) ix0
               = map (fun i => firstn (Z.to_nat block_size)
                                 (skipn (S (Z.to_nat i)) data)) ix0).
  { apply map_ext_in. intros i Hin. rewrite Forall_forall in Hrange.
    pose proof (Hrange i Hin). rewrite py_slice_inside by lia.
    f_equal; [lia | f_equal; lia]. }
  rewrite Hx, Hy.
  rewrite (stack_uniform _ (Z.to_nat block_size)).
  - rewrite (stack_uniform _ (Z.to_nat block_size)); [reflexivity | |].
    + destruct ix0; [congruence | discriminate].
    + apply Forall_map. rewrite Forall_forall in *. intros i Hin.
      pose proof (Hrange i Hin). apply window_length. lia.
  - destruct ix0; [congruence | discriminate].
  - apply Forall_map. rewrite Forall_forall in *. intros i Hin.
    pose proof (Hrange i Hin). apply window_length. lia.
Qed.

(** X19.  On a token file longer than [block_size], [get_batch] returns
    [batch_size] input rows and as many target rows, every row holding
    exactly [block_size] tokens read inside the file, and each target row
    is its input row moved one token on (the target without its last
    token is the input without its first). *)
Theorem get_batch_rows (corpus : Corpus) (batch_size block_size : Z) (g : rng)
  (split : string) (data : list Z) :
  randint_in_range ->
  split_file corpus split = Some data ->
  0 <= block_size < Z.of_nat (List.length data) ->
  0 < batch_size ->
  exists x y g',
    get_batch rng randint corpus batch_size block_size g split
    = Done ((x, y), g')
    /\ List.length x = Z.to_nat batch_size
    /\ List.length y = Z.to_nat batch_size
    /\ Forall (fun r => List.length r = Z.to_nat block_size) x
    /\ Forall (fun r => List.length r = Z.to_nat block_size) y
    /\ Forall2 (fun xr yr => tl xr = removelast yr) x y.
Proof.
  intros Hspec Hfile Hbs Hbatch.
  pose proof (get_batch_run corpus batch_size block_size g split data
                Hspec Hfile Hbs Hbatch) as Hrun. cbv zeta in Hrun.
  destruct (Hspec g (Z.of_nat (List.length data) - block_size) batch_size)
    as [Hlen Hrange]; [lia | lia |].
  do 3 eexists. split; [exact Hrun |].
  rewrite !length_map. split; [exact Hlen | split; [exact Hlen |]].
  rewrite Forall_forall in Hrange.
  split; [| split].
  - apply Forall_map, Forall_forall. intros i Hin.
    pose proof (Hrange i Hin). apply window_length. lia.
  - apply Forall_map, Forall_forall. intros i Hin.
    pose proof (Hrange i Hin). apply window_length. lia.
  - clear Hlen Hrun. revert Hrange.
    generalize (fst (randint g (Z.of_nat (List.length data) - block_size)
                       batch_size)).
    intros ix. induction ix as [| i ix IH]; intros Hrange; [constructor |].
    cbn [map]. constructor.
    + pose proof (Hrange i (or_introl eq_refl)). apply window_shift. lia.
    + apply IH. intros j Hj. apply Hrange. right. exact Hj.
Qed.

(** X20.  For a non-negative [block_size], [get_batch] returns a batch
    exactly when the split's file exists, holds more than [block_size]
    tokens, and [batch_size] is positive; a missing file is a
    [FileNotFoundError]. *)
Theorem get_batch_succeeds_iff (corpus : Corpus) (batch_size block_size : Z)
  (g : rng) (split : string) :
  randint_in_range ->
  0 <= block_size ->
  ((exists r, get_batch rng randint corpus batch_size block_size g split
              = Done r)
   <->
   exists data,
     split_file corpus split = Some data
     /\ block_size < Z.of_nat (List.length data)
     /\ 0 < batch_size)
  /\ (split_file corpus split = None ->
      get_batch rng randint corpus batch_size block_size g split
      = Failed (Builtin FileNotFoundError)).
Proof.
  intros Hspec Hbs. split.
  - split.
    + intros [r Hr]. unfold get_batch in Hr. fold (split_file corpus split) in Hr.
      destruct (split_file corpus split) as [data |]; [| discriminate].
      exists data. split; [reflexivity |].
      destruct data as [| a data]; [discriminate |]. cbn [memmap] in Hr.
      unfold torch_randint in Hr.
      destruct (Z.ltb_spec batch_size 0); [discriminate |].
      destruct (Z.leb_spec (Z.of_nat (List.length (a :: data)) - block_size) 0);
        [discriminate |].
      split; [lia |].
      destruct (Z.eq_dec batch_size 0) as [-> | Hne]; [| lia].
      destruct (Hspec g (Z.of_nat (List.length (a :: data)) - block_size) 0)
        as [Hlen _]; [lia | lia |].
      destruct (randint g (Z.of_nat (List.length (a :: data)) - block_size) 0)
        as [ix g'].
      cbn [fst] in Hlen. destruct ix; [discriminate | discriminate].
    + intros (data & Hfile & Hlen & Hbatch). eexists.
      apply (get_batch_run corpus batch_size block_size g split data);
        [exact Hspec | exact Hfile | lia | exact Hbatch].
  - intros Hnone. unfold get_batch. fold (split_file corpus split).
    rewrite Hnone. reflexivity.
Qed.

End SamplerFacts.

Lemma last_offset_randint_in_range :
  Data.randint_in_range Z last_offset_randint.
Proof.
  intros g high n Hh Hn. unfold last_offset_randint. cbn [fst].
  split; [apply repeat_length |].
  apply Forall_forall. intros i Hin. apply repeat_spec in Hin. lia.
Defined.

Lemma get_batch_rows_witness :
  exists x y g',
    get_batch Z last_offset_randint ten_tokens 2 4 0 "train" = Done ((x, y), g')
    /\ List.length x = Z.to_nat 2
    /\ List.length y = Z.to_nat 2
    /\ Forall (fun r => List.length r = Z.to_nat 4) x
    /\ Forall (fun r => List.length r = Z.to_nat 4) y
    /\ Forall2 (fun xr yr => tl xr = removelast yr) x y.
Proof.
  apply (get_batch_rows Z last_offset_randint ten_tokens 2 4 0 "train"
           [10; 11; 12; 13; 14; 15; 16; 17; 18; 19]
           last_offset_randint_in_range eq_refl).
  - cbn. lia.
  - lia.
Defined.

Lemma get_batch_succeeds_iff_witness :
  ((exists r, get_batch Z last_offset_randint ten_tokens 2 10 0 "val" = Done r)
   <->
   exists data,
     split_file ten_tokens "val" = Some data
     /\ 10 < Z.of_nat (List.length data)
     /\ 0 < 2)
  /\ (split_file ten_tokens "val" = None ->
      get_batch Z last_offset_randint ten_tokens 2 10 0 "val"
      = Failed (Builtin FileNotFoundError)).
Proof.
  apply (get_batch_succeeds_iff Z last_offset_randint ten_tokens 2 10 0 "val"
           last_offset_randint_in_range).
  lia.
Defined.

(** The batch drawn at the largest offset reads up to the last token. *)
Example get_batch_last_offset :
  get_batch Z last_offset_randint ten_tokens 2 4 0 "train"
  = Done (([[15; 16; 17; 18]; [15; 16; 17; 18]],
           [[16; 17; 18; 19]; [16; 17; 18; 19]]), 1).
Proof. reflexivity. Qed.

End DataFacts.

(** ** The loss estimate *)

Module EvaluatorFacts.

Import Evaluator.

Local Open Scope Z_scope.

Lemma sum_bounds (a b : R) (l : list R) :
  Forall (fun x => a <= x <= b)%R l ->
  (INR (List.length l) * a <= sum l <= INR (List.length l) * b)%R.
Proof.
  induction 1 as [| x l Hx Hl IH].
  - cbn. lra.
  - change (sum (x :: l)) with (x + sum l)%R.
    change (List.length (x :: l)) with (S (List.length l)).
    rewrite S_INR. lra.
Qed.

(** The mean of values between [a] and [b] lies between [a] and [b]. *)
Lemma mean_bounds (a b : R) (l : list R) :
  l <> [] ->
  Forall (fun x => a <= x <= b)%R l ->
  exists m, mean l = Num m /\ (a <= m <= b)%R.
Proof.
  intros Hne Hall. destruct l as [| x l]; [congruence |].
  eexists. split; [reflexivity |].
  pose proof (sum_bounds a b (x :: l) Hall) as [Hlo Hhi].
  assert (Hn : (0 < INR (List.length (x :: l)))%R).
  { apply lt_0_INR. cbn. lia. }
  split.
  - apply (Rmult_le_reg_l (INR (List.length (x :: l)))); [exact Hn |].
    unfold Rdiv. rewrite <- Rmult_assoc, Rinv_r_simpl_m by lra. exact Hlo.
  - apply (Rmult_le_reg_l (INR (List.length (x :: l)))); [exact Hn |].
    unfold Rdiv. rewrite <- Rmult_assoc, Rinv_r_simpl_m by lra. exact Hhi.
Qed.

Section EstimateFacts.

Variable rng : Type.
Variable randint : rng -> Z -> Z -> list Z * rng.
Variable model_loss : list (list Z) -> list (list Z) -> R.
Variable corpus : Data.Corpus.
Variables batch_size block_size : Z.

Local Abbreviation sample_losses :=
  (Evaluator.sample_losses rng randint model_loss corpus batch_size block_size).
Local Abbreviation estimate_split :=
  (Evaluator.estimate_split rng randint model_loss corpus batch_size block_size).
Local Abbreviation estimate_loss :=
  (Evaluator.estimate_loss rng randint model_loss corpus batch_size block_size).

(** Sampling emits forward passes only. *)
Lemma sample_losses_trace (split : string) (ks : list Z) (g : rng) :
  existsb is_model_train (fst (sample_losses split ks g)) = false.
Proof.
  revert g. induction ks as [| k ks IH]; intros g; [reflexivity |].
  cbn [Evaluator.sample_losses].
  destruct (Data.get_batch _ _ _ _ _ _ _) as [[[X Y] g1] | e]; [| reflexivity].
  specialize (IH g1).
  destruct (sample_losses split ks g1) as [t [[ls g2] | e]]; exact IH.
Qed.

Lemma estimate_split_trace (eval_iters : Z) (split : string) (g : rng) :
  existsb is_model_train (fst (estimate_split eval_iters split g)) = false.
Proof.
  unfold Evaluator.estimate_split.
  destruct (eval_iters <? 0); [reflexivity |].
  pose proof (sample_losses_trace split (Train.range eval_iters) g) as H.
  destruct (sample_losses split (Train.range eval_iters) g)
    as [t [[ls g'] | e]]; exact H.
Qed.

Lemma sample_losses_run (split : string) (data : list Z) (a b : R) :
  Data.randint_in_range rng randint ->
  Data.split_file corpus split = Some data ->
  0 <= block_size < Z.of_nat (List.length data) ->
  0 < batch_size ->
  (forall X Y, a <= model_loss X Y <= b)%R ->
  forall ks g,
  exists ls g',
    sample_losses split ks g = (map (Forward split) ks, Done (ls, g'))
    /\ List.length ls = List.length ks
    /\ Forall (fun x => a <= x <= b)%R ls.
Proof.
  intros Hspec Hfile Hbs Hbatch Hloss ks.
  induction ks as [| k ks IH]; intros g.
  - exists [], g. repeat split; constructor.
  - cbn [Evaluator.sample_losses].
    rewrite (DataFacts.get_batch_run rng randint corpus batch_size block_size
               g split data Hspec Hfile Hbs Hbatch).
    cbv zeta.
    destruct (IH (snd (randint g (Z.of_nat (List.length data) - block_size)
                         batch_size))) as (ls & g' & -> & Hlen & Hall).
    do 2 eexists. split; [reflexivity |]. split.
    + cbn. rewrite Hlen. reflexivity.
    + constructor; [apply Hloss | exact Hall].
Qed.

(** X21.  With both token files longer than [block_size], a positive
    [batch_size] and a positive [eval_iters], [estimate_loss] switches
    the model to evaluation mode, runs [eval_iters] forward passes on the
    training split and then [eval_iters] on the validation split, and
    switches back to training mode; each loss it returns is a number
    that lies between any two bounds of the batch losses. *)
Theorem estimate_loss_run (eval_iters : Z) (g : rng)
  (train_data val_data : list Z) (a b : R) :
  Data.randint_in_range rng randint ->
  Data.train_bin corpus = Some train_data ->
  Data.val_bin corpus = Some val_data ->
  0 <= block_size < Z.of_nat (List.length train_data) ->
  block_size < Z.of_nat (List.length val_data) ->
  0 < batch_size ->
  0 < eval_iters ->
  (forall X Y, a <= model_loss X Y <= b)%R ->
  exists mt mv g',
    estimate_loss eval_iters g
    = (ModelEval
       :: map (Forward "train") (Train.range eval_iters)
          ++ map (Forward "val") (Train.range eval_iters)
          ++ [ModelTrain],
       Done ((Num mt, Num mv), g'))
    /\ (a <= mt <= b)%R /\ (a <= mv <= b)%R.
Proof.
  intros Hspec Htrain Hval Hbt Hbv Hbatch Hiters Hloss.
  assert (Hne : Train.range eval_iters <> []).
  { unfold Train.range. destruct (Z.to_nat eval_iters) eqn:E; [lia |].
    discriminate. }
  unfold Evaluator.estimate_loss, Evaluator.estimate_split.
  destruct (Z.ltb_spec eval_iters 0); [lia |].
  destruct (sample_losses_run "train" train_data a b Hspec Htrain Hbt Hbatch
              Hloss (Train.range eval_iters) g)
    as (ls1 & g1 & -> & Hlen1 & Hall1).
  destruct (sample_losses_run "val" val_data a b Hspec Hval
              ltac:(lia) Hbatch Hloss (Train.range eval_iters) g1)
    as (ls2 & g2 & -> & Hlen2 & Hall2).
  destruct (mean_bounds a b ls1) as (mt & -> & Hmt); [| exact Hall1 |].
  { intros ->. destruct (Train.range eval_iters); [congruence | discriminate]. }
  destruct (mean_bounds a b ls2) as (mv & -> & Hmv); [| exact Hall2 |].
  { intros ->. destruct (Train.range eval_iters); [congruence | discriminate]. }
  exists mt, mv, g2. split; [reflexivity | split; assumption].
Qed.

(** X22.  [estimate_loss] puts the model back into training mode exactly
    when it returns: after a failure (a missing or short token file, a
    negative [eval_iters]) the model is left in evaluation mode.  With
    [eval_iters = 0] it returns [nan] for both splits without reading any
    data. *)
Theorem estimate_loss_mode (eval_iters : Z) (g : rng) :
  (forall r, snd (estimate_loss eval_iters g) = Done r ->
             exists t, fst (estimate_loss eval_iters g)
                       = ModelEval :: t ++ [ModelTrain]
                       /\ existsb is_model_train t = false)
  /\ (forall e, snd (estimate_loss eval_iters g) = Failed e ->
                existsb is_model_train (fst (estimate_loss eval_iters g))
                = false)
  /\ estimate_loss 0 g = ([ModelEval; ModelTrain], Done ((NaN, NaN), g)).
Proof.
  split; [| split].
  - intros r Hr. unfold Evaluator.estimate_loss in *.
    pose proof (estimate_split_trace eval_iters "train" g) as H1.
    destruct (estimate_split eval_iters "train" g) as [t1 [[tl g1] | e]];
      [| discriminate].
    pose proof (estimate_split_trace eval_iters "val" g1) as H2.
    destruct (estimate_split eval_iters "val" g1) as [t2 [[vl g2] | e]];
      [| discriminate].
    exists (t1 ++ t2). cbn [fst snd] in *. split.
    + rewrite <- app_assoc. reflexivity.
    + rewrite existsb_app, H1, H2. reflexivity.
  - intros e He. unfold Evaluator.estimate_loss in *.
    pose proof (estimate_split_trace eval_iters "train" g) as H1.
    destruct (estimate_split eval_iters "train" g) as [t1 [[tl g1] | e1]].
    + pose proof (estimate_split_trace eval_iters "val" g1) as H2.
      destruct (estimate_split eval_iters "val" g1) as [t2 [[vl g2] | e2]];
        [discriminate |].
      cbn [fst snd existsb is_model_train orb] in *.
      rewrite existsb_app, H1, H2. reflexivity.
    + cbn [fst snd] in *. exact H1.
  - reflexivity.
Qed.

End EstimateFacts.

Lemma first_target_bounds (X Y : list (list Z)) :
  (0 <= first_target X Y <= 65535)%R.
Proof. unfold first_target. split; apply IZR_le; lia. Defined.

Lemma estimate_loss_run_witness :
  exists mt mv g',
    estimate_loss Z Data.last_offset_randint first_target Data.ten_tokens 2 4
      3 0
    = (ModelEval
       :: map (Forward "train") (Train.range 3)
          ++ map (Forward "val") (Train.range 3)
          ++ [ModelTrain],
       Done ((Num mt, Num mv), g'))
    /\ (0 <= mt <= 65535)%R /\ (0 <= mv <= 65535)%R.
Proof.
  apply (estimate_loss_run Z Data.last_offset_randint first_target
           Data.ten_tokens 2 4 3 0
           [10; 11; 12; 13; 14; 15; 16; 17; 18; 19]
           [20; 21; 22; 23; 24; 25; 26; 27; 28; 29] 0 65535
           DataFacts.last_offset_randint_in_range eq_refl eq_refl).
  - cbn. lia.
  - cbn. lia.
  - lia.
  - lia.
  - exact first_target_bounds.
Defined.

End EvaluatorFacts.

(** ** The utilisation estimate *)

Module TelemetryFacts.

Import Telemetry.

Local Open Scope R_scope.





End TelemetryFacts.

(** ** Loading the configuration *)

Module ConfigFileFacts.

Import ConfigFile.

Local Open Scope string_scope.

Lemma mem_in (k : string) (l : list string) : mem k l = true <-> In k l.
Proof.
  unfold mem. rewrite existsb_exists. split.
  - intros (x & Hin & E). apply String.eqb_eq in E. subst. exact Hin.
  - intros Hin. exists k. split; [exact Hin | apply String.eqb_refl].
Qed.

Lemma defaults_names (dtype : string) : map fst (defaults dtype) = field_names.
Proof. reflexivity. Qed.

Lemma field_names_public (f : string) :
  In f field_names -> Path.startswith f "_" = false.
Proof.
  cbn. intros H.
  repeat (destruct H as [<- | H]; [reflexivity |]). destruct H.
Qed.

(** X24.  Loading a configuration succeeds exactly when every name the
    script binds to something not callable, and that does not start with
    an underscore, is a field of the configuration; any other such name, a
    helper variable or an imported module for instance, makes the
    construction fail with [TypeError]. *)
Theorem from_file_succeeds_iff (dtype : string) (ns : list (string * pyval)) :
  ((exists cfg, from_file dtype ns = Done cfg)
   <->
   forall k v, In (k, v) ns ->
               Path.startswith k "_" = false -> callable v = false ->
               In k field_names)
  /\ ((exists k v, In (k, v) ns /\ Path.startswith k "_" = false
                   /\ callable v = false /\ ~ In k field_names)
      -> from_file dtype ns = Failed TypeError).
Proof.
  unfold from_file, init.
  destruct (forallb (fun kv => mem (fst kv) field_names) (config_values ns))
    eqn:Hall.
  - rewrite forallb_forall in Hall.
    assert (Hfields : forall k v, In (k, v) ns ->
                      Path.startswith k "_" = false -> callable v = false ->
                      In k field_names).
    { intros k v Hin Hk Hv. apply mem_in.
      apply (Hall (k, v)). unfold config_values. apply filter_In.
      split; [exact Hin |]. cbn [fst snd]. rewrite Hk, Hv. reflexivity. }
    split.
    + split; [intros _; exact Hfields | intros _; eexists; reflexivity].
    + intros (k & v & Hin & Hk & Hv & Hn). exfalso. apply Hn.
      exact (Hfields k v Hin Hk Hv).
  - split; [split |].
    + intros [cfg H]. discriminate.
    + intros Hfields. exfalso.
      assert (Hc : forallb (fun kv => mem (fst kv) field_names)
                     (config_values ns) = true).
      { apply forallb_forall. intros [k v] Hin. unfold config_values in Hin.
        apply filter_In in Hin. destruct Hin as [Hin Hp]. cbn [fst snd] in *.
        apply andb_true_iff in Hp. destruct Hp as [Hk Hv].
        apply mem_in. apply (Hfields k v Hin).
        - destruct (Path.startswith k "_"); [discriminate | reflexivity].
        - destruct (callable v); [discriminate | reflexivity]. }
      congruence.
    + intros _. reflexivity.
Qed.

Lemma get_map_defaults (kwargs : list (string * pyval))
  (ds : list (string * pyval)) (f : string) :
  StateDict.get
    (map (fun fd => (fst fd,
                     match StateDict.get kwargs (fst fd) with
                     | Some v => v
                     | None => snd fd
                     end)) ds) f
  = match StateDict.get ds f with
    | Some d => Some (match StateDict.get kwargs f with
                      | Some v => v
                      | None => d
                      end)
    | None => None
    end.
Proof.
  induction ds as [| [f' d] ds IH]; [reflexivity |].
  cbn. destruct (String.eqb_spec f' f) as [-> | _]; [reflexivity | exact IH].
Qed.

Lemma get_config_values (ns : list (string * pyval)) (f : string) :
  NoDup (map fst ns) ->
  Path.startswith f "_" = false ->
  StateDict.get (config_values ns) f
  = match StateDict.get ns f with
    | Some v => if callable v then None else Some v
    | None => None
    end.
Proof.
  intros Hnd Hf. induction ns as [| [k v] ns IH]; [reflexivity |].
  cbn in Hnd. inversion Hnd as [| ? ? Hnotin Hnd']; subst.
  unfold config_values in *. cbn [filter fst snd StateDict.get].
  destruct (String.eqb_spec k f) as [-> | Hne].
  - rewrite Hf. cbn [negb andb].
    destruct (callable v); cbn [negb].
    + apply StateDictFacts.get_none_notin. intros Hin.
      apply Hnotin. unfold StateDict.keys in Hin.
      apply in_map_iff in Hin. destruct Hin as ([k' v'] & E & Hin).
      cbn in E. subst k'. apply filter_In in Hin. destruct Hin as [Hin _].
      apply in_map_iff. exists (f, v'). split; [reflexivity | exact Hin].
    + cbn. rewrite String.eqb_refl. reflexivity.
  - destruct (negb (Path.startswith k "_") && negb (callable v))%bool.
    + cbn. destruct (String.eqb_spec k f); [contradiction |].
      apply IH. exact Hnd'.
    + apply IH. exact Hnd'.
Qed.

Lemma init_done (dtype : string) (kwargs cfg : list (string * pyval)) :
  init dtype kwargs = Done cfg ->
  cfg = map (fun fd => (fst fd,
                        match StateDict.get kwargs (fst fd) with
                        | Some v => v
                        | None => snd fd
                        end))
            (defaults dtype).
Proof.
  unfold init. destruct (forallb _ kwargs); [| discriminate].
  intros H. injection H as H. symmetry. exact H.
Qed.

(** X25.  When the load succeeds, the configuration has exactly the
    fields of the dataclass, in declaration order; a field the script
    binds to something not callable holds that value, of whatever type,
    and every other field holds its default. *)
Theorem from_file_values (dtype : string) (ns cfg : list (string * pyval)) :
  NoDup (map fst ns) ->
  from_file dtype ns = Done cfg ->
  map fst cfg = field_names
  /\ forall f d,
       StateDict.get (defaults dtype) f = Some d ->
       StateDict.get cfg f
       = Some (match StateDict.get ns f with
               | Some v => if callable v then d else v
               | None => d
               end).
Proof.
  intros Hnd Hload. unfold from_file in Hload.
  apply init_done in Hload. subst cfg. split.
  - reflexivity.
  - intros f d Hd. rewrite get_map_defaults, Hd.
    assert (Hf : Path.startswith f "_" = false).
    { apply field_names_public. rewrite <- (defaults_names dtype).
      apply (StateDictFacts.get_some_in pyval (defaults dtype) f). congruence. }
    rewrite (get_config_values ns f Hnd Hf).
    destruct (StateDict.get ns f) as [v |]; [| reflexivity].
    destruct (callable v); reflexivity.
Qed.

Lemma shakespeare_char_nodup : NoDup (map fst shakespeare_char).
Proof. cbn. repeat constructor; cbn; intuition discriminate. Defined.

Lemma from_file_values_witness :
  exists cfg,
    from_file "bfloat16" shakespeare_char = Done cfg
    /\ map fst cfg = field_names
    /\ StateDict.get cfg "batch_size" = Some (VInt 64)
    /\ StateDict.get cfg "eval_iters" = Some (VInt 200).
Proof.
  eexists. split; [reflexivity |].
  destruct (from_file_values "bfloat16" shakespeare_char _
              shakespeare_char_nodup eq_refl) as [Hn Hv].
  split; [exact Hn |]. split.
  - exact (Hv "batch_size" (VInt 12) eq_refl).
  - exact (Hv "eval_iters" (VInt 200) eq_refl).
Defined.

End ConfigFileFacts.

(** ** The architecture arguments on resume *)

Module ModelArgsFacts.

Import ConfigFile ModelArgs.

Local Open Scope string_scope.

Lemma set_present_keys {V} (d : StateDict.dict V) (k : string) (v : V) :
  In k (StateDict.keys d) ->
  StateDict.keys (StateDict.set d k v) = StateDict.keys d.
Proof.
  induction d as [| [k' v'] d IH]; [intros [] |].
  cbn. destruct (String.eqb_spec k' k) as [-> | Hne]; [reflexivity |].
  intros [H | H]; [contradiction |]. cbn. f_equal. apply IH. exact H.
Qed.

Lemma force_spec (ks : list string) (m ck : list (string * pyval)) :
  (forall k, In k ks -> StateDict.get ck k <> None) ->
  (forall k, In k ks -> In k (StateDict.keys m)) ->
  exists m',
    force ks m ck = Ok m'
    /\ StateDict.keys m' = StateDict.keys m
    /\ forall k, StateDict.get m' k
                 = if mem k ks then StateDict.get ck k else StateDict.get m k.
Proof.
  revert m. induction ks as [| k0 ks IH]; intros m Hck Hm.
  - exists m. repeat split.
  - cbn [force].
    destruct (StateDict.get ck k0) as [v |] eqn:Hg.
    2: { exfalso. apply (Hck k0 (or_introl eq_refl)). exact Hg. }
    destruct (IH (StateDict.set m k0 v)) as (m' & Hok & Hkeys & Hget).
    + intros k Hin. apply Hck. right. exact Hin.
    + intros k Hin.
      rewrite set_present_keys by (apply Hm; left; reflexivity).
      apply Hm. right. exact Hin.
    + exists m'. split; [exact Hok |]. split.
      * rewrite Hkeys. apply set_present_keys. apply Hm. left. reflexivity.
      * intros k. rewrite Hget. unfold mem. cbn [existsb].
        destruct (existsb (String.eqb k) ks); [rewrite orb_true_r; reflexivity |].
        rewrite orb_false_r.
        destruct (String.eqb_spec k k0) as [-> | Hne].
        -- rewrite StateDictFacts.get_set_same. symmetry. exact Hg.
        -- apply StateDictFacts.get_set_other. exact Hne.
Qed.

Lemma force_missing (ks : list string) (m ck : list (string * pyval)) :
  (exists k, In k ks /\ StateDict.get ck k = None) ->
  force ks m ck = Raise KeyError.
Proof.
  revert m. induction ks as [| k0 ks IH]; intros m (k & Hin & Hnone).
  - destruct Hin.
  - cbn [force]. destruct (StateDict.get ck k0) as [v |] eqn:Hg;
      [| reflexivity].
    apply IH. destruct Hin as [-> | Hin]; [congruence |].
    exists k. split; assumption.
Qed.

(** X26.  On resume the six architecture arguments are those of the
    checkpoint and [dropout] remains the configured one, the dictionary
    keeping its seven keys; a checkpoint that lacks one of the six makes
    the resume fail with [KeyError]. *)
Theorem resume_model_args (n_layer n_head n_embd block_size : Z) (bias : bool)
  (dropout : R) (ck : list (string * pyval)) :
  ((forall k, In k forced -> StateDict.get ck k <> None) ->
   exists m',
     force forced (from_config n_layer n_head n_embd block_size bias dropout) ck
     = Ok m'
     /\ StateDict.keys m'
        = ["n_layer"; "n_head"; "n_embd"; "block_size"; "bias"; "vocab_size";
           "dropout"]
     /\ (forall k, In k forced -> StateDict.get m' k = StateDict.get ck k)
     /\ StateDict.get m' "dropout" = Some (VFloat dropout))
  /\ ((exists k, In k forced /\ StateDict.get ck k = None) ->
      force forced (from_config n_layer n_head n_embd block_size bias dropout) ck
      = Raise KeyError).
Proof.
  split.
  - intros Hck.
    destruct (force_spec forced
                (from_config n_layer n_head n_embd block_size bias dropout)
                ck Hck) as (m' & Hok & Hkeys & Hget).
    + cbn. intros k H. repeat (destruct H as [<- | H]; [tauto |]). destruct H.
    + exists m'. split; [exact Hok |]. split; [exact Hkeys |]. split.
      * intros k Hin. rewrite Hget.
        replace (mem k forced) with true; [reflexivity |].
        symmetry. apply ConfigFileFacts.mem_in. exact Hin.
      * rewrite Hget. reflexivity.
  - apply force_missing.
Qed.

Lemma resume_model_args_witness :
  exists m',
    force forced (from_config 12 12 768 1024 false 0) shakespeare_checkpoint_args
    = Ok m'
    /\ StateDict.keys m'
       = ["n_layer"; "n_head"; "n_embd"; "block_size"; "bias"; "vocab_size";
          "dropout"]
    /\ (forall k, In k forced ->
                  StateDict.get m' k
                  = StateDict.get shakespeare_checkpoint_args k)
    /\ StateDict.get m' "dropout" = Some (VFloat 0).
Proof.
  apply (proj1 (resume_model_args 12 12 768 1024 false 0
                  shakespeare_checkpoint_args)).
  cbn. intros k H.
  repeat (destruct H as [<- | H]; [discriminate |]). destruct H.
Defined.

End ModelArgsFacts.
